(** * GoCaptcha: the multi-signal scoring engine of gocaptcha.go

    A shallow embedding of [CheckRequest] and of the functions it calls
    ([shouldBypass], the rate-limiter tick, [checkBehavior],
    [analyzeFormContent], [threshold], ...), followed by the properties
    established about them.

    Conventions.
    - A Go [string] is a sequence of bytes: [string] here, one [ascii] per
      byte; [bytes] gives the byte values.  Runes are [Z] code points.
    - Go [int] and [int64] values are [Z]; where the source can wrap
      around, the wrap is written with [wrap64].
    - [float64] is the kernel's binary64 ([PrimFloat.float]).
    - [time.Time] is a number of nanoseconds, [time.Duration] likewise.
    - [map[string][]time.Time] is a [gmap string (list Z)]; the request's
      maps ([r.Form], headers, query) are association lists, because
      [analyzeFormContent] iterates over [r.Form] and the order shows. *)

From Stdlib Require Import ZArith String Ascii List Bool Lia DecimalString.
From Stdlib Require Import Floats.PrimFloat Numbers.Cyclic.Int63.Uint63.
From Stdlib Require Import Sorted.
From stdpp Require Import gmap strings sorting.
Import ListNotations.
Open Scope string_scope.
Open Scope list_scope.
Open Scope Z_scope.

(** ** Machine integers *)

(** Two's-complement wrap-around of a 64-bit signed result. *)
Definition wrap64 (z : Z) : Z := (z + 2 ^ 63) mod 2 ^ 64 - 2 ^ 63.

Definition inInt64 (z : Z) : bool := (- 2 ^ 63 <=? z) && (z <? 2 ^ 63).

Definition between (lo hi b : Z) : bool := (lo <=? b) && (b <=? hi).

(** ** Strings as bytes *)

Definition byteOf (c : ascii) : Z := Z.of_N (N_of_ascii c).
Definition asciiOf (b : Z) : ascii := ascii_of_N (Z.to_N b).

Fixpoint bytes (s : string) : list Z :=
  match s with
  | EmptyString => []
  | String c t => byteOf c :: bytes t
  end.

Fixpoint ofBytes (bs : list Z) : string :=
  match bs with
  | [] => EmptyString
  | b :: t => String (asciiOf b) (ofBytes t)
  end.

(** [s == ""] *)
Definition isEmpty (s : string) : bool :=
  match s with EmptyString => true | _ => false end.

(** ** Package unicode/utf8 *)

Definition RuneError : Z := 0xFFFD.

(** The table [first] with [acceptRanges]: for a leading byte, the length
    of the sequence and the range allowed for its second byte. *)
Definition utf8_first (b0 : Z) : option (nat * Z * Z) :=
  if between 0xC2 0xDF b0 then Some (2%nat, 0x80, 0xBF)
  else if b0 =? 0xE0 then Some (3%nat, 0xA0, 0xBF)
  else if between 0xE1 0xEC b0 then Some (3%nat, 0x80, 0xBF)
  else if b0 =? 0xED then Some (3%nat, 0x80, 0x9F)
  else if between 0xEE 0xEF b0 then Some (3%nat, 0x80, 0xBF)
  else if b0 =? 0xF0 then Some (4%nat, 0x90, 0xBF)
  else if between 0xF1 0xF3 b0 then Some (4%nat, 0x80, 0xBF)
  else if b0 =? 0xF4 then Some (4%nat, 0x80, 0x8F)
  else None.

Definition isCont (b : Z) : bool := between 0x80 0xBF b.

(** [utf8.DecodeRuneInString]: the first rune and its width; an invalid
    or truncated sequence is [(RuneError, 1)]. *)
Definition utf8_DecodeRune (bs : list Z) : Z * nat :=
  match bs with
  | [] => (RuneError, 0%nat)
  | b0 :: t =>
    if b0 <? 0x80 then (b0, 1%nat)
    else
      match utf8_first b0, t with
      | Some (2%nat, lo, hi), b1 :: _ =>
        if between lo hi b1
        then (Z.lor (Z.shiftl (Z.land b0 0x1F) 6) (Z.land b1 0x3F), 2%nat)
        else (RuneError, 1%nat)
      | Some (3%nat, lo, hi), b1 :: b2 :: _ =>
        if between lo hi b1 && isCont b2
        then (Z.lor (Z.shiftl (Z.land b0 0x0F) 12)
                (Z.lor (Z.shiftl (Z.land b1 0x3F) 6) (Z.land b2 0x3F)), 3%nat)
        else (RuneError, 1%nat)
      | Some (4%nat, lo, hi), b1 :: b2 :: b3 :: _ =>
        if between lo hi b1 && isCont b2 && isCont b3
        then (Z.lor (Z.shiftl (Z.land b0 0x07) 18)
                (Z.lor (Z.shiftl (Z.land b1 0x3F) 12)
                   (Z.lor (Z.shiftl (Z.land b2 0x3F) 6) (Z.land b3 0x3F))), 4%nat)
        else (RuneError, 1%nat)
      | _, _ => (RuneError, 1%nat)
      end
  end.

(** [utf8.DecodeLastRuneInString], on the bytes in reverse order (last
    byte first): it looks back at most [UTFMax] bytes for a rune start
    and decodes forward from there. *)
Definition utf8_RuneStart (b : Z) : bool := negb (Z.land b 0xC0 =? 0x80).

Definition utf8_DecodeLastRune (rb : list Z) : Z * nat :=
  match rb with
  | [] => (RuneError, 0%nat)
  | b :: before =>
    if b <? 0x80 then (b, 1%nat)
    else
      let window :=
        match before with
        | b1 :: b2 :: b3 :: b4 :: _ =>
          if utf8_RuneStart b1 then [b1; b]
          else if utf8_RuneStart b2 then [b2; b1; b]
          else if utf8_RuneStart b3 then [b3; b2; b1; b]
          else [b4; b3; b2; b1; b]
        | [b1; b2; b3] =>
          if utf8_RuneStart b1 then [b1; b]
          else if utf8_RuneStart b2 then [b2; b1; b]
          else [b3; b2; b1; b]
        | [b1; b2] =>
          if utf8_RuneStart b1 then [b1; b] else [b2; b1; b]
        | [b1] => [b1; b]
        | [] => [b]
        end in
      let '(r, size) := utf8_DecodeRune window in
      if Nat.eqb size (length window) then (r, size) else (RuneError, 1%nat)
  end.

(** The runes a [for _, r := range s] loop sees. *)
Fixpoint runesFrom (skip : nat) (bs : list Z) : list Z :=
  match bs with
  | [] => []
  | _ :: t =>
    match skip with
    | S k => runesFrom k t
    | O => let '(r, w) := utf8_DecodeRune bs in r :: runesFrom (Nat.pred w) t
    end
  end.

Definition runes (s : string) : list Z := runesFrom 0 (bytes s).

(** [utf8.RuneCountInString] *)
Definition utf8_RuneCountInString (s : string) : Z := Z.of_nat (length (runes s)).

(** [utf8.AppendRune]: surrogates and values above [MaxRune] are
    written as [RuneError]. *)
Definition utf8_EncodeRune (r : Z) : list Z :=
  if between 0 0x7F r then [r]
  else if between 0x80 0x7FF r then
    [Z.lor 0xC0 (Z.shiftr r 6); Z.lor 0x80 (Z.land r 0x3F)]
  else if (r <? 0) || (0x10FFFF <? r) || between 0xD800 0xDFFF r then
    [0xEF; 0xBF; 0xBD]
  else if r <=? 0xFFFF then
    [Z.lor 0xE0 (Z.shiftr r 12); Z.lor 0x80 (Z.land (Z.shiftr r 6) 0x3F);
     Z.lor 0x80 (Z.land r 0x3F)]
  else
    [Z.lor 0xF0 (Z.shiftr r 18); Z.lor 0x80 (Z.land (Z.shiftr r 12) 0x3F);
     Z.lor 0x80 (Z.land (Z.shiftr r 6) 0x3F); Z.lor 0x80 (Z.land r 0x3F)].

(** ** Package unicode *)

(** [unicode.IsSpace]: the Latin-1 cases, then the [White_Space] table. *)
Definition unicode_IsSpace (r : Z) : bool :=
  if between 0 0xFF r then
    between 0x09 0x0D r || (r =? 0x20) || (r =? 0x85) || (r =? 0xA0)
  else
    (r =? 0x1680) || between 0x2000 0x200A r || between 0x2028 0x2029 r
    || (r =? 0x202F) || (r =? 0x205F) || (r =? 0x3000).

Definition asciiLower (b : Z) : Z :=
  if between 65 90 b then b + 32 else b.

(** ** Package strings *)

(** [strings.HasPrefix], [strings.HasSuffix], [strings.Contains], on bytes. *)
Fixpoint hasPrefixB (bs p : list Z) : bool :=
  match p, bs with
  | [], _ => true
  | x :: p', b :: bs' => (x =? b) && hasPrefixB bs' p'
  | _ :: _, [] => false
  end.

Fixpoint containsB (bs sub : list Z) : bool :=
  hasPrefixB bs sub ||
  match bs with
  | [] => false
  | _ :: t => containsB t sub
  end.

Definition strings_HasPrefix (s p : string) : bool := hasPrefixB (bytes s) (bytes p).
Definition strings_HasSuffix (s p : string) : bool :=
  hasPrefixB (rev (bytes s)) (rev (bytes p)).
Definition strings_Contains (s sub : string) : bool := containsB (bytes s) (bytes sub).

(** [strings.TrimLeftFunc(s, unicode.IsSpace)]: runes are decoded forwards. *)
Fixpoint trimLeftSpace (skip : nat) (bs : list Z) : list Z :=
  match bs with
  | [] => []
  | _ :: t =>
    match skip with
    | S k => trimLeftSpace k t
    | O =>
      let '(r, w) := utf8_DecodeRune bs in
      if unicode_IsSpace r then trimLeftSpace (Nat.pred w) t else bs
    end
  end.

(** [strings.TrimRightFunc(s, unicode.IsSpace)] on the reversed bytes:
    runes are decoded backwards, with [utf8.DecodeLastRuneInString]. *)
Fixpoint trimRightSpace (skip : nat) (rb : list Z) : list Z :=
  match rb with
  | [] => []
  | _ :: t =>
    match skip with
    | S k => trimRightSpace k t
    | O =>
      let '(r, w) := utf8_DecodeLastRune rb in
      if unicode_IsSpace r then trimRightSpace (Nat.pred w) t else rb
    end
  end.

(** [strings.TrimSpace].  Its ASCII fast path returns what
    [TrimFunc(s, unicode.IsSpace)] returns, which is what is written here:
    leading white space is removed, then trailing white space. *)
Definition strings_TrimSpace (s : string) : string :=
  ofBytes (rev (trimRightSpace 0 (rev (trimLeftSpace 0 (bytes s))))).

(** [strings.Map], as [strings.ToLower] uses it: every rune is mapped and
    written back; an invalid byte comes back as the encoding of
    [RuneError], a negative result is dropped. *)
Definition strings_Map (f : Z -> Z) (s : string) : string :=
  ofBytes (flat_map (fun r => let r' := f r in
                              if r' <? 0 then [] else utf8_EncodeRune r')
                    (runes s)).

(** ** Package strconv *)

(** [strconv.Itoa] *)
Definition strconv_Itoa (n : Z) : string := NilZero.string_of_int (Z.to_int n).

Fixpoint digitsValue (acc : Z) (bs : list Z) : option Z :=
  match bs with
  | [] => Some acc
  | b :: t => if between 48 57 b then digitsValue (10 * acc + (b - 48)) t else None
  end.

(** [strconv.ParseInt(s, 10, 64)]: an optional sign and decimal digits;
    [None] stands for a non-nil error (syntax or range). *)
Definition strconv_ParseInt (s : string) : option Z :=
  let '(neg, ds) :=
    match bytes s with
    | 43 :: t => (false, t)
    | 45 :: t => (true, t)
    | l => (false, l)
    end in
  match ds with
  | [] => None
  | _ =>
    match digitsValue 0 ds with
    | None => None
    | Some v => let n := if neg then - v else v in
                if inInt64 n then Some n else None
    end
  end.

(** ** Package time *)

Definition maxDuration : Z := 2 ^ 63 - 1.
Definition minDuration : Z := - 2 ^ 63.

(** [t.Sub(u)]: the difference, saturated to the range of [Duration]. *)
Definition time_Sub (t u : Z) : Z := Z.max minDuration (Z.min maxDuration (t - u)).

(** [t.UnixMilli()] *)
Definition time_UnixMilli (t : Z) : Z := t / 1000000.

Definition Minute : Z := 60 * 1000000000.

(** ** Package math, on [float64] *)

(** The conversion [float64(n)] of an integer in the [int64] range. *)
Definition float64_of_int (n : Z) : float :=
  let mag (m : Z) : float :=
    if m =? 2 ^ 63 then (PrimFloat.of_uint63 (Uint63.of_Z (2 ^ 62)) * 2)%float
    else PrimFloat.of_uint63 (Uint63.of_Z m) in
  if n <? 0 then PrimFloat.opp (mag (- n)) else mag n.

(** [math.Hypot], the portable implementation of package math. *)
Definition math_Hypot (p q : float) : float :=
  let p := PrimFloat.abs p in
  let q := PrimFloat.abs q in
  if (p =? infinity)%float || (q =? infinity)%float then infinity
  else if PrimFloat.is_nan p || PrimFloat.is_nan q then nan
  else
    let '(p, q) := if (p <? q)%float then (q, p) else (p, q) in
    if (p =? 0)%float then 0%float
    else let q := (q / p)%float in (p * PrimFloat.sqrt (1 + q * q))%float.

(** ** Package regexp: the two fixed patterns of [analyzeFormContent]

    Both patterns use ASCII classes only ([\b], [\S], [\s]), so they are
    matched on bytes: a byte of a multi-byte rune is neither a word
    character, nor white space, nor [@]. *)

Definition isWordByte (b : Z) : bool :=
  between 48 57 b || between 65 90 b || between 97 122 b || (b =? 95).

(** The class [\s]: tab, line feed, form feed, carriage return, space. *)
Definition isReSpace (b : Z) : bool :=
  (b =? 9) || (b =? 10) || (b =? 12) || (b =? 13) || (b =? 32).

(** A lower-case literal under [(?i)]. *)
Fixpoint matchFold (lit bs : list Z) : option (list Z) :=
  match lit, bs with
  | [], _ => Some bs
  | x :: lit', b :: bs' => if asciiLower b =? x then matchFold lit' bs' else None
  | _ :: _, [] => None
  end.

(** The letter [s] under [(?i)]: its case orbit is s, S and U+017F (the
    long s, bytes C5 BF). *)
Definition matchFoldS (bs : list Z) : option (list Z) :=
  match bs with
  | b :: t =>
    if (b =? 115) || (b =? 83) then Some t
    else match t with
         | b' :: t' => if (b =? 0xC5) && (b' =? 0xBF) then Some t' else None
         | [] => None
         end
  | [] => None
  end.

(** [(?:https?://|www\.)], returning what follows the prefix. *)
Definition urlRe_prefix (bs : list Z) : option (list Z) :=
  match matchFold (bytes "http") bs with
  | Some r =>
    match match matchFoldS r with
          | Some r' => matchFold (bytes "://") r'
          | None => None
          end with
    | Some rest => Some rest
    | None => matchFold (bytes "://") r
    end
  | None => matchFold (bytes "www.") bs
  end.

(** The prefix followed by at least one [\S]. *)
Definition urlRe_startsAt (bs : list Z) : bool :=
  match urlRe_prefix bs with
  | Some (c :: _) => negb (isReSpace c)
  | _ => false
  end.

(** [urlRe.FindAllString(s, -1)] for
    [urlRe = `(?i)\b(?:https?://|www\.)\S+`]: the successive leftmost
    matches.  [cur] holds the match being read (reversed), [prevWord]
    tells whether the byte before is a word character (for [\b]). *)
Fixpoint urlRe_scan (cur : option (list Z)) (prevWord : bool) (bs : list Z)
  : list string :=
  match bs with
  | [] => match cur with Some m => [ofBytes (rev m)] | None => [] end
  | b :: t =>
    match cur with
    | Some m =>
      if isReSpace b then ofBytes (rev m) :: urlRe_scan None false t
      else urlRe_scan (Some (b :: m)) true t
    | None =>
      if negb prevWord && urlRe_startsAt bs then urlRe_scan (Some [b]) true t
      else urlRe_scan None (isWordByte b) t
    end
  end.

Definition urlRe_FindAllString (s : string) : list string :=
  urlRe_scan None false (bytes s).

Definition urlRe_MatchString (s : string) : bool :=
  match urlRe_FindAllString s with [] => false | _ => true end.

(** [emailRe = `^[^@\s]+@[^@\s]+\.[^@\s]+$`]: after the first [@], only
    bytes of [[^@\s]], with a dot that is neither first nor last. *)
Definition emailRe_domain (bs : list Z) : bool :=
  forallb (fun b => negb ((b =? 64) || isReSpace b)) bs &&
  match bs with
  | [] => false
  | _ :: t => existsb (fun b => b =? 46) (removelast t)
  end.

Fixpoint emailRe_local (seen : bool) (bs : list Z) : bool :=
  match bs with
  | [] => false
  | b :: t =>
    if b =? 64 then seen && emailRe_domain t
    else if isReSpace b then false
    else emailRe_local true t
  end.

Definition emailRe_MatchString (s : string) : bool := emailRe_local false (bytes s).

(** ** Data model *)

(** A call of a user-supplied Go function either returns or panics. *)
Inductive Outcome (A : Type) : Type :=
| Returns (a : A)
| Panics.
Arguments Returns {A} a.
Arguments Panics {A}.

(** What a function that has run [defer func() { _ = recover() }()]
    gives its caller: a panic is stopped, and the function returns the
    zero values of its (unnamed) results. *)
Definition recovered {A : Type} (zero : A) (o : Outcome A) : A :=
  match o with
  | Returns a => a
  | Panics => zero
  end.

(** The fields of [*http.Request] that [CheckRequest] reads.
    [ParseFormErr] tells whether [r.ParseForm()] returns an error; [Form]
    is [r.Form] after that call, in the order a [range] visits it;
    [URLQuery] is [r.URL.Query()]; [Header] has canonical keys. *)
Record Request : Type := {
  ParseFormErr : bool;
  Form : list (string * list string);
  RemoteAddr : string;
  Method : string;
  Host : string;
  URLPath : string;
  URLQuery : list (string * list string);
  Header : list (string * list string);
  Cookies : list (string * string)
}.

(** [type Config struct] *)
Record Config : Type := {
  ShowBadge : bool;
  BadgeMessage : string;
  RateLimitTTL : Z;
  RateLimitMax : Z;
  EnableStorage : bool;
  DBPath : string;
  BlockThreshold : Z;
  SkipPaths : list string;
  SkipIf : option (Request -> Outcome bool)
}.

(** The storage collaborator behind [c.db], as the engine reads it:
    [configValue key] is the row of [captcha_config] ([None] when the
    query or the scan fails), [keywordRows] the scanned rows of
    [spam_keywords] ([None] when the query fails). *)
Record Store : Type := {
  configValue : string -> option string;
  keywordRows : option (list string)
}.

(** [type Captcha struct]; [db] is [None] for a nil [*sql.DB]. *)
Record Captcha : Type := {
  cfg : Config;
  fieldName : string;
  db : option Store;
  rateMap : gmap string (list Z)
}.

(** The event type local to [checkBehavior]. *)
Record Event : Type := { X : Z; Y : Z; T : Z }.

(** The events static/js/gocaptcha.js records: pointer moves carry a
    position, key presses and clicks do not. *)
Inductive JsEvent : Type :=
| JsMove (x y t : Z)
| JsKey (t : Z)
| JsClick (t : Z).

(** [json.Unmarshal] of one such object into [Event]: a key that is
    absent leaves the field at its zero value. *)
Definition eventOfJs (e : JsEvent) : Event :=
  match e with
  | JsMove x y t => {| X := x; Y := y; T := t |}
  | JsKey t => {| X := 0; Y := 0; T := t |}
  | JsClick t => {| X := 0; Y := 0; T := t |}
  end.

(** The arguments of one call of [c.log]. *)
Record LogCall : Type := {
  log_ip : string;
  log_ua : string;
  log_score : Z;
  log_reasons : list string
}.

(** What one call of [CheckRequest] does: the value it returns, the call
    of [c.log] it makes (none on malformed form data), and [c.rateMap]
    when it returns. *)
Record Result : Type := {
  blocked : bool;
  audit : option LogCall;
  rateMapAfter : gmap string (list Z)
}.

(** The parts of Go's standard library that are data tables or parsers
    outside this repository; the engine is modelled over any of them.
    - [unicode_IsLetter], [unicode_IsMark]: [unicode.IsLetter], [unicode.IsMark];
    - [unicode_Latin], [unicode_So]: [unicode.Is] on these range tables;
    - [unicode_lowerTable]: [unicode.ToLower] above [MaxASCII];
    - [regexp_matchAnyFold parts s]: whether the pattern built from
      ["(?i)(" + strings.Join(parts', "|") + ")"] matches [s], where
      [parts'] is [regexp.QuoteMeta] of each of [parts]; the keywords
      are taken to be valid UTF-8, so that [regexp.MustCompile] accepts
      the pattern (it panics otherwise);
    - [net_SplitHostPort]: host and port, [None] on error;
    - [base64_DecodeString]: [base64.StdEncoding.DecodeString];
    - [json_UnmarshalEvents]: [json.Unmarshal] into a [[]Event]. *)
Record GoStdlib : Type := {
  unicode_IsLetter : Z -> bool;
  unicode_IsMark : Z -> bool;
  unicode_Latin : Z -> bool;
  unicode_So : Z -> bool;
  unicode_lowerTable : Z -> Z;
  regexp_matchAnyFold : list string -> string -> bool;
  net_SplitHostPort : string -> option (string * string);
  base64_DecodeString : string -> option string;
  json_UnmarshalEvents : string -> option (list Event)
}.

(** First value under a key, or the empty string: [r.FormValue],
    [Header.Get] and [url.Values.Get]. *)
Fixpoint valuesGet (m : list (string * list string)) (k : string) : string :=
  match m with
  | [] => ""
  | (k', vs) :: rest =>
    if String.eqb k' k then match vs with v :: _ => v | [] => "" end
    else valuesGet rest k
  end.

Definition FormValue (r : Request) (k : string) : string := valuesGet (Form r) k.
Definition Header_Get (r : Request) (k : string) : string := valuesGet (Header r) k.
Definition Query_Get (r : Request) (k : string) : string := valuesGet (URLQuery r) k.

(** [r.Cookie(name)]: the first cookie of that name; [None] is
    [http.ErrNoCookie]. *)
Fixpoint Cookie (cs : list (string * string)) (name : string) : option string :=
  match cs with
  | [] => None
  | (n, v) :: rest => if String.eqb n name then Some v else Cookie rest name
  end.

(** ** The engine *)

(** Score and reasons, as [CheckRequest] and [analyzeFormContent]
    accumulate them.  The score stays within a few tens of zero, so no
    wrap-around is written for it. *)
Definition Acc : Type := Z * list string.

(** [score -= d; reasons = append(reasons, why...)] for a penalty [d <= 0]
    given as a negative number. *)
Definition penalize (d : Z) (why : list string) (a : Acc) : Acc :=
  (fst a + d, snd a ++ why).

(** [func New(cfg Config) *Captcha].  [suffix] is what [randSeq(6)]
    returns; [opened] is the database [sql.Open] gives when storage is
    enabled ([None] on error). *)
Definition New (suffix : string) (opened : option Store) (cfg0 : Config) : Captcha :=
  let ttl := if RateLimitTTL cfg0 =? 0 then 1 * Minute else RateLimitTTL cfg0 in
  let mx := if RateLimitMax cfg0 =? 0 then 5 else RateLimitMax cfg0 in
  let th := if BlockThreshold cfg0 =? 0 then -5 else BlockThreshold cfg0 in
  {| cfg := {| ShowBadge := ShowBadge cfg0;
               BadgeMessage := BadgeMessage cfg0;
               RateLimitTTL := ttl;
               RateLimitMax := mx;
               EnableStorage := EnableStorage cfg0;
               DBPath := DBPath cfg0;
               BlockThreshold := th;
               SkipPaths := SkipPaths cfg0;
               SkipIf := SkipIf cfg0 |};
     fieldName := "extra_" +:+ suffix;
     db := if EnableStorage cfg0 then opened else None;
     rateMap := ∅ |}.

(** [func (c *Captcha) threshold() int] *)
Definition threshold (c : Captcha) : Z :=
  if BlockThreshold (cfg c) =? 0 then -5 else BlockThreshold (cfg c).

(** [func (c *Captcha) log(...)]: the rows written, none unless storage
    is enabled and the database is open. *)
Definition log (c : Captcha) (call : LogCall) : list LogCall :=
  if negb (EnableStorage (cfg c)) || match db c with None => true | Some _ => false end
  then []
  else [call].

(** [func defaultKeywords() []string] *)
Definition defaultKeywords : list string :=
  ["earn"; "money"; "cash"; "crypto"; "bitcoin"; "forex"; "seo"; "backlink"; "guest post";
   "sponsor"; "telegram"; "whatsapp"; "casino"; "bet"; "loan"; "payday"; "work from home";
   "adult"; "porn"; "viagra"; "sex"; "xxx"; "escort"; "nft"; "investment"; "binary options";
   "cheap"; "discount"; "limited offer"; "promo"; "marketing"; "followers"; "likes"].

(** [func (c *Captcha) getSpamKeywords() []string] *)
Definition getSpamKeywords (c : Captcha) : list string :=
  match db c with
  | None => defaultKeywords
  | Some st =>
    match keywordRows st with
    | None => defaultKeywords
    | Some [] => defaultKeywords
    | Some out => out
    end
  end.

(** [func isSpecialPunct(r rune) bool] *)
Definition isSpecialPunct (r : Z) : bool :=
  (r =? 33) || (r =? 63) || (r =? 42) || (r =? 38) || (r =? 95) || (r =? 45).

(** The loop of [hasRepeatedPunct]; [prev] is [None] while [hasPrev] is
    false. *)
Fixpoint hasRepeatedPunct_loop (prev : option Z) (count : Z) (rs : list Z) : bool :=
  match rs with
  | [] => false
  | r :: t =>
    if match prev with Some p => r =? p | None => false end && isSpecialPunct r
    then if 4 <=? count + 1 then true else hasRepeatedPunct_loop (Some r) (count + 1) t
    else hasRepeatedPunct_loop (Some r) 0 t
  end.

(** [func hasRepeatedPunct(s string) bool] *)
Definition hasRepeatedPunct (s : string) : bool := hasRepeatedPunct_loop None 0 (runes s).

(** The keys of the local map [fields] of [analyzeFormContent]; a key
    never written reads as the empty string. *)
Record Fields : Type := {
  f_name : string;
  f_email : string;
  f_website : string;
  f_message : string
}.

Definition inList (s : string) (l : list string) : bool := existsb (String.eqb s) l.

(** [pen := -2 - int(math.Min(float64(n-1), 2))]: for [n >= 1] the
    conversions are exact on the values that decide the minimum. *)
Definition linkPenalty (n : Z) : Z := -2 - Z.min (n - 1) 2.

Section Engine.

Variable G : GoStdlib.

(** [unicode.ToLower] *)
Definition unicode_ToLower (r : Z) : Z :=
  if r <=? 0x7F then asciiLower r else unicode_lowerTable G r.

(** [strings.ToLower]: bytewise on ASCII input, [strings.Map] otherwise. *)
Definition strings_ToLower (s : string) : string :=
  if forallb (fun b => b <? 0x80) (bytes s)
  then ofBytes (map asciiLower (bytes s))
  else strings_Map unicode_ToLower s.

(** [func (c *Captcha) getConfigBool(key string, def bool) bool] *)
Definition getConfigBool (c : Captcha) (key : string) (def : bool) : bool :=
  match db c with
  | None => def
  | Some st =>
    match configValue st key with
    | None => def
    | Some v =>
      let s := strings_TrimSpace (strings_ToLower v) in
      String.eqb s "1" || String.eqb s "true" || String.eqb s "yes" || String.eqb s "on"
    end
  end.

(** [func isLatinOnlyText(s string) bool] *)
Definition isLatinOnlyText (s : string) : bool :=
  forallb (fun r => if unicode_IsLetter G r || unicode_IsMark G r
                    then unicode_Latin G r else true)
          (runes s).

(** [func (c *Captcha) formIsLatinOnly(r *http.Request) bool] *)
Definition formIsLatinOnly (c : Captcha) (r : Request) : bool :=
  forallb (fun kv => if String.eqb (fst kv) (fieldName c) then true
                     else forallb isLatinOnlyText (snd kv))
          (Form r).

(** One round of the first loop of [analyzeFormContent], for the key [k]. *)
Definition classifyField (r : Request) (fs : Fields) (k : string) : Fields :=
  let v := FormValue r k in
  let kl := strings_ToLower k in
  if inList kl ["name"; "full_name"; "fullname"; "username"] then
    {| f_name := v; f_email := f_email fs; f_website := f_website fs;
       f_message := f_message fs |}
  else if String.eqb kl "email" then
    {| f_name := f_name fs; f_email := v; f_website := f_website fs;
       f_message := f_message fs |}
  else if inList kl ["website"; "url"; "site"] then
    {| f_name := f_name fs; f_email := f_email fs; f_website := v;
       f_message := f_message fs |}
  else if inList kl ["message"; "msg"; "comment"; "content"; "bio"; "body"] then
    {| f_name := f_name fs; f_email := f_email fs; f_website := f_website fs;
       f_message := f_message fs +:+ ofBytes [10] +:+ v |}
  else fs.

Definition collectFields (r : Request) : Fields :=
  fold_left (classifyField r) (map fst (Form r))
            {| f_name := ""; f_email := ""; f_website := ""; f_message := "" |}.

(** *** [analyzeFormContent]: the checks, in the order of the source *)

(** URLs in message *)
Definition contentLinks (links : list string) (a : Acc) : Acc :=
  let n := Z.of_nat (length links) in
  if 0 <? n
  then penalize (linkPenalty n) ["links_in_message:" +:+ strconv_Itoa n] a
  else a.

(** DB-configurable spammy keywords *)
Definition contentKeywords (c : Captcha) (msg : string) (a : Acc) : Acc :=
  match getSpamKeywords c with
  | [] => a
  | kws =>
    match List.filter (fun kw => negb (isEmpty kw)) (map strings_TrimSpace kws) with
    | [] => a
    | parts =>
      if regexp_matchAnyFold G parts msg then penalize (-3) ["spam_keywords"] a else a
    end
  end.

(** Emoji overuse *)
Definition emojiCount (msg : string) : Z :=
  Z.of_nat (length (List.filter (fun r => unicode_So G r || between 0x1F300 0x1FAFF r)
                                (runes msg))).

Definition contentEmoji (msg : string) (a : Acc) : Acc :=
  let n := emojiCount msg in
  let a := if 5 <=? n then penalize (-1) ["emoji_overuse:" +:+ strconv_Itoa n] a else a in
  if 12 <=? n then penalize (-1) [] a else a.

(** Repeated punctuation *)
Definition contentPunct (msg : string) (a : Acc) : Acc :=
  if hasRepeatedPunct msg then penalize (-1) ["repeated_punct"] a else a.

(** Name should not contain URL *)
Definition contentName (name : string) (a : Acc) : Acc :=
  if negb (isEmpty name) && urlRe_MatchString name
  then penalize (-2) ["name_contains_url"] a else a.

(** Website must look like a URL if provided *)
Definition contentWebsite (website : string) (a : Acc) : Acc :=
  if negb (isEmpty website) && negb (urlRe_MatchString website)
  then penalize (-1) ["website_invalid"] a else a.

(** Basic email validation *)
Definition contentEmail (email : string) (a : Acc) : Acc :=
  if negb (isEmpty email) && negb (emailRe_MatchString email)
  then penalize (-1) ["email_invalid"] a else a.

(** Very short message with link is suspicious *)
Definition contentShort (msg : string) (links : list string) (a : Acc) : Acc :=
  if (utf8_RuneCountInString msg <? 15) && (0 <? Z.of_nat (length links))
  then penalize (-1) ["short_msg_with_link"] a else a.

(** [func (c *Captcha) analyzeFormContent(r *http.Request) (int, []string)] *)
Definition analyzeFormContent (c : Captcha) (r : Request) : Acc :=
  let fs := collectFields r in
  let msg := strings_TrimSpace (f_message fs) in
  let name := strings_TrimSpace (f_name fs) in
  let email := strings_TrimSpace (f_email fs) in
  let website := strings_TrimSpace (f_website fs) in
  let links := urlRe_FindAllString msg in
  contentShort msg links
    (contentEmail email
      (contentWebsite website
        (contentName name
          (contentPunct msg
            (contentEmoji msg
              (contentKeywords c msg
                (contentLinks links (0, [])))))))).

(** *** [checkBehavior] *)

(** timestamps must be strictly increasing *)
Fixpoint monotonic (prev : Z) (evs : list Event) : bool :=
  match evs with
  | [] => true
  | ev :: t => if T ev <=? prev then false else monotonic (T ev) t
  end.

(** The loop [for i := 1; i < len(events); i++]: [prev] is
    [events[i-1]], the accumulators are [totalDist] and [deltas].  Each
    floating-point operation is rounded on its own. *)
Fixpoint movement (prev : Event) (evs : list Event) (totalDist : float)
         (deltas : list float) : float * list float :=
  match evs with
  | [] => (totalDist, deltas)
  | ev :: t =>
    let dx := float64_of_int (wrap64 (X ev - X prev)) in
    let dy := float64_of_int (wrap64 (Y ev - Y prev)) in
    let dt := float64_of_int (wrap64 (T ev - T prev)) in
    movement ev t (totalDist + math_Hypot dx dy)%float (deltas ++ [dt])
  end.

(** [checkBehavior] from the monotonicity check on, for the decoded
    [events] (of which there are at least five when it is reached). *)
Definition checkEvents (events : list Event) : bool * string :=
  match events with
  | [] => (false, "behavior_not_enough_events")
  | e0 :: rest =>
    if negb (monotonic (T e0) rest) then (false, "behavior_non_monotonic_time")
    else
      let dur := wrap64 (T (List.last rest e0) - T e0) in
      if dur <? 600 then (false, "behavior_too_short")
      else
        let '(totalDist, deltas) := movement e0 rest 0%float [] in
        if (totalDist <? 40)%float then (false, "behavior_low_movement")
        else
          let '(sum, sumsq) :=
            fold_left (fun (acc : float * float) (d : float) =>
                         (fst acc + d, snd acc + d * d)%float)
                      deltas (0%float, 0%float) in
          let n := float64_of_int (Z.of_nat (length deltas)) in
          let mean := (sum / n)%float in
          if (0 <? mean)%float then
            let std := PrimFloat.sqrt (sumsq / n - mean * mean)%float in
            if (std <? 10)%float then (false, "behavior_low_timing_variance")
            else (true, "")
          else (true, "")
  end.

(** [func (c *Captcha) checkBehavior(encoded string) (bool, string)] *)
Definition checkBehavior (encoded : string) : bool * string :=
  if isEmpty encoded then (false, "missing_behavior")
  else
    match base64_DecodeString G encoded with
    | None => (false, "behavior_decode_error")
    | Some decoded =>
      if isEmpty decoded then (false, "behavior_decode_error")
      else
        match json_UnmarshalEvents G decoded with
        | None => (false, "behavior_not_enough_events")
        | Some events =>
          if Z.of_nat (length events) <? 5 then (false, "behavior_not_enough_events")
          else checkEvents events
        end
    end.

(** *** [shouldBypass] *)

(** Path-based bypass (prefix match) *)
Fixpoint skipPathMatch (p : string) (prefs : list string) : bool :=
  match prefs with
  | [] => false
  | pref :: rest =>
    if isEmpty pref then skipPathMatch p rest
    else if strings_HasPrefix p pref then true
    else skipPathMatch p rest
  end.

(** Heuristic OAuth2 callback detection *)
Definition oauthBypass (r : Request) : bool * string :=
  if String.eqb (Method r) "GET" then
    let code := strings_TrimSpace (Query_Get r "code") in
    let state := strings_TrimSpace (Query_Get r "state") in
    let pathLower := strings_ToLower (URLPath r) in
    let ref := strings_ToLower (Header_Get r "Referer") in
    if negb (isEmpty code) && negb (isEmpty state) then (true, "bypass:oauth_flow")
    else if (strings_Contains pathLower "/oauth" || strings_Contains pathLower "/oauth2"
             || strings_Contains pathLower "/auth/" || strings_HasSuffix pathLower "/callback")
            && (negb (isEmpty code) || negb (isEmpty state))
    then (true, "bypass:oauth_flow")
    else if strings_Contains ref "accounts.google.com"
            || strings_Contains ref "github.com/login"
            || strings_Contains ref "github.com/session"
    then (true, "bypass:oauth_referer")
    else (false, "")
  else (false, "").

(** [shouldBypass] below the custom predicate: the path rule, then the
    OAuth rule. *)
Definition bypassRules (c : Captcha) (r : Request) : bool * string :=
  if skipPathMatch (URLPath r) (SkipPaths (cfg c)) then (true, "bypass:skip_path")
  else oauthBypass r.

(** [func (c *Captcha) shouldBypass(r *http.Request) (bool, string)].
    The deferred [recover] is registered only when [SkipIf] is not nil,
    and the only call that can panic is the one of [SkipIf]. *)
Definition shouldBypass (c : Captcha) (r : Request) : bool * string :=
  match SkipIf (cfg c) with
  | Some skipIf =>
    recovered (false, "")
      match skipIf r with
      | Panics => Panics
      | Returns true => Returns (true, "bypass:custom")
      | Returns false => Returns (bypassRules c r)
      end
  | None => bypassRules c r
  end.

(** *** [CheckRequest] *)

(** 1. Rate limiting: the slice [recent] after the append. *)
Definition rateTick (c : Captcha) (ip : string) (now : Z) : list Z :=
  let hits := default [] (rateMap c !! ip) in
  List.filter (fun t => time_Sub now t <? RateLimitTTL (cfg c)) hits ++ [now].

Definition checkRate (c : Captcha) (recent : list Z) (a : Acc) : Acc :=
  if RateLimitMax (cfg c) <? Z.of_nat (length recent)
  then penalize (-3) ["rate_limit_exceeded"] a else a.

(** 3. Timestamp *)
Definition checkTimestamp (now : Z) (r : Request) (a : Acc) : Acc :=
  let tsStr := FormValue r "ts" in
  if negb (isEmpty tsStr) then
    match strconv_ParseInt tsStr with
    | None => penalize (-3) ["too_fast_submit"] a
    | Some ts =>
      if wrap64 (time_UnixMilli now - ts) <? 1500
      then penalize (-3) ["too_fast_submit"] a else a
    end
  else penalize (-3) ["missing_ts"] a.

(** 4. JS token *)
Definition checkToken (r : Request) (a : Acc) : Acc :=
  if negb (String.eqb (FormValue r "js_token") "set_by_js")
  then penalize (-2) ["missing_js_token"] a else a.

(** 5. Behavior tracking *)
Definition checkBehaviorStep (r : Request) (a : Acc) : Acc :=
  let '(ok, why) := checkBehavior (FormValue r "behavior_data") in
  if negb ok then
    if negb (isEmpty why) then penalize (-3) ["behavior:" +:+ why] a
    else penalize (-3) ["behavior_invalid"] a
  else a.

(** 6. UA/Header check *)
Definition checkUA (r : Request) (a : Acc) : Acc :=
  let ua := Header_Get r "User-Agent" in
  let uaLower := strings_ToLower ua in
  if isEmpty ua || negb (strings_Contains uaLower "mozilla")
  then penalize (-2) ["ua_suspicious"] a else a.

Definition checkReferer (r : Request) (a : Acc) : Acc :=
  let ref := Header_Get r "Referer" in
  if isEmpty ref then penalize (-1) ["missing_referer"] a
  else if negb (isEmpty (Host r)) && negb (strings_Contains ref (Host r))
  then penalize (-1) ["cross_site_referer"] a
  else a.

(** 7. Headless/User-Agent indicators *)
Definition checkHeadless (r : Request) (a : Acc) : Acc :=
  let ua := Header_Get r "User-Agent" in
  if strings_Contains ua "HeadlessChrome"
     || strings_Contains ua "PhantomJS"
     || strings_Contains ua "SlimerJS"
     || strings_Contains ua "Electron"
     || strings_Contains ua "Puppeteer"
     || isEmpty ua
     || strings_Contains ua "Go-http-client"
     || strings_Contains ua "curl"
     || strings_Contains ua "python-requests"
  then penalize (-4) ["headless_or_scripted_ua"] a else a.

(** 7b. Additional header heuristics *)
Definition checkHeaders (r : Request) (a : Acc) : Acc :=
  let uaLower := strings_ToLower (Header_Get r "User-Agent") in
  let accept := Header_Get r "Accept" in
  let al := Header_Get r "Accept-Language" in
  let secFetchSite := Header_Get r "Sec-Fetch-Site" in
  let secFetchMode := Header_Get r "Sec-Fetch-Mode" in
  let a := if isEmpty accept && isEmpty al
           then penalize (-1) ["missing_accept_and_language"] a else a in
  if strings_Contains uaLower "chrome" && isEmpty secFetchSite && isEmpty secFetchMode
  then penalize (-1) ["missing_sec_fetch_headers"] a else a.

(** 8. JS cookie detection *)
Definition checkCookie (r : Request) (a : Acc) : Acc :=
  match Cookie (Cookies r) "js_captcha" with
  | None => penalize (-3) ["missing_js_cookie"] a
  | Some v =>
    if negb (String.eqb v "enabled") then penalize (-2) ["bad_js_cookie"] a else a
  end.

(** 9. Form content heuristics *)
Definition checkContent (c : Captcha) (r : Request) (a : Acc) : Acc :=
  let '(delta, extra) := analyzeFormContent c r in
  if negb (delta =? 0) then (fst a + delta, snd a ++ extra) else a.

(** Steps 3 to 9, from the score and reasons the rate limiter left. *)
Definition scoreSignals (c : Captcha) (now : Z) (r : Request) (a : Acc) : Acc :=
  checkContent c r
    (checkCookie r
      (checkHeaders r
        (checkHeadless r
          (checkReferer r
            (checkUA r
              (checkBehaviorStep r
                (checkToken r
                  (checkTimestamp now r a)))))))).

Definition clientIP (r : Request) : string :=
  match net_SplitHostPort G (RemoteAddr r) with
  | Some (host, _) => host
  | None => RemoteAddr r
  end.

(** [CheckRequest] from the rate limiter on (steps 1 to 9 and the
    verdict), for a request that is not bypassed. *)
Definition scoreRequest (c : Captcha) (now : Z) (r : Request) (ip ua : string) : Result :=
  let recent := rateTick c ip now in
  let m := <[ip := recent]> (rateMap c) in
  let a := checkRate c recent (0, []) in
  if negb (isEmpty (strings_TrimSpace (FormValue r (fieldName c)))) then
    {| blocked := true;
       audit := Some {| log_ip := ip; log_ua := ua; log_score := fst a;
                        log_reasons := snd a ++ ["hidden_field_filled"] |};
       rateMapAfter := m |}
  else if getConfigBool c "latin_only" false && negb (formIsLatinOnly c r) then
    {| blocked := true;
       audit := Some {| log_ip := ip; log_ua := ua; log_score := fst a;
                        log_reasons := snd a ++ ["non_latin_detected"] |};
       rateMapAfter := m |}
  else
    let a := scoreSignals c now r a in
    {| blocked := fst a <=? threshold c;
       audit := Some {| log_ip := ip; log_ua := ua; log_score := fst a;
                        log_reasons := snd a |};
       rateMapAfter := m |}.

(** [func (c *Captcha) CheckRequest(r *http.Request) bool], with [now]
    the value of [time.Now()]. *)
Definition CheckRequest (c : Captcha) (now : Z) (r : Request) : Result :=
  if ParseFormErr r then
    {| blocked := true; audit := None; rateMapAfter := rateMap c |}
  else
    let ip := clientIP r in
    let ua := Header_Get r "User-Agent" in
    match shouldBypass c r with
    | (true, why) =>
      {| blocked := false;
         audit := Some {| log_ip := ip; log_ua := ua; log_score := 0;
                          log_reasons := [why] |};
         rateMapAfter := rateMap c |}
    | (false, _) => scoreRequest c now r ip ua
    end.

End Engine.

(** ** A concrete standard library for the examples

    [exampleStd] agrees with Go on the inputs the examples below use:
    ASCII text, [host:port] addresses without brackets, canonical
    base64 without line breaks, and traces as static/js/gocaptcha.js
    serialises them ([JSON.stringify]: no white space, members with
    integer, boolean or escape-free string values). *)

Definition isAsciiLetter (r : Z) : bool := between 65 90 r || between 97 122 r.

Definition matchAnyFoldAscii (parts : list string) (s : string) : bool :=
  existsb (fun p => containsB (map asciiLower (bytes s)) (map asciiLower (bytes p))) parts.

Fixpoint splitAtColon (host : list Z) (bs : list Z) : option (list Z * list Z) :=
  match bs with
  | [] => None
  | b :: t => if b =? 58 then Some (rev host, t) else splitAtColon (b :: host) t
  end.

Definition splitHostPortPlain (s : string) : option (string * string) :=
  if existsb (fun b => (b =? 91) || (b =? 93)) (bytes s) then None
  else
    match splitAtColon [] (bytes s) with
    | Some (h, p) => if existsb (fun b => b =? 58) p then None
                     else Some (ofBytes h, ofBytes p)
    | None => None
    end.

Definition base64Value (b : Z) : option Z :=
  if between 65 90 b then Some (b - 65)
  else if between 97 122 b then Some (b - 71)
  else if between 48 57 b then Some (b + 4)
  else if b =? 43 then Some 62
  else if b =? 47 then Some 63
  else None.

Definition base64Quantum (a b c d : Z) : list Z :=
  [Z.lor (Z.shiftl a 2) (Z.shiftr b 4);
   Z.lor (Z.land (Z.shiftl b 4) 0xFF) (Z.shiftr c 2);
   Z.lor (Z.land (Z.shiftl c 6) 0xFF) d].

Fixpoint base64Decode (bs : list Z) : option (list Z) :=
  match bs with
  | [] => Some []
  | a :: b :: c :: d :: rest =>
    match base64Value a, base64Value b with
    | Some va, Some vb =>
      match base64Value c, base64Value d, rest with
      | Some vc, Some vd, _ =>
        match base64Decode rest with
        | Some out => Some (base64Quantum va vb vc vd ++ out)
        | None => None
        end
      | Some vc, None, [] =>
        if d =? 61 then Some (firstn 2 (base64Quantum va vb vc 0)) else None
      | None, None, [] =>
        if (c =? 61) && (d =? 61) then Some (firstn 1 (base64Quantum va vb 0 0)) else None
      | _, _, _ => None
      end
    | _, _ => None
    end
  | _ => None
  end.

Definition base64DecodePlain (s : string) : option string :=
  option_map ofBytes (base64Decode (bytes s)).

(** A small reader of JSON event arrays. *)
Fixpoint jsonDigits (acc : Z) (seen : bool) (bs : list Z) : option (Z * list Z) :=
  match bs with
  | b :: t =>
    if between 48 57 b then jsonDigits (10 * acc + (b - 48)) true t
    else if seen then Some (acc, bs) else None
  | [] => if seen then Some (acc, []) else None
  end.

Fixpoint jsonString (acc : list Z) (bs : list Z) : option (string * list Z) :=
  match bs with
  | [] => None
  | b :: t =>
    if b =? 34 then Some (ofBytes (rev acc), t)
    else if b =? 92 then None
    else jsonString (b :: acc) t
  end.

Fixpoint stripPrefixB (p bs : list Z) : option (list Z) :=
  match p, bs with
  | [], _ => Some bs
  | x :: p', b :: bs' => if x =? b then stripPrefixB p' bs' else None
  | _ :: _, [] => None
  end.

(** A member value: [Some z] for an integer, [None] for the others. *)
Definition jsonValue (bs : list Z) : option (option Z * list Z) :=
  match bs with
  | 45 :: t =>
    match jsonDigits 0 false t with
    | Some (v, rest) => Some (Some (- v), rest)
    | None => None
    end
  | 34 :: t =>
    match jsonString [] t with
    | Some (_, rest) => Some (None, rest)
    | None => None
    end
  | _ =>
    match stripPrefixB (bytes "true") bs, stripPrefixB (bytes "false") bs with
    | Some rest, _ => Some (None, rest)
    | None, Some rest => Some (None, rest)
    | None, None =>
      match jsonDigits 0 false bs with
      | Some (v, rest) => Some (Some v, rest)
      | None => None
      end
    end
  end.

Definition setMember (ev : Event) (key : string) (v : option Z) : option Event :=
  match v with
  | Some z =>
    if String.eqb key "x" then Some {| X := z; Y := Y ev; T := T ev |}
    else if String.eqb key "y" then Some {| X := X ev; Y := z; T := T ev |}
    else if String.eqb key "t" then Some {| X := X ev; Y := Y ev; T := z |}
    else Some ev
  | None =>
    if String.eqb key "x" || String.eqb key "y" || String.eqb key "t" then None
    else Some ev
  end.

(** The members of one object, after its opening brace. *)
Fixpoint jsonMembers (fuel : nat) (ev : Event) (bs : list Z) : option (Event * list Z) :=
  match fuel, bs with
  | S f, 34 :: t =>
    match jsonString [] t with
    | Some (key, 58 :: t') =>
      match jsonValue t' with
      | Some (v, rest) =>
        match setMember ev key v, rest with
        | Some ev', 44 :: rest' => jsonMembers f ev' rest'
        | Some ev', 125 :: rest' => Some (ev', rest')
        | _, _ => None
        end
      | None => None
      end
    | _ => None
    end
  | _, _ => None
  end.

(** The objects of the array, after its opening bracket. *)
Fixpoint jsonObjects (fuel : nat) (acc : list Event) (bs : list Z) : option (list Event) :=
  match fuel, bs with
  | S f, 123 :: t =>
    match jsonMembers (length t) {| X := 0; Y := 0; T := 0 |} t with
    | Some (ev, 44 :: rest) => jsonObjects f (acc ++ [ev]) rest
    | Some (ev, [93]) => Some (acc ++ [ev])
    | _ => None
    end
  | _, _ => None
  end.

Definition jsonEventsPlain (s : string) : option (list Event) :=
  match bytes s with
  | [91; 93] => Some []
  | 91 :: t => jsonObjects (length t) [] t
  | _ => None
  end.

Definition exampleStd : GoStdlib :=
  {| unicode_IsLetter := isAsciiLetter;
     unicode_IsMark := fun _ => false;
     unicode_Latin := isAsciiLetter;
     unicode_So := fun _ => false;
     unicode_lowerTable := fun r => r;
     regexp_matchAnyFold := matchAnyFoldAscii;
     net_SplitHostPort := splitHostPortPlain;
     base64_DecodeString := base64DecodePlain;
     json_UnmarshalEvents := jsonEventsPlain |}.

(** ** Vocabulary of the specification *)

Section Findings.

Variable G : GoStdlib.
Variable c : Captcha.
Variable now : Z.
Variable r : Request.

(** The request passes the two hard stops (honeypot, Latin-only) and
    reaches the final comparison of [CheckRequest]. *)
Definition decoyEmpty : bool :=
  isEmpty (strings_TrimSpace (FormValue r (fieldName c))).

Definition latinAccepted : bool :=
  negb (getConfigBool G c "latin_only" false && negb (formIsLatinOnly G c r)).

Definition reachesVerdict : bool :=
  negb (ParseFormErr r) && negb (fst (shouldBypass G c r)) && decoyEmpty && latinAccepted.

(** The signals of a request with no adverse finding, one definition
    per signal. *)
Definition rateWithinLimit : bool :=
  Z.of_nat (length (rateTick c (clientIP G r) now)) <=? RateLimitMax (cfg c).

Definition timestampFresh : bool :=
  negb (isEmpty (FormValue r "ts")) &&
  match strconv_ParseInt (FormValue r "ts") with
  | Some ts => 1500 <=? wrap64 (time_UnixMilli now - ts)
  | None => false
  end.

Definition tokenCorrect : bool := String.eqb (FormValue r "js_token") "set_by_js".

Definition behaviorValid : bool := fst (checkBehavior G (FormValue r "behavior_data")).

Definition scriptedMarkers : list string :=
  ["HeadlessChrome"; "PhantomJS"; "SlimerJS"; "Electron"; "Puppeteer";
   "Go-http-client"; "curl"; "python-requests"].

Definition uaBrowserLike : bool :=
  let ua := Header_Get r "User-Agent" in
  negb (isEmpty ua) && strings_Contains (strings_ToLower G ua) "mozilla"
  && negb (existsb (strings_Contains ua) scriptedMarkers).

Definition headersExpected : bool :=
  let ref := Header_Get r "Referer" in
  negb (isEmpty ref)
  && (isEmpty (Host r) || strings_Contains ref (Host r))
  && negb (isEmpty (Header_Get r "Accept") && isEmpty (Header_Get r "Accept-Language"))
  && negb (strings_Contains (strings_ToLower G (Header_Get r "User-Agent")) "chrome"
           && isEmpty (Header_Get r "Sec-Fetch-Site")
           && isEmpty (Header_Get r "Sec-Fetch-Mode")).

Definition cookieExpected : bool :=
  match Cookie (Cookies r) "js_captcha" with
  | Some v => String.eqb v "enabled"
  | None => false
  end.

Definition contentClean : bool := fst (analyzeFormContent G c r) =? 0.

Definition noAdverseFindings : bool :=
  negb (ParseFormErr r) && rateWithinLimit && decoyEmpty && latinAccepted
  && timestampFresh && tokenCorrect && behaviorValid && uaBrowserLike
  && headersExpected && cookieExpected && contentClean.

End Findings.

(** Two requests that differ at most in their [User-Agent] header. *)
Definition sameButUserAgent (r r' : Request) : Prop :=
  Form r = Form r' /\ Host r = Host r' /\ Cookies r = Cookies r' /\
  forall k, k <> "User-Agent" -> Header_Get r k = Header_Get r' k.

(** A step whose effect on score and reasons does not depend on what
    was accumulated before. *)
Definition additive (f : Acc -> Acc) : Prop :=
  exists d w, forall a, f a = penalize d w a.

(** The movement between two points, as the loop of [checkBehavior]
    computes it from the integer differences. *)
Definition stepLength (p q : Z * Z) : float :=
  math_Hypot (float64_of_int (wrap64 (fst q - fst p)))
             (float64_of_int (wrap64 (snd q - snd p))).

Definition jsPosition (e : JsEvent) : option (Z * Z) :=
  match e with
  | JsMove x y _ => Some (x, y)
  | _ => None
  end.

(** The distance of the specification: a pair of consecutive events
    counts when both carry a position, and counts zero otherwise. *)
Fixpoint positionalDistance (prev : JsEvent) (evs : list JsEvent) (acc : float) : float :=
  match evs with
  | [] => acc
  | ev :: t =>
    let d := match jsPosition prev, jsPosition ev with
             | Some p, Some q => stepLength p q
             | _, _ => 0%float
             end in
    positionalDistance ev t (acc + d)%float
  end.

(** The length of a path of points. *)
Fixpoint pathLength (prev : Z * Z) (ps : list (Z * Z)) (acc : float) : float :=
  match ps with
  | [] => acc
  | p :: t => pathLength p t (acc + stepLength prev p)%float
  end.

(** The other reading of the specification: the path through the
    positional events alone. *)
Definition movesOnlyDistance (evs : list JsEvent) : float :=
  match omap jsPosition evs with
  | [] => 0%float
  | p :: ps => pathLength p ps 0%float
  end.

(** What the code does: an event without a position stands at the origin. *)
Definition positionOrOrigin (e : JsEvent) : Z * Z :=
  match jsPosition e with
  | Some p => p
  | None => (0, 0)
  end.

(** ** Example data *)

Definition zeroConfig : Config :=
  {| ShowBadge := false; BadgeMessage := ""; RateLimitTTL := 0; RateLimitMax := 0;
     EnableStorage := false; DBPath := ""; BlockThreshold := 0;
     SkipPaths := []; SkipIf := None |}.

(** A captcha built by [New] from the zero configuration: one-minute
    window, five requests, threshold -5, no storage. *)
Definition exampleCaptcha : Captcha := New "k3x9qa" None zeroConfig.

(** The same with [SkipPaths: []string{"/auth/"}] and a given [SkipIf]. *)
Definition authCaptcha (skipIf : option (Request -> Outcome bool)) : Captcha :=
  New "k3x9qa" None
      {| ShowBadge := false; BadgeMessage := ""; RateLimitTTL := 0; RateLimitMax := 0;
         EnableStorage := false; DBPath := ""; BlockThreshold := 0;
         SkipPaths := ["/auth/"]; SkipIf := skipIf |}.

Definition panickingPredicate : Request -> Outcome bool := fun _ => Panics.

Definition decliningPredicate : Request -> Outcome bool := fun _ => Returns false.

(** [time.Now()]: five seconds after the form was rendered. *)
Definition exampleNow : Z := 1700000005000 * 1000000.

Definition firefoxUA : string :=
  "Mozilla/5.0 (X11; Linux x86_64; rv:120.0) Gecko/20100101 Firefox/120.0".

(** Six pointer moves over 990 ms:
    (100,100) (130,140) (160,180) (200,210) (260,290) (300,320) at
    t = ...1000, 1130, 1310, 1400, 1700, 1990. *)
Definition humanTrace : string :=
  "W3sieCI6MTAwLCJ5IjoxMDAsInQiOjE3MDAwMDAwMDEwMDB9LHsieCI6MTMwLCJ5IjoxNDAsInQiOjE3MDAwMDAwMDExMzB9LHsieCI6MTYwLCJ5IjoxODAsInQiOjE3MDAwMDAwMDEzMTB9LHsieCI6MjAwLCJ5IjoyMTAsInQiOjE3MDAwMDAwMDE0MDB9LHsieCI6MjYwLCJ5IjoyOTAsInQiOjE3MDAwMDAwMDE3MDB9LHsieCI6MzAwLCJ5IjozMjAsInQiOjE3MDAwMDAwMDE5OTB9XQ==".

(** One pointer move at (30,40), then three key presses and a click:
    [{x:30,y:40,t:..1000},{key:true,t:..1130},{key:true,t:..1310},
     {click:true,t:..1400},{key:true,t:..1700}]. *)
Definition keysTraceEvents : list JsEvent :=
  [JsMove 30 40 1700000001000; JsKey 1700000001130; JsKey 1700000001310;
   JsClick 1700000001400; JsKey 1700000001700].

Definition keysTrace : string :=
  "W3sieCI6MzAsInkiOjQwLCJ0IjoxNzAwMDAwMDAxMDAwfSx7ImtleSI6dHJ1ZSwidCI6MTcwMDAwMDAwMTEzMH0seyJrZXkiOnRydWUsInQiOjE3MDAwMDAwMDEzMTB9LHsiY2xpY2siOnRydWUsInQiOjE3MDAwMDAwMDE0MDB9LHsia2V5Ijp0cnVlLCJ0IjoxNzAwMDAwMDAxNzAwfV0=".

(** Five pointer moves whose last timestamp is exactly 600 ms after the
    first: t = ...1000, 1130, 1310, 1400, 1600. *)
Definition trace600Events : list Event :=
  [{| X := 100; Y := 100; T := 1700000001000 |};
   {| X := 130; Y := 140; T := 1700000001130 |};
   {| X := 160; Y := 180; T := 1700000001310 |};
   {| X := 200; Y := 210; T := 1700000001400 |};
   {| X := 260; Y := 290; T := 1700000001600 |}].

Definition trace600 : string :=
  "W3sieCI6MTAwLCJ5IjoxMDAsInQiOjE3MDAwMDAwMDEwMDB9LHsieCI6MTMwLCJ5IjoxNDAsInQiOjE3MDAwMDAwMDExMzB9LHsieCI6MTYwLCJ5IjoxODAsInQiOjE3MDAwMDAwMDEzMTB9LHsieCI6MjAwLCJ5IjoyMTAsInQiOjE3MDAwMDAwMDE0MDB9LHsieCI6MjYwLCJ5IjoyOTAsInQiOjE3MDAwMDAwMDE2MDB9XQ==".

(** A form submission from 203.0.113.7 to shop.example.org, with every
    signal of a browser; the parameters are what the examples vary. *)
Definition exampleRequest (parseErr : bool) (path decoy ua message : string) : Request :=
  {| ParseFormErr := parseErr;
     Form := [("name", ["Ann Lee"]);
              ("email", ["ann@example.org"]);
              ("message", [message]);
              ("ts", ["1700000000000"]);
              ("js_token", ["set_by_js"]);
              ("behavior_data", [humanTrace]);
              ("extra_k3x9qa", [decoy])];
     RemoteAddr := "203.0.113.7:51234";
     Method := "POST";
     Host := "shop.example.org";
     URLPath := path;
     URLQuery := [];
     Header := [("User-Agent", [ua]);
                ("Referer", ["https://shop.example.org/contact"]);
                ("Accept", ["text/html"]);
                ("Accept-Language", ["en-US"])];
     Cookies := [("js_captcha", "enabled")] |}.

Definition plainMessage : string := "Hello, I have a question about opening hours.".

Definition threeLinkMessage : string :=
  "Please see http://a.example.org www.b.example.org and https://c.example.org today".

Definition cleanRequest : Request :=
  exampleRequest false "/contact" "" firefoxUA plainMessage.

(** The same submission with one space in the decoy field. *)
Definition blankDecoyRequest : Request :=
  exampleRequest false "/contact" " " firefoxUA plainMessage.

(** A bot filling the decoy field. *)
Definition decoyRequest : Request :=
  exampleRequest false "/contact" "http://spam.example" firefoxUA plainMessage.

(** The same bot with form data that [ParseForm] rejects. *)
Definition malformedDecoyRequest : Request :=
  exampleRequest true "/contact" "http://spam.example" firefoxUA plainMessage.

(** Requests under the skip path [/auth/] with the decoy field filled:
    one whose form data is malformed, one whose form data parses. *)
Definition malformedAuthRequest : Request :=
  exampleRequest true "/auth/login" "x" firefoxUA plainMessage.

Definition authRequest : Request :=
  exampleRequest false "/auth/login" "x" firefoxUA plainMessage.

(** The same submission without a [User-Agent] header value. *)
Definition noUARequest : Request :=
  exampleRequest false "/contact" "" "" plainMessage.

(** The captcha after a request that read the clock one millisecond
    later than [exampleNow] and took the rate-limiter lock first. *)
Definition laterNow : Z := exampleNow + 1000000.

Definition captchaAfterLater : Captcha :=
  {| cfg := cfg exampleCaptcha;
     fieldName := fieldName exampleCaptcha;
     db := db exampleCaptcha;
     rateMap := rateMapAfter (CheckRequest exampleStd exampleCaptcha laterNow cleanRequest) |}.

(** ** Vocabulary of the further properties *)

(** A step that subtracts a fixed amount between [lo] and 0 from the
    score, and records a reason exactly when it subtracts something. *)
Definition penalty (lo : Z) (f : Acc -> Acc) : Prop :=
  exists d w,
    (forall a, f a = penalize d w a) /\
    lo <= d <= 0 /\ (d = 0 -> w = []) /\ (d < 0 -> w <> []).

(** A captcha configured with the positive threshold 1. *)
Definition positiveThresholdCaptcha : Captcha :=
  New "k3x9qa" None
      {| ShowBadge := false; BadgeMessage := ""; RateLimitTTL := 0; RateLimitMax := 0;
         EnableStorage := false; DBPath := ""; BlockThreshold := 1;
         SkipPaths := []; SkipIf := None |}.

(** Five copies in a row of one rune of the set [!?*&_-], somewhere in
    [rs]. *)
Definition hasPunctRun (rs : list Z) : Prop :=
  exists pre p post, rs = pre ++ repeat p 5 ++ post /\ isSpecialPunct p = true.

(** The reasons [checkBehavior] returns with a [false] verdict. *)
Definition behaviorTags : list string :=
  ["missing_behavior"; "behavior_decode_error"; "behavior_not_enough_events";
   "behavior_non_monotonic_time"; "behavior_too_short"; "behavior_low_movement";
   "behavior_low_timing_variance"].

(** A visitor who only types and clicks, over 700 ms. *)
Definition keyboardOnlyEvents : list JsEvent :=
  [JsKey 1700000001000; JsKey 1700000001130; JsClick 1700000001310;
   JsKey 1700000001400; JsKey 1700000001700].

(** [c] with [c.rateMap] replaced. *)
Definition withRateMap (c : Captcha) (m : gmap string (list Z)) : Captcha :=
  {| cfg := cfg c; fieldName := fieldName c; db := db c; rateMap := m |}.

(** The captcha after [CheckRequest] has served [r] at each of the
    instants [nows], in that order. *)
Definition serve (G : GoStdlib) (c : Captcha) (r : Request) (nows : list Z) : Captcha :=
  fold_left (fun c' now => withRateMap c' (rateMapAfter (CheckRequest G c' now r))) nows c.

(** Five submissions from one origin within the last five seconds. *)
Definition busyCaptcha : Captcha :=
  serve exampleStd exampleCaptcha cleanRequest
        [exampleNow - 5000000000; exampleNow - 4000000000; exampleNow - 3000000000;
         exampleNow - 2000000000; exampleNow - 1000000000].

(** Two submissions from one origin, three and two minutes ago. *)
Definition idleCaptcha : Captcha :=
  serve exampleStd exampleCaptcha cleanRequest
        [exampleNow - 3 * Minute; exampleNow - 2 * Minute].

(** The reasons [shouldBypass] returns with a [true] verdict. *)
Definition bypassTags : list string :=
  ["bypass:custom"; "bypass:skip_path"; "bypass:oauth_flow"; "bypass:oauth_referer"].

(** A provider redirecting back with [?code=...&state=...]; the decoy
    field is filled, and nothing else of a browser submission is there. *)
Definition oauthCallbackRequest : Request :=
  {| ParseFormErr := false;
     Form := [("code", ["4/0AbCdEf"]); ("state", ["af0ifjsldkj"]); ("extra_k3x9qa", ["x"])];
     RemoteAddr := "203.0.113.7:51234";
     Method := "GET";
     Host := "shop.example.org";
     URLPath := "/welcome";
     URLQuery := [("code", ["4/0AbCdEf"]); ("state", ["af0ifjsldkj"])];
     Header := [];
     Cookies := [] |}.

(** [exampleStd] with the Greek small letters U+03B1..U+03C9 known as
    letters (they are not Latin). *)
Definition greekStd : GoStdlib :=
  {| unicode_IsLetter := fun r => isAsciiLetter r || between 0x3B1 0x3C9 r;
     unicode_IsMark := fun _ => false;
     unicode_Latin := isAsciiLetter;
     unicode_So := fun _ => false;
     unicode_lowerTable := fun r => r;
     regexp_matchAnyFold := matchAnyFoldAscii;
     net_SplitHostPort := splitHostPortPlain;
     base64_DecodeString := base64DecodePlain;
     json_UnmarshalEvents := jsonEventsPlain |}.

(** The database as [New] seeds it: [latin_only = 1] and the default
    keywords. *)
Definition seededStore : Store :=
  {| configValue := fun key => if String.eqb key "latin_only" then Some "1" else None;
     keywordRows := Some defaultKeywords |}.

Definition storageCaptcha : Captcha :=
  New "k3x9qa" (Some seededStore)
      {| ShowBadge := false; BadgeMessage := ""; RateLimitTTL := 0; RateLimitMax := 0;
         EnableStorage := true; DBPath := ""; BlockThreshold := 0;
         SkipPaths := []; SkipIf := None |}.

(** The four letters gamma, epsilon, iota, alpha, in UTF-8. *)
Definition greekMessage : string :=
  ofBytes [0xCE; 0xB3; 0xCE; 0xB5; 0xCE; 0xB9; 0xCE; 0xB1].

Definition greekRequest : Request :=
  exampleRequest false "/contact" "" firefoxUA greekMessage.

(** [func randSeq(n int) string]; [draws] holds the [n] values that
    [rand.Intn(len(letters))] returns, in order. *)
Definition randSeq_letters : list Z := runes "abcdefghijklmnopqrstuvwxyz0123456789".

Definition randSeq (draws : list Z) : string :=
  ofBytes (flat_map (fun i => utf8_EncodeRune (nth (Z.to_nat i) randSeq_letters 0)) draws).

(** [func (c *Captcha) HoneypotField() string] *)
Definition HoneypotField (c : Captcha) : string := fieldName c.

(** The class [[^@\s]] of [emailRe]. *)
Definition emailClass (b : Z) : bool := negb ((b =? 64) || isReSpace b).

(** The strings [local@domain.tld]: three non-empty parts of [[^@\s]]. *)
Definition emailShape (bs : list Z) : Prop :=
  exists l d t,
    bs = l ++ 64 :: d ++ 46 :: t /\
    l <> [] /\ d <> [] /\ t <> [] /\
    forallb emailClass l = true /\ forallb emailClass d = true /\
    forallb emailClass t = true.

(** Whether the byte just before the position reached after [pre] is a
    word character; [prevWord] answers for the byte before [pre]. *)
Fixpoint wordBefore (prevWord : bool) (pre : list Z) : bool :=
  match pre with
  | [] => prevWord
  | b :: t => wordBefore (isWordByte b) t
  end.

(** The URL pattern in words, with no reference to the matcher.  The
    class [\w]: ASCII letters, digits and the underscore; the class
    [\s]: tab, line feed, form feed, carriage return and space. *)
Definition wordChar (b : Z) : Prop :=
  48 <= b <= 57 \/ 65 <= b <= 90 \/ 97 <= b <= 122 \/ b = 95.

Definition whiteSpace (b : Z) : Prop :=
  b = 9 \/ b = 10 \/ b = 12 \/ b = 13 \/ b = 32.

(** [bs] spells the lower-case word [lit], each letter in either case. *)
Definition anyCase (lit : string) (bs : list Z) : Prop :=
  Forall2 (fun l b => b = l \/ b = l - 32) (bytes lit) bs.

(** The prefixes [http://], [https://] and [www.], letters in either
    case; under Go's case folding the [s] of [https] is also the long s
    U+017F (bytes C5 BF). *)
Definition urlPrefix (p : list Z) : Prop :=
  (exists h, anyCase "http" h /\ p = h ++ bytes "://") \/
  (exists h s, anyCase "http" h /\
               (s = [115] \/ s = [83] \/ s = [0xC5; 0xBF]) /\
               p = h ++ s ++ bytes "://") \/
  (exists w, anyCase "www" w /\ p = w ++ bytes ".").

(** An occurrence of a URL: one of the prefixes, at the start of the
    string or after a byte that is no word character, followed by a
    byte that is not white space. *)
Definition urlOccursIn (bs : list Z) : Prop :=
  exists pre p c rest,
    bs = pre ++ p ++ c :: rest /\
    (pre = [] \/ exists pre' b, pre = pre' ++ [b] /\ ~ wordChar b) /\
    urlPrefix p /\ ~ whiteSpace c.

(** ** The statistics helpers *)

(** What [c.db.Query] and the loop over its rows give a statistics
    function: the rows in order, each the scanned value or [None] where
    [rows.Scan] fails, and whether [rows.Err()] is non-nil after the
    loop.  A query that fails gives no [Rows] at all. *)
Record Rows (A : Type) : Type := {
  scanned : list (option A);
  iterErr : bool
}.
Arguments scanned {A} _.
Arguments iterErr {A} _.

(** [type StatReason struct] *)
Record StatReason : Type := { Reason : string; Count : Z }.

(** The loop of [HourlyCounts] over rows [(h, cnt)]; [None] when a scan
    fails. *)
Fixpoint hourlyFill (counts : list Z) (rows : list (option (Z * Z))) : option (list Z) :=
  match rows with
  | [] => Some counts
  | None :: _ => None
  | Some (h, cnt) :: t =>
    hourlyFill (if (0 <=? h) && (h <? 24) then <[Z.to_nat h := cnt]> counts else counts) t
  end.

(** [func (c *Captcha) HourlyCounts(spamOnly bool) ([]int, error)]: the
    slice ([None] for nil) and whether the error is non-nil.
    [query spamOnly] is the outcome of the query chosen by [spamOnly]. *)
Definition HourlyCounts (c : Captcha) (query : bool -> option (Rows (Z * Z)))
           (spamOnly : bool) : option (list Z) * bool :=
  match db c with
  | None => (None, true)
  | Some _ =>
    match query spamOnly with
    | None => (None, true)
    | Some rows =>
      match hourlyFill (replicate 24 0) (scanned rows) with
      | None => (None, true)
      | Some counts => (Some counts, iterErr rows)
      end
    end
  end.

(** [r = strings.TrimSpace(r); if r == "" { continue }; freq[r]++] *)
Definition countReason (freq : gmap string Z) (r : string) : gmap string Z :=
  let r := strings_TrimSpace r in
  if isEmpty r then freq else <[r := default 0 (freq !! r) + 1]> freq.

(** The loop of [TopReasons] over the [details] column; [json] is
    [json.Unmarshal] into a [[]string] ([None] on error: the row is
    skipped).  [None] when a scan fails. *)
Fixpoint reasonFreq (json : string -> option (list string)) (freq : gmap string Z)
         (rows : list (option string)) : option (gmap string Z) :=
  match rows with
  | [] => Some freq
  | None :: _ => None
  | Some details :: t =>
    match json details with
    | None => reasonFreq json freq t
    | Some reasons => reasonFreq json (fold_left countReason reasons freq) t
    end
  end.

(** The comparison given to [sort.Slice]: higher count first, equal
    counts by reason. *)
Definition statLess (a b : StatReason) : bool :=
  if Count a =? Count b then String.ltb (Reason a) (Reason b)
  else Count b <? Count a.

(** [a] may stand before [b]. *)
Definition statOrder (a b : StatReason) : Prop := statLess b a = false.

#[local] Instance statOrder_dec : forall a b, Decision (statOrder a b) :=
  fun a b => decide (statLess b a = false).

(** [func (c *Captcha) TopReasons(limit int, spamOnly bool) ([]StatReason, error)].
    The reasons of the map are distinct, so [less] orders the entries
    totally and the sorted slice is the same for every sorting method and
    every iteration order of the map. *)
Definition TopReasons (json : string -> option (list string)) (c : Captcha)
           (query : bool -> option (Rows string)) (limit : Z) (spamOnly : bool)
  : option (list StatReason) * bool :=
  match db c with
  | None => (None, true)
  | Some _ =>
    let limit := if limit <=? 0 then 10 else limit in
    match query spamOnly with
    | None => (None, true)
    | Some rows =>
      match reasonFreq json ∅ (scanned rows) with
      | None => (None, true)
      | Some freq =>
        if iterErr rows then (None, true)
        else
          let arr :=
            merge_sort statOrder
              (map (fun kv => {| Reason := fst kv; Count := snd kv |}) (map_to_list freq)) in
          (Some (if limit <? Z.of_nat (length arr) then firstn (Z.to_nat limit) arr else arr),
           false)
      end
    end
  end.

(** [json.Marshal] of a list of escape-free strings, as [c.log] stores
    it, and a reader for such arrays. *)
Fixpoint jsonItemsPlain (l : list string) : list Z :=
  match l with
  | [] => []
  | [s] => [34] ++ bytes s ++ [34]
  | s :: t => [34] ++ bytes s ++ [34; 44] ++ jsonItemsPlain t
  end.

Definition jsonArrayPlain (l : list string) : string :=
  ofBytes ([91] ++ jsonItemsPlain l ++ [93]).

Fixpoint jsonStringItems (fuel : nat) (acc : list string) (bs : list Z)
  : option (list string) :=
  match fuel, bs with
  | S f, 34 :: t =>
    match jsonString [] t with
    | Some (s, 44 :: rest) => jsonStringItems f (acc ++ [s]) rest
    | Some (s, [93]) => Some (acc ++ [s])
    | _ => None
    end
  | _, _ => None
  end.

Definition jsonStringsPlain (s : string) : option (list string) :=
  match bytes s with
  | [91; 93] => Some []
  | 91 :: t => jsonStringItems (length t) [] t
  | _ => None
  end.

(** Four rows of [captcha_logs.details]: one holds a blank reason, one
    is not JSON. *)
Definition exampleDetails : Rows string :=
  {| scanned := [Some (jsonArrayPlain ["missing_ts"; "ua_suspicious"]);
                 Some (jsonArrayPlain ["ua_suspicious"; " "]);
                 Some "not json";
                 Some (jsonArrayPlain ["missing_ts"; "bad_js_cookie"; " ua_suspicious"])];
     iterErr := false |}.

(** Rows [(hour, count)], two of them with an hour outside 0..23. *)
Definition exampleHours : Rows (Z * Z) :=
  {| scanned := [Some (9, 4); Some (24, 7); Some (-1, 2); Some (23, 1)];
     iterErr := false |}.

(** Reasons counted so far are not blank, and each was seen at least
    once. *)
Definition countedOk (freq : gmap string Z) : Prop :=
  map_Forall (fun k v => k <> "" /\ 1 <= v) freq.

(** The captcha after [CheckRequest] has served the requests [reqs] in
    order, each with the clock reading paired with it. *)
Definition serveAll (G : GoStdlib) (c : Captcha) (reqs : list (Z * Request)) : Captcha :=
  fold_left (fun c' nr => withRateMap c' (rateMapAfter (CheckRequest G c' (fst nr) (snd nr))))
            reqs c.

(** No timestamp stored in the rate-limiter map is later than [t]. *)
Definition storedUpTo (c : Captcha) (t : Z) : Prop :=
  forall ip ts, rateMap c !! ip = Some ts -> Forall (fun x => x <= t) ts.

(** A store whose keyword table holds blank entries only. *)
Definition blankKeywordStore : Store :=
  {| configValue := fun _ => None; keywordRows := Some [" "; ""] |}.

Definition blankKeywordCaptcha : Captcha :=
  New "k3x9qa" (Some blankKeywordStore)
      {| ShowBadge := false; BadgeMessage := ""; RateLimitTTL := 0; RateLimitMax := 0;
         EnableStorage := true; DBPath := ""; BlockThreshold := 0;
         SkipPaths := []; SkipIf := None |}.

(** ** Vocabulary of the link check *)






(** The clean submission with form data that [ParseForm] rejects. *)
Definition malformedCleanRequest : Request :=
  exampleRequest true "/contact" "" firefoxUA plainMessage.

(** Two submissions from one origin, 61 and 5 seconds ago: under the
    default window of one minute the first has aged out at
    [exampleNow], the second has not. *)
Definition agingCaptcha : Captcha :=
  serve exampleStd exampleCaptcha cleanRequest
        [exampleNow - 61000000000; exampleNow - 5000000000].

(** * Properties *)

(** ** Elementary facts *)

Lemma isEmpty_true (s : string) : isEmpty s = true <-> s = "".
Proof. destruct s; simpl; split; congruence. Qed.

Lemma isEmpty_false (s : string) : isEmpty s = false <-> s <> "".
Proof. destruct s; simpl; split; congruence. Qed.

Lemma threshold_nonzero (c : Captcha) :
  BlockThreshold (cfg c) <> 0 -> threshold c = BlockThreshold (cfg c).
Proof.
  intros H. unfold threshold.
  destruct (Z.eqb_spec (BlockThreshold (cfg c)) 0); [contradiction | reflexivity].
Qed.

Lemma threshold_zero (c : Captcha) :
  BlockThreshold (cfg c) = 0 -> threshold c = -5.
Proof. intros H. unfold threshold. rewrite H. reflexivity. Qed.

Lemma threshold_New (suffix : string) (opened : option Store) (cfg0 : Config) :
  threshold (New suffix opened cfg0) =
  if BlockThreshold cfg0 =? 0 then -5 else BlockThreshold cfg0.
Proof.
  unfold threshold, New; cbn [cfg BlockThreshold].
  destruct (Z.eqb_spec (BlockThreshold cfg0) 0) as [E | E]; [reflexivity |].
  destruct (Z.eqb_spec (BlockThreshold cfg0) 0); [contradiction | reflexivity].
Qed.

(** A request that is not stopped before the rate limiter is handled by
    [scoreRequest]. *)
Lemma CheckRequest_scored (G : GoStdlib) (c : Captcha) (now : Z) (r : Request) :
  ParseFormErr r = false ->
  fst (shouldBypass G c r) = false ->
  CheckRequest G c now r =
  scoreRequest G c now r (clientIP G r) (Header_Get r "User-Agent").
Proof.
  intros Hp Hb. unfold CheckRequest. rewrite Hp.
  destruct (shouldBypass G c r) as [b why]. simpl in Hb. subst b. reflexivity.
Qed.

Lemma reachesVerdict_inv (G : GoStdlib) (c : Captcha) (r : Request) :
  reachesVerdict G c r = true ->
  ParseFormErr r = false /\ fst (shouldBypass G c r) = false /\
  decoyEmpty c r = true /\ latinAccepted G c r = true.
Proof.
  unfold reachesVerdict. intros H.
  apply andb_prop in H as [H Hl]. apply andb_prop in H as [H Hd].
  apply andb_prop in H as [Hp Hb].
  apply negb_true_iff in Hp. apply negb_true_iff in Hb. auto.
Qed.

(** The result of [scoreRequest] when neither hard stop fires. *)
Lemma scoreRequest_verdict (G : GoStdlib) (c : Captcha) (now : Z) (r : Request)
      (ip ua : string) :
  decoyEmpty c r = true -> latinAccepted G c r = true ->
  scoreRequest G c now r ip ua =
  let a := scoreSignals G c now r (checkRate c (rateTick c ip now) (0, [])) in
  {| blocked := fst a <=? threshold c;
     audit := Some {| log_ip := ip; log_ua := ua; log_score := fst a;
                      log_reasons := snd a |};
     rateMapAfter := <[ip := rateTick c ip now]> (rateMap c) |}.
Proof.
  unfold decoyEmpty, latinAccepted. intros Hd Hl.
  apply negb_true_iff in Hl.
  unfold scoreRequest. rewrite Hd, Hl. reflexivity.
Qed.

(** C2: a request that reaches the final verdict step is blocked exactly
    when its accumulated score (the score handed to the log) is at most
    the effective threshold; the effective threshold is the configured
    [BlockThreshold] when that is not zero and -5 when it is zero. *)
Theorem verdict_is_score_le_threshold
        (G : GoStdlib) (c : Captcha) (now : Z) (r : Request) :
  reachesVerdict G c r = true ->
  exists call,
    audit (CheckRequest G c now r) = Some call /\
    log_score call =
      fst (scoreSignals G c now r
             (checkRate c (rateTick c (clientIP G r) now) (0, []))) /\
    (blocked (CheckRequest G c now r) = true <-> log_score call <= threshold c) /\
    (BlockThreshold (cfg c) <> 0 -> threshold c = BlockThreshold (cfg c)) /\
    (BlockThreshold (cfg c) = 0 -> threshold c = -5).
Proof.
  intros H. apply reachesVerdict_inv in H as (Hp & Hb & Hd & Hl).
  rewrite (CheckRequest_scored G c now r Hp Hb).
  rewrite (scoreRequest_verdict G c now r _ _ Hd Hl).
  cbv zeta. eexists. split; [reflexivity |].
  cbn [log_score blocked]. split; [reflexivity |].
  split; [apply Z.leb_le |].
  split; [apply threshold_nonzero | apply threshold_zero].
Qed.

Lemma verdict_is_score_le_threshold_witness :
  reachesVerdict exampleStd exampleCaptcha cleanRequest = true /\
  exists call,
    audit (CheckRequest exampleStd exampleCaptcha exampleNow cleanRequest) = Some call /\
    log_score call =
      fst (scoreSignals exampleStd exampleCaptcha exampleNow cleanRequest
             (checkRate exampleCaptcha
                (rateTick exampleCaptcha (clientIP exampleStd cleanRequest) exampleNow)
                (0, []))) /\
    (blocked (CheckRequest exampleStd exampleCaptcha exampleNow cleanRequest) = true
     <-> log_score call <= threshold exampleCaptcha) /\
    (BlockThreshold (cfg exampleCaptcha) <> 0 ->
     threshold exampleCaptcha = BlockThreshold (cfg exampleCaptcha)) /\
    (BlockThreshold (cfg exampleCaptcha) = 0 -> threshold exampleCaptcha = -5).
Proof.
  split; [vm_compute; reflexivity |].
  apply (verdict_is_score_le_threshold exampleStd exampleCaptcha exampleNow cleanRequest).
  vm_compute; reflexivity.
Defined.

(** ** The bypass evaluator *)

Lemma skipPathMatch_In (p pref : string) (prefs : list string) :
  In pref prefs -> pref <> "" -> strings_HasPrefix p pref = true ->
  skipPathMatch p prefs = true.
Proof.
  intros Hin Hne Hp. induction prefs as [| q rest IH]; [destruct Hin |].
  simpl. destruct (isEmpty q) eqn:Eq.
  - destruct Hin as [-> | Hin]; [| auto].
    apply isEmpty_true in Eq. contradiction.
  - destruct (strings_HasPrefix p q) eqn:Ep; [reflexivity |].
    destruct Hin as [-> | Hin]; [congruence | auto].
Qed.

Lemma shouldBypass_no_predicate (G : GoStdlib) (c : Captcha) (r : Request) :
  SkipIf (cfg c) = None -> shouldBypass G c r = bypassRules G c r.
Proof. intros H. unfold shouldBypass. rewrite H. reflexivity. Qed.

Lemma shouldBypass_predicate_false (G : GoStdlib) (c : Captcha) (r : Request)
      (f : Request -> Outcome bool) :
  SkipIf (cfg c) = Some f -> f r = Returns false ->
  shouldBypass G c r = bypassRules G c r.
Proof. intros H Hf. unfold shouldBypass. rewrite H, Hf. reflexivity. Qed.

Lemma shouldBypass_predicate_true (G : GoStdlib) (c : Captcha) (r : Request)
      (f : Request -> Outcome bool) :
  SkipIf (cfg c) = Some f -> f r = Returns true ->
  shouldBypass G c r = (true, "bypass:custom").
Proof. intros H Hf. unfold shouldBypass. rewrite H, Hf. reflexivity. Qed.

Lemma shouldBypass_predicate_panics (G : GoStdlib) (c : Captcha) (r : Request)
      (f : Request -> Outcome bool) :
  SkipIf (cfg c) = Some f -> f r = Panics ->
  shouldBypass G c r = (false, "").
Proof. intros H Hf. unfold shouldBypass. rewrite H, Hf. reflexivity. Qed.

Lemma CheckRequest_bypassed (G : GoStdlib) (c : Captcha) (now : Z) (r : Request)
      (why : string) :
  ParseFormErr r = false ->
  shouldBypass G c r = (true, why) ->
  CheckRequest G c now r =
  {| blocked := false;
     audit := Some {| log_ip := clientIP G r; log_ua := Header_Get r "User-Agent";
                      log_score := 0; log_reasons := [why] |};
     rateMapAfter := rateMap c |}.
Proof. intros Hp Hb. unfold CheckRequest. rewrite Hp, Hb. reflexivity. Qed.

(** C4, as the code has it: a panic inside the custom predicate is
    swallowed and [shouldBypass] answers "no bypass" at once, without
    the path-prefix and OAuth rules; request handling goes on with the
    scoring steps. *)
Theorem predicate_panic_is_no_bypass
        (G : GoStdlib) (c : Captcha) (now : Z) (r : Request)
        (f : Request -> Outcome bool) :
  SkipIf (cfg c) = Some f ->
  f r = Panics ->
  shouldBypass G c r = (false, "") /\
  (ParseFormErr r = false ->
   CheckRequest G c now r =
   scoreRequest G c now r (clientIP G r) (Header_Get r "User-Agent")).
Proof.
  intros H Hf.
  pose proof (shouldBypass_predicate_panics G c r f H Hf) as Hs.
  split; [exact Hs |].
  intros Hp. apply CheckRequest_scored; [exact Hp |]. rewrite Hs. reflexivity.
Qed.

Lemma predicate_panic_is_no_bypass_witness :
  shouldBypass exampleStd (authCaptcha (Some panickingPredicate)) authRequest = (false, "") /\
  (ParseFormErr authRequest = false ->
   CheckRequest exampleStd (authCaptcha (Some panickingPredicate)) exampleNow authRequest =
   scoreRequest exampleStd (authCaptcha (Some panickingPredicate)) exampleNow authRequest
                (clientIP exampleStd authRequest) (Header_Get authRequest "User-Agent")).
Proof.
  apply (predicate_panic_is_no_bypass exampleStd (authCaptcha (Some panickingPredicate))
           exampleNow authRequest panickingPredicate); reflexivity.
Defined.

(** C4, as stated, fails: under the skip path [/auth/] the path rule
    alone gives a bypass, yet with a panicking predicate [shouldBypass]
    gives none: the rules after the predicate are not evaluated. *)
Lemma panic_skips_later_rules :
  bypassRules exampleStd (authCaptcha (Some panickingPredicate)) authRequest
    = (true, "bypass:skip_path") /\
  shouldBypass exampleStd (authCaptcha None) authRequest = (true, "bypass:skip_path") /\
  shouldBypass exampleStd (authCaptcha (Some panickingPredicate)) authRequest = (false, "").
Proof. repeat split; vm_compute; reflexivity. Qed.

(** C5, as the code has it: when the form data parses and the custom
    predicate (if any) does not panic, a request whose path has a
    configured non-empty skip prefix is not blocked, whatever the decoy
    field holds; it is logged with score 0 and a bypass reason and the
    rate limiter is not touched. *)
Theorem skip_path_bypasses_before_honeypot
        (G : GoStdlib) (c : Captcha) (now : Z) (r : Request) (pref : string) :
  ParseFormErr r = false ->
  (forall f, SkipIf (cfg c) = Some f -> f r <> Panics) ->
  In pref (SkipPaths (cfg c)) ->
  pref <> "" ->
  strings_HasPrefix (URLPath r) pref = true ->
  blocked (CheckRequest G c now r) = false /\
  rateMapAfter (CheckRequest G c now r) = rateMap c /\
  exists why,
    (why = "bypass:custom" \/ why = "bypass:skip_path") /\
    audit (CheckRequest G c now r) =
    Some {| log_ip := clientIP G r; log_ua := Header_Get r "User-Agent";
            log_score := 0; log_reasons := [why] |}.
Proof.
  intros Hp Hnp Hin Hne Hpre.
  assert (Hrules : bypassRules G c r = (true, "bypass:skip_path")).
  { unfold bypassRules. rewrite (skipPathMatch_In _ _ _ Hin Hne Hpre). reflexivity. }
  assert (Hb : exists why, (why = "bypass:custom" \/ why = "bypass:skip_path") /\
                           shouldBypass G c r = (true, why)).
  { destruct (SkipIf (cfg c)) as [f |] eqn:Ef.
    - destruct (f r) as [[|] |] eqn:Er.
      + exists "bypass:custom". split; [auto |].
        apply (shouldBypass_predicate_true G c r f Ef Er).
      + exists "bypass:skip_path". split; [auto |].
        rewrite (shouldBypass_predicate_false G c r f Ef Er). exact Hrules.
      + exfalso. apply (Hnp f); [reflexivity | exact Er].
    - exists "bypass:skip_path". split; [auto |].
      rewrite (shouldBypass_no_predicate G c r Ef). exact Hrules. }
  destruct Hb as (why & Hwhy & Hs).
  rewrite (CheckRequest_bypassed G c now r why Hp Hs). cbn [blocked rateMapAfter audit].
  split; [reflexivity |]. split; [reflexivity |].
  exists why. split; [exact Hwhy | reflexivity].
Qed.

Lemma skip_path_bypasses_before_honeypot_witness :
  FormValue authRequest (fieldName (authCaptcha (Some decliningPredicate))) = "x" /\
  blocked (CheckRequest exampleStd (authCaptcha (Some decliningPredicate)) exampleNow
             authRequest) = false /\
  rateMapAfter (CheckRequest exampleStd (authCaptcha (Some decliningPredicate)) exampleNow
                  authRequest)
    = rateMap (authCaptcha (Some decliningPredicate)) /\
  exists why,
    (why = "bypass:custom" \/ why = "bypass:skip_path") /\
    audit (CheckRequest exampleStd (authCaptcha (Some decliningPredicate)) exampleNow
             authRequest) =
    Some {| log_ip := clientIP exampleStd authRequest;
            log_ua := Header_Get authRequest "User-Agent";
            log_score := 0; log_reasons := [why] |}.
Proof.
  split; [reflexivity |].
  apply (skip_path_bypasses_before_honeypot exampleStd
           (authCaptcha (Some decliningPredicate)) exampleNow authRequest "/auth/").
  - reflexivity.
  - intros f Hf. injection Hf as <-. discriminate.
  - left. reflexivity.
  - discriminate.
  - vm_compute. reflexivity.
Defined.

(** C5, as stated, fails twice: a request under the skip path whose form
    data is malformed is blocked before the bypass is looked at, and one
    whose custom predicate panics loses the bypass and is blocked by the
    honeypot. *)
Lemma skip_path_not_always_bypassed :
  strings_HasPrefix (URLPath malformedAuthRequest) "/auth/" = true /\
  SkipPaths (cfg (authCaptcha None)) = ["/auth/"] /\
  blocked (CheckRequest exampleStd (authCaptcha None) exampleNow malformedAuthRequest)
    = true /\
  strings_HasPrefix (URLPath authRequest) "/auth/" = true /\
  blocked (CheckRequest exampleStd (authCaptcha (Some panickingPredicate)) exampleNow
             authRequest) = true.
Proof. repeat split; vm_compute; reflexivity. Qed.

(** ** The honeypot *)

Lemma checkRate_cases (c : Captcha) (recent : list Z) :
  checkRate c recent (0, []) =
  if RateLimitMax (cfg c) <? Z.of_nat (length recent)
  then (-3, ["rate_limit_exceeded"]) else (0, []).
Proof. unfold checkRate, penalize. destruct (_ <? _); reflexivity. Qed.

(** C1, as the code has it: when the form data parses and the request
    is not bypassed, a decoy value that is not empty after trimming white
    space ends the evaluation: the request is blocked, the reason
    "hidden_field_filled" is appended to what the rate limiter left, and
    score and reasons carry nothing of the later checks. *)
Theorem honeypot_short_circuits
        (G : GoStdlib) (c : Captcha) (now : Z) (r : Request) :
  ParseFormErr r = false ->
  fst (shouldBypass G c r) = false ->
  strings_TrimSpace (FormValue r (fieldName c)) <> "" ->
  blocked (CheckRequest G c now r) = true /\
  exists score reasons,
    audit (CheckRequest G c now r) =
    Some {| log_ip := clientIP G r; log_ua := Header_Get r "User-Agent";
            log_score := score; log_reasons := reasons ++ ["hidden_field_filled"] |} /\
    (score, reasons) = checkRate c (rateTick c (clientIP G r) now) (0, []) /\
    ((score = 0 /\ reasons = []) \/ (score = -3 /\ reasons = ["rate_limit_exceeded"])).
Proof.
  intros Hp Hb Hd. apply isEmpty_false in Hd.
  rewrite (CheckRequest_scored G c now r Hp Hb).
  unfold scoreRequest. rewrite Hd. cbn [negb blocked audit].
  split; [reflexivity |].
  exists (fst (checkRate c (rateTick c (clientIP G r) now) (0, []))),
         (snd (checkRate c (rateTick c (clientIP G r) now) (0, []))).
  split; [reflexivity |]. split; [symmetry; apply surjective_pairing |].
  rewrite checkRate_cases. destruct (_ <? _); cbn [fst snd]; auto.
Qed.

Lemma honeypot_short_circuits_witness :
  blocked (CheckRequest exampleStd exampleCaptcha exampleNow decoyRequest) = true /\
  exists score reasons,
    audit (CheckRequest exampleStd exampleCaptcha exampleNow decoyRequest) =
    Some {| log_ip := clientIP exampleStd decoyRequest;
            log_ua := Header_Get decoyRequest "User-Agent";
            log_score := score; log_reasons := reasons ++ ["hidden_field_filled"] |} /\
    (score, reasons) =
      checkRate exampleCaptcha
                (rateTick exampleCaptcha (clientIP exampleStd decoyRequest) exampleNow)
                (0, []) /\
    ((score = 0 /\ reasons = []) \/ (score = -3 /\ reasons = ["rate_limit_exceeded"])).
Proof.
  apply (honeypot_short_circuits exampleStd exampleCaptcha exampleNow decoyRequest).
  - reflexivity.
  - vm_compute. reflexivity.
  - vm_compute. discriminate.
Defined.

(** C1, as stated, fails: a decoy field holding one space is not empty,
    yet the otherwise clean request is scored as usual and passes, with
    no reason recorded; and when the form data is malformed, a filled
    decoy field gets no reason either: nothing is handed to the log. *)
Lemma blank_decoy_not_blocked :
  FormValue blankDecoyRequest (fieldName exampleCaptcha) = " " /\
  fst (shouldBypass exampleStd exampleCaptcha blankDecoyRequest) = false /\
  blocked (CheckRequest exampleStd exampleCaptcha exampleNow blankDecoyRequest) = false /\
  audit (CheckRequest exampleStd exampleCaptcha exampleNow blankDecoyRequest) =
    Some {| log_ip := "203.0.113.7"; log_ua := firefoxUA; log_score := 0;
            log_reasons := [] |} /\
  FormValue malformedDecoyRequest (fieldName exampleCaptcha) = "http://spam.example" /\
  fst (shouldBypass exampleStd exampleCaptcha malformedDecoyRequest) = false /\
  audit (CheckRequest exampleStd exampleCaptcha exampleNow malformedDecoyRequest) = None.
Proof. repeat split; vm_compute; reflexivity. Qed.

(** ** The rate limiter *)

Lemma time_Sub_lt (now t ttl : Z) :
  ttl <= maxDuration -> (time_Sub now t <? ttl) = true -> now - t < ttl.
Proof.
  unfold time_Sub, maxDuration, minDuration. intros Hm H.
  apply Z.ltb_lt in H. lia.
Qed.

Lemma rateTick_app (c : Captcha) (ip : string) (now : Z) :
  rateTick c ip now =
  List.filter (fun t => time_Sub now t <? RateLimitTTL (cfg c))
              (default [] (rateMap c !! ip)) ++ [now].
Proof. reflexivity. Qed.

Lemma scoreRequest_rateMap (G : GoStdlib) (c : Captcha) (now : Z) (r : Request)
      (ip ua : string) :
  rateMapAfter (scoreRequest G c now r ip ua) = <[ip := rateTick c ip now]> (rateMap c).
Proof.
  unfold scoreRequest.
  destruct (negb (isEmpty _)); [reflexivity |].
  destruct (_ && _); reflexivity.
Qed.

(** C9, as the code has it: after the tick of a request that is not
    stopped earlier, the list stored for its origin is the kept entries
    followed by [now]; every kept entry [t] was stored before and has
    [now - window < t]; the length compared against the maximum counts
    the new entry.  The upper bound [t <= now] is not enforced by the
    tick: it holds when no stored entry is later than [now] (and [now]
    itself lies in the interval when the window is not negative). *)
Theorem rate_tick_window
        (G : GoStdlib) (c : Captcha) (now : Z) (r : Request) :
  ParseFormErr r = false ->
  fst (shouldBypass G c r) = false ->
  RateLimitTTL (cfg c) <= maxDuration ->
  exists kept,
    rateMapAfter (CheckRequest G c now r) !! clientIP G r = Some (kept ++ [now]) /\
    (forall t, In t kept ->
       In t (default [] (rateMap c !! clientIP G r)) /\ now - RateLimitTTL (cfg c) < t) /\
    checkRate c (kept ++ [now]) (0, []) =
      (if RateLimitMax (cfg c) <? Z.of_nat (length kept) + 1
       then (-3, ["rate_limit_exceeded"]) else (0, [])) /\
    (0 <= RateLimitTTL (cfg c) ->
     (forall t, In t (default [] (rateMap c !! clientIP G r)) -> t <= now) ->
     forall t, In t (kept ++ [now]) -> now - RateLimitTTL (cfg c) <= t <= now).
Proof.
  intros Hp Hb Httl.
  rewrite (CheckRequest_scored G c now r Hp Hb), scoreRequest_rateMap.
  rewrite lookup_insert_eq, rateTick_app.
  set (hits := default [] (rateMap c !! clientIP G r)).
  set (kept := List.filter _ hits).
  assert (Hk : forall t, In t kept -> In t hits /\ now - RateLimitTTL (cfg c) < t).
  { intros t Ht. apply filter_In in Ht as [Hin Hlt]. split; [exact Hin |].
    apply time_Sub_lt in Hlt; [lia | exact Httl]. }
  exists kept. split; [reflexivity |]. split; [exact Hk |]. split.
  - rewrite checkRate_cases, length_app. cbn [length].
    replace (Z.of_nat (length kept + 1)) with (Z.of_nat (length kept) + 1) by lia.
    reflexivity.
  - intros H0 Hle t Ht. apply in_app_or in Ht as [Ht | [<- | []]]; [| lia].
    destruct (Hk t Ht) as [Hin Hlo]. specialize (Hle t Hin). lia.
Qed.

Lemma rate_tick_window_witness :
  rateMap agingCaptcha !! clientIP exampleStd cleanRequest =
    Some [exampleNow - 61000000000; exampleNow - 5000000000] /\
  rateMapAfter (CheckRequest exampleStd agingCaptcha exampleNow cleanRequest)
    !! clientIP exampleStd cleanRequest = Some [exampleNow - 5000000000; exampleNow] /\
  exists kept,
    rateMapAfter (CheckRequest exampleStd agingCaptcha exampleNow cleanRequest)
      !! clientIP exampleStd cleanRequest = Some (kept ++ [exampleNow]) /\
    (forall t, In t kept ->
       In t (default [] (rateMap agingCaptcha !! clientIP exampleStd cleanRequest)) /\
       exampleNow - RateLimitTTL (cfg agingCaptcha) < t) /\
    checkRate agingCaptcha (kept ++ [exampleNow]) (0, []) =
      (if RateLimitMax (cfg agingCaptcha) <? Z.of_nat (length kept) + 1
       then (-3, ["rate_limit_exceeded"]) else (0, [])) /\
    (0 <= RateLimitTTL (cfg agingCaptcha) ->
     (forall t, In t (default [] (rateMap agingCaptcha !! clientIP exampleStd cleanRequest))
                -> t <= exampleNow) ->
     forall t, In t (kept ++ [exampleNow]) ->
               exampleNow - RateLimitTTL (cfg agingCaptcha) <= t <= exampleNow).
Proof.
  split; [vm_compute; reflexivity |]. split; [vm_compute; reflexivity |].
  apply (rate_tick_window exampleStd agingCaptcha exampleNow cleanRequest).
  - reflexivity.
  - vm_compute. reflexivity.
  - vm_compute. discriminate.
Defined.

(** C9, as stated, fails: [now] is read before the lock is taken, so a
    request can tick after one that read a later clock; the later
    timestamp is retained although it lies above [now]. *)
Lemma rate_window_entry_after_now :
  rateMap captchaAfterLater !! "203.0.113.7" = Some [laterNow] /\
  rateMapAfter (CheckRequest exampleStd captchaAfterLater exampleNow cleanRequest)
    !! "203.0.113.7" = Some [laterNow; exampleNow] /\
  exampleNow < laterNow.
Proof. repeat split; vm_compute; reflexivity. Qed.

(** ** The scoring steps *)

Lemma penalize_id (a : Acc) : penalize 0 [] a = a.
Proof.
  destruct a as [s rs]. unfold penalize. cbn [fst snd].
  rewrite Z.add_0_r, app_nil_r. reflexivity.
Qed.

Lemma penalize_penalize (d d' : Z) (w w' : list string) (a : Acc) :
  penalize d' w' (penalize d w a) = penalize (d + d') (w ++ w') a.
Proof.
  unfold penalize. cbn [fst snd]. rewrite Z.add_assoc, app_assoc. reflexivity.
Qed.

Lemma additive_id : additive (fun a => a).
Proof. exists 0, []. intros a. symmetry. apply penalize_id. Qed.

Lemma additive_penalize (d : Z) (w : list string) : additive (penalize d w).
Proof. exists d, w. reflexivity. Qed.

Lemma additive_if (b : bool) (f g : Acc -> Acc) :
  additive f -> additive g -> additive (fun a => if b then f a else g a).
Proof. intros Hf Hg. destruct b; assumption. Qed.

Lemma additive_compose (f g : Acc -> Acc) :
  additive f -> additive g -> additive (fun a => g (f a)).
Proof.
  intros (d & w & Hf) (d' & w' & Hg). exists (d + d'), (w ++ w').
  intros a. rewrite Hf, Hg. apply penalize_penalize.
Qed.

(** After an additive step, an earlier penalty still shows in full. *)
Lemma additive_after_penalty (f : Acc -> Acc) (d : Z) (w : list string) (a : Acc) :
  additive f ->
  fst (f (penalize d w a)) = fst (f a) + d /\
  length (snd (f (penalize d w a))) = (length (snd (f a)) + length w)%nat.
Proof.
  intros (d' & w' & Hf). rewrite !Hf. unfold penalize. cbn [fst snd].
  rewrite !length_app. split; lia.
Qed.

Lemma checkReferer_additive (r : Request) : additive (checkReferer r).
Proof.
  unfold checkReferer.
  apply (additive_if _ _ _ (additive_penalize _ _)).
  apply (additive_if _ _ _ (additive_penalize _ _)). apply additive_id.
Qed.

Lemma checkCookie_additive (r : Request) : additive (checkCookie r).
Proof.
  unfold checkCookie. destruct (Cookie (Cookies r) "js_captcha") as [v |].
  - apply (additive_if _ _ _ (additive_penalize _ _)). apply additive_id.
  - apply additive_penalize.
Qed.

Lemma checkContent_additive (G : GoStdlib) (c : Captcha) (r : Request) :
  additive (checkContent G c r).
Proof.
  unfold checkContent. destruct (analyzeFormContent G c r) as [delta extra].
  apply (additive_if _ (fun a => (fst a + delta, snd a ++ extra)) _).
  - exists delta, extra. reflexivity.
  - apply additive_id.
Qed.

Lemma checkHeaders_additive (G : GoStdlib) (r : Request) : additive (checkHeaders G r).
Proof.
  unfold checkHeaders.
  apply (additive_compose
           (fun a => if isEmpty (Header_Get r "Accept")
                        && isEmpty (Header_Get r "Accept-Language")
                     then penalize (-1) ["missing_accept_and_language"] a else a)
           (fun a => if strings_Contains
                          (strings_ToLower G (Header_Get r "User-Agent")) "chrome"
                        && isEmpty (Header_Get r "Sec-Fetch-Site")
                        && isEmpty (Header_Get r "Sec-Fetch-Mode")
                     then penalize (-1) ["missing_sec_fetch_headers"] a else a)).
  - apply (additive_if _ _ _ (additive_penalize _ _)). apply additive_id.
  - apply (additive_if _ _ _ (additive_penalize _ _)). apply additive_id.
Qed.

(** The steps that do not read the [User-Agent] header. *)
Lemma steps_same_but_user_agent (G : GoStdlib) (c : Captcha) (now : Z) (r r' : Request) :
  sameButUserAgent r r' ->
  checkTimestamp now r = checkTimestamp now r' /\
  checkToken r = checkToken r' /\
  checkBehaviorStep G r = checkBehaviorStep G r' /\
  checkReferer r = checkReferer r' /\
  checkCookie r = checkCookie r' /\
  checkContent G c r = checkContent G c r'.
Proof.
  intros (Hf & Hh & Hc & Hk).
  unfold checkTimestamp, checkToken, checkBehaviorStep, checkReferer, checkCookie,
    checkContent, analyzeFormContent, collectFields, classifyField, FormValue.
  rewrite Hf, Hh, Hc. rewrite (Hk "Referer") by discriminate.
  repeat split; reflexivity.
Qed.

Lemma checkHeaders_same_but_user_agent (G : GoStdlib) (r r' : Request) :
  sameButUserAgent r r' ->
  strings_Contains (strings_ToLower G (Header_Get r "User-Agent")) "chrome" = false ->
  strings_Contains (strings_ToLower G (Header_Get r' "User-Agent")) "chrome" = false ->
  checkHeaders G r = checkHeaders G r'.
Proof.
  intros (_ & _ & _ & Hk) H H'. unfold checkHeaders. rewrite H, H'.
  rewrite (Hk "Accept"), (Hk "Accept-Language") by discriminate. reflexivity.
Qed.

Lemma checkUA_empty (G : GoStdlib) (r : Request) (a : Acc) :
  Header_Get r "User-Agent" = "" ->
  checkUA G r a = penalize (-2) ["ua_suspicious"] a.
Proof. intros H. unfold checkUA. rewrite H. reflexivity. Qed.

Lemma checkHeadless_empty (r : Request) (a : Acc) :
  Header_Get r "User-Agent" = "" ->
  checkHeadless r a = penalize (-4) ["headless_or_scripted_ua"] a.
Proof. intros H. unfold checkHeadless. rewrite H. reflexivity. Qed.

Lemma existsb_scripted_false (ua : string) :
  existsb (strings_Contains ua) scriptedMarkers = false ->
  (strings_Contains ua "HeadlessChrome"
   || strings_Contains ua "PhantomJS"
   || strings_Contains ua "SlimerJS"
   || strings_Contains ua "Electron"
   || strings_Contains ua "Puppeteer"
   || false
   || strings_Contains ua "Go-http-client"
   || strings_Contains ua "curl"
   || strings_Contains ua "python-requests") = false.
Proof.
  unfold scriptedMarkers. cbn [existsb]. intros H.
  repeat (apply orb_false_iff in H; destruct H as [-> H]). reflexivity.
Qed.

Lemma uaBrowserLike_inv (G : GoStdlib) (r : Request) :
  uaBrowserLike G r = true ->
  isEmpty (Header_Get r "User-Agent") = false /\
  strings_Contains (strings_ToLower G (Header_Get r "User-Agent")) "mozilla" = true /\
  existsb (strings_Contains (Header_Get r "User-Agent")) scriptedMarkers = false.
Proof.
  unfold uaBrowserLike. cbv zeta. intros H.
  apply andb_prop in H as [H H3]. apply andb_prop in H as [H1 H2].
  apply negb_true_iff in H1. apply negb_true_iff in H3. auto.
Qed.

Lemma checkUA_browser (G : GoStdlib) (r : Request) (a : Acc) :
  uaBrowserLike G r = true -> checkUA G r a = a.
Proof.
  intros H. apply uaBrowserLike_inv in H as (H1 & H2 & _).
  unfold checkUA. rewrite H1, H2. reflexivity.
Qed.

Lemma checkHeadless_browser (G : GoStdlib) (r : Request) (a : Acc) :
  uaBrowserLike G r = true -> checkHeadless r a = a.
Proof.
  intros H. apply uaBrowserLike_inv in H as (H1 & _ & H3).
  apply existsb_scripted_false in H3.
  unfold checkHeadless. rewrite H1, H3. reflexivity.
Qed.

(** C10: with an empty [User-Agent] both user-agent checks fire: the
    browser-marker check takes 2 with reason "ua_suspicious", the
    headless check takes 4 with reason "headless_or_scripted_ua"; set
    against the same request sent with a browser-like user agent, the
    empty one costs exactly 6 points and two reasons. *)
Theorem empty_user_agent_costs_six
        (G : GoStdlib) (c : Captcha) (now : Z) (r : Request) :
  Header_Get r "User-Agent" = "" ->
  (forall a, checkUA G r a = penalize (-2) ["ua_suspicious"] a) /\
  (forall a, checkHeadless r a = penalize (-4) ["headless_or_scripted_ua"] a) /\
  (forall r' a,
     sameButUserAgent r r' ->
     uaBrowserLike G r' = true ->
     strings_Contains (strings_ToLower G (Header_Get r' "User-Agent")) "chrome" = false ->
     fst (scoreSignals G c now r a) = fst (scoreSignals G c now r' a) - 6 /\
     length (snd (scoreSignals G c now r a)) =
       (length (snd (scoreSignals G c now r' a)) + 2)%nat).
Proof.
  intros Hua.
  split; [intros a; apply checkUA_empty, Hua |].
  split; [intros a; apply checkHeadless_empty, Hua |].
  intros r' a Hsame Hbrowser Hchrome.
  assert (Hhd : checkHeaders G r = checkHeaders G r').
  { apply checkHeaders_same_but_user_agent; [exact Hsame | | exact Hchrome].
    rewrite Hua. reflexivity. }
  destruct (steps_same_but_user_agent G c now r r' Hsame)
    as (Hts & Htok & Hbeh & Href & Hck & Hcont).
  unfold scoreSignals.
  rewrite Hts, Htok, Hbeh, Href, Hck, Hcont, Hhd.
  rewrite (checkUA_empty G r _ Hua), (checkHeadless_empty r _ Hua).
  rewrite (checkUA_browser G r' _ Hbrowser), (checkHeadless_browser G r' _ Hbrowser).
  set (b := checkBehaviorStep G r' (checkToken r' (checkTimestamp now r' a))).
  pose (tail := fun x => checkContent G c r' (checkCookie r' (checkHeaders G r' x))).
  assert (Htail : additive tail).
  { unfold tail.
    apply (additive_compose (checkHeaders G r')
             (fun x => checkContent G c r' (checkCookie r' x))).
    - apply checkHeaders_additive.
    - apply (additive_compose (checkCookie r') (checkContent G c r')).
      + apply checkCookie_additive.
      + apply checkContent_additive. }
  assert (Hmid : additive (fun x => tail (checkReferer r' x))).
  { apply (additive_compose (checkReferer r') tail);
      [apply checkReferer_additive | exact Htail]. }
  change (fst (tail (penalize (-4) ["headless_or_scripted_ua"]
                       (checkReferer r' (penalize (-2) ["ua_suspicious"] b))))
          = fst (tail (checkReferer r' b)) - 6 /\
          length (snd (tail (penalize (-4) ["headless_or_scripted_ua"]
                               (checkReferer r' (penalize (-2) ["ua_suspicious"] b)))))
          = (length (snd (tail (checkReferer r' b))) + 2)%nat).
  destruct (additive_after_penalty tail (-4) ["headless_or_scripted_ua"]
              (checkReferer r' (penalize (-2) ["ua_suspicious"] b)) Htail) as [E1 L1].
  destruct (additive_after_penalty (fun x => tail (checkReferer r' x)) (-2)
              ["ua_suspicious"] b Hmid) as [E2 L2].
  cbv beta in E2, L2. rewrite E1, L1, E2, L2. cbn [length]. split; lia.
Qed.

Lemma empty_user_agent_costs_six_witness :
  (forall a, checkUA exampleStd noUARequest a = penalize (-2) ["ua_suspicious"] a) /\
  (forall a, checkHeadless noUARequest a = penalize (-4) ["headless_or_scripted_ua"] a) /\
  (forall r' a,
     sameButUserAgent noUARequest r' ->
     uaBrowserLike exampleStd r' = true ->
     strings_Contains (strings_ToLower exampleStd (Header_Get r' "User-Agent")) "chrome"
       = false ->
     fst (scoreSignals exampleStd exampleCaptcha exampleNow noUARequest a) =
       fst (scoreSignals exampleStd exampleCaptcha exampleNow r' a) - 6 /\
     length (snd (scoreSignals exampleStd exampleCaptcha exampleNow noUARequest a)) =
       (length (snd (scoreSignals exampleStd exampleCaptcha exampleNow r' a)) + 2)%nat).
Proof.
  apply (empty_user_agent_costs_six exampleStd exampleCaptcha exampleNow noUARequest).
  reflexivity.
Defined.

(** The comparison of C10 on the example: the clean submission scores 0,
    the one without user agent -6, with the two reasons. *)
Example empty_user_agent_example :
  sameButUserAgent noUARequest cleanRequest /\
  audit (CheckRequest exampleStd exampleCaptcha exampleNow noUARequest) =
  Some {| log_ip := "203.0.113.7"; log_ua := ""; log_score := -6;
          log_reasons := ["ua_suspicious"; "headless_or_scripted_ua"] |}.
Proof.
  split; [| vm_compute; reflexivity].
  repeat split. intros k Hk. unfold Header_Get, noUARequest, cleanRequest, exampleRequest.
  cbn [Header valuesGet]. destruct (String.eqb_spec "User-Agent" k) as [E | E];
    [congruence | reflexivity].
Qed.

(** ** A request with no adverse finding *)

Lemma checkRate_within (G : GoStdlib) (c : Captcha) (now : Z) (r : Request) (a : Acc) :
  rateWithinLimit G c now r = true ->
  checkRate c (rateTick c (clientIP G r) now) a = a.
Proof.
  unfold rateWithinLimit, checkRate. intros H. apply Z.leb_le in H.
  destruct (Z.ltb_spec (RateLimitMax (cfg c))
              (Z.of_nat (length (rateTick c (clientIP G r) now)))); [lia | reflexivity].
Qed.

Lemma checkTimestamp_fresh (now : Z) (r : Request) (a : Acc) :
  timestampFresh now r = true -> checkTimestamp now r a = a.
Proof.
  unfold timestampFresh, checkTimestamp. intros H. apply andb_prop in H as [H1 H2].
  rewrite H1. destruct (strconv_ParseInt (FormValue r "ts")) as [ts |]; [| discriminate].
  apply Z.leb_le in H2.
  destruct (Z.ltb_spec (wrap64 (time_UnixMilli now - ts)) 1500); [lia | reflexivity].
Qed.

Lemma checkToken_correct (r : Request) (a : Acc) :
  tokenCorrect r = true -> checkToken r a = a.
Proof. unfold tokenCorrect, checkToken. intros ->. reflexivity. Qed.

Lemma checkBehaviorStep_valid (G : GoStdlib) (r : Request) (a : Acc) :
  behaviorValid G r = true -> checkBehaviorStep G r a = a.
Proof.
  unfold behaviorValid, checkBehaviorStep.
  destruct (checkBehavior G (FormValue r "behavior_data")) as [ok why].
  cbn [fst]. intros ->. reflexivity.
Qed.

Lemma headers_expected (G : GoStdlib) (r : Request) (a : Acc) :
  headersExpected G r = true ->
  checkReferer r a = a /\ checkHeaders G r a = a.
Proof.
  unfold headersExpected. cbv zeta. intros H.
  apply andb_prop in H as [H H4]. apply andb_prop in H as [H H3].
  apply andb_prop in H as [H1 H2].
  apply negb_true_iff in H1. apply negb_true_iff in H3. apply negb_true_iff in H4.
  split.
  - unfold checkReferer. rewrite H1.
    destruct (isEmpty (Host r)); [reflexivity |].
    cbn [orb] in H2. rewrite H2. reflexivity.
  - unfold checkHeaders. rewrite H3, H4. reflexivity.
Qed.

Lemma checkCookie_expected (r : Request) (a : Acc) :
  cookieExpected r = true -> checkCookie r a = a.
Proof.
  unfold cookieExpected, checkCookie.
  destruct (Cookie (Cookies r) "js_captcha") as [v |]; [| discriminate].
  intros ->. reflexivity.
Qed.

Lemma checkContent_clean (G : GoStdlib) (c : Captcha) (r : Request) (a : Acc) :
  contentClean G c r = true -> checkContent G c r a = a.
Proof.
  unfold contentClean, checkContent.
  destruct (analyzeFormContent G c r) as [delta extra]. cbn [fst].
  intros ->. reflexivity.
Qed.

(** C3, as the code has it: a request whose form data parses, that the
    Latin-only stop lets through, and that has no adverse finding has
    score 0 and is not blocked, for any configured threshold that is at
    most 0; when it went through the scoring steps its reason list is
    empty. *)
Theorem clean_request_scores_zero
        (G : GoStdlib) (c : Captcha) (now : Z) (r : Request) :
  noAdverseFindings G c now r = true ->
  BlockThreshold (cfg c) <= 0 ->
  blocked (CheckRequest G c now r) = false /\
  exists call,
    audit (CheckRequest G c now r) = Some call /\
    log_score call = 0 /\
    (fst (shouldBypass G c r) = false -> log_reasons call = []).
Proof.
  unfold noAdverseFindings. intros H Hth.
  repeat (let Hx := fresh "Hx" in apply andb_prop in H as [H Hx]).
  apply negb_true_iff in H.
  destruct (shouldBypass G c r) as [[|] why] eqn:Eb.
  - rewrite (CheckRequest_bypassed G c now r why H Eb). cbn [blocked audit].
    split; [reflexivity |]. eexists. split; [reflexivity |].
    cbn [log_score fst]. split; [reflexivity | discriminate].
  - assert (Hb : fst (shouldBypass G c r) = false) by (rewrite Eb; reflexivity).
    rewrite (CheckRequest_scored G c now r H Hb).
    rewrite scoreRequest_verdict by assumption. cbv zeta.
    rewrite checkRate_within by assumption.
    unfold scoreSignals.
    rewrite (checkTimestamp_fresh now r) by assumption.
    rewrite (checkToken_correct r) by assumption.
    rewrite (checkBehaviorStep_valid G r) by assumption.
    rewrite (checkUA_browser G r) by assumption.
    match goal with Hh : headersExpected G r = true |- _ =>
      destruct (headers_expected G r (0, []) Hh) as [Href Hhd] end.
    rewrite Href, (checkHeadless_browser G r) by assumption.
    rewrite Hhd, (checkCookie_expected r) by assumption.
    rewrite (checkContent_clean G c r) by assumption.
    cbn [blocked audit fst snd]. split.
    + apply Z.leb_gt. unfold threshold.
      destruct (Z.eqb_spec (BlockThreshold (cfg c)) 0); lia.
    + eexists. split; [reflexivity |]. cbn [log_score log_reasons]. auto.
Qed.

Lemma clean_request_scores_zero_witness :
  noAdverseFindings exampleStd exampleCaptcha exampleNow cleanRequest = true /\
  blocked (CheckRequest exampleStd exampleCaptcha exampleNow cleanRequest) = false /\
  exists call,
    audit (CheckRequest exampleStd exampleCaptcha exampleNow cleanRequest) = Some call /\
    log_score call = 0 /\
    (fst (shouldBypass exampleStd exampleCaptcha cleanRequest) = false ->
     log_reasons call = []).
Proof.
  split; [vm_compute; reflexivity |].
  apply (clean_request_scores_zero exampleStd exampleCaptcha exampleNow cleanRequest).
  - vm_compute. reflexivity.
  - vm_compute. discriminate.
Defined.

(** C3, as stated, fails: the findings it lists do not cover the two
    stops that come before the scoring.  A submission with every listed
    signal in order is blocked with score 0 when its message is Greek
    and [latin_only] is on; and the clean submission is blocked, with no
    score at all, when its form data does not parse. *)
Lemma listed_findings_do_not_cover_the_stops :
  (decoyEmpty storageCaptcha greekRequest = true /\
   timestampFresh exampleNow greekRequest = true /\
   tokenCorrect greekRequest = true /\
   behaviorValid greekStd greekRequest = true /\
   uaBrowserLike greekStd greekRequest = true /\
   cookieExpected greekRequest = true /\
   headersExpected greekStd greekRequest = true /\
   rateWithinLimit greekStd storageCaptcha exampleNow greekRequest = true /\
   contentClean greekStd storageCaptcha greekRequest = true /\
   BlockThreshold (cfg storageCaptcha) <= 0 /\
   blocked (CheckRequest greekStd storageCaptcha exampleNow greekRequest) = true /\
   audit (CheckRequest greekStd storageCaptcha exampleNow greekRequest) =
     Some {| log_ip := "203.0.113.7"; log_ua := firefoxUA;
             log_score := 0; log_reasons := ["non_latin_detected"] |}) /\
  (decoyEmpty exampleCaptcha malformedCleanRequest = true /\
   timestampFresh exampleNow malformedCleanRequest = true /\
   tokenCorrect malformedCleanRequest = true /\
   behaviorValid exampleStd malformedCleanRequest = true /\
   uaBrowserLike exampleStd malformedCleanRequest = true /\
   cookieExpected malformedCleanRequest = true /\
   headersExpected exampleStd malformedCleanRequest = true /\
   rateWithinLimit exampleStd exampleCaptcha exampleNow malformedCleanRequest = true /\
   contentClean exampleStd exampleCaptcha malformedCleanRequest = true /\
   BlockThreshold (cfg exampleCaptcha) <= 0 /\
   blocked (CheckRequest exampleStd exampleCaptcha exampleNow malformedCleanRequest) = true /\
   audit (CheckRequest exampleStd exampleCaptcha exampleNow malformedCleanRequest) = None).
Proof. repeat split; vm_compute; (reflexivity || discriminate). Qed.

(** ** The content analyzer: links *)


(** The whole analyzer on a message with three links and nothing else
    of note. *)
Example three_links_cost_four :
  analyzeFormContent exampleStd exampleCaptcha
    (exampleRequest false "/contact" "" firefoxUA threeLinkMessage)
  = (-4, ["links_in_message:3"]).
Proof. vm_compute. reflexivity. Qed.

(** ** The behavior validator *)

Lemma eventOfJs_position (e : JsEvent) :
  (X (eventOfJs e), Y (eventOfJs e)) = positionOrOrigin e.
Proof. destruct e; reflexivity. Qed.

Lemma movement_pathLength (js : list JsEvent) :
  forall (prev : JsEvent) (acc : float) (ds : list float),
    fst (movement (eventOfJs prev) (map eventOfJs js) acc ds) =
    pathLength (positionOrOrigin prev) (map positionOrOrigin js) acc.
Proof.
  induction js as [| e t IH]; intros prev acc ds; [reflexivity |].
  cbn [map movement pathLength]. rewrite IH. unfold stepLength.
  rewrite <- !eventOfJs_position. reflexivity.
Qed.

(** C6, as the code has it: the cumulative distance runs over every
    pair of consecutive events of the decoded trace, and an event
    without positional data stands at the origin (0,0): a key press or a
    click next to a pointer position contributes the distance between
    that position and the origin. *)
Theorem movement_places_keys_at_origin (e0 : JsEvent) (js : list JsEvent) :
  fst (movement (eventOfJs e0) (map eventOfJs js) 0%float []) =
    pathLength (positionOrOrigin e0) (map positionOrOrigin js) 0%float /\
  (forall t, positionOrOrigin (JsKey t) = (0, 0)) /\
  (forall t, positionOrOrigin (JsClick t) = (0, 0)) /\
  (forall x y t, positionOrOrigin (JsMove x y t) = (x, y)).
Proof.
  split; [apply movement_pathLength |]. repeat split.
Qed.

(** C6, as stated, fails: for one pointer position (30,40) followed by
    key presses and a click, no two consecutive events carry a position,
    so the distance of the specification is 0 on either reading; the
    code counts the 50 units from (30,40) to the origin, and the trace
    passes the whole validator, the movement check included. *)
Lemma key_events_count_as_movement :
  option_map (json_UnmarshalEvents exampleStd) (base64_DecodeString exampleStd keysTrace)
    = Some (Some (map eventOfJs keysTraceEvents)) /\
  fst (movement (eventOfJs (JsMove 30 40 1700000001000))
         (map eventOfJs (tl keysTraceEvents)) 0%float []) = 50%float /\
  positionalDistance (JsMove 30 40 1700000001000) (tl keysTraceEvents) 0%float = 0%float /\
  movesOnlyDistance keysTraceEvents = 0%float /\
  checkBehavior exampleStd keysTrace = (true, "").
Proof. repeat split; vm_compute; reflexivity. Qed.



(** C7 at the boundary: a trace of five pointer moves whose duration is
    exactly 600 ms, which does not exceed 600, is not rejected as too
    short: it passes the validator. *)
Theorem duration_600_is_accepted :
  option_map (json_UnmarshalEvents exampleStd) (base64_DecodeString exampleStd trace600)
    = Some (Some trace600Events) /\
  monotonic 1700000001000 (tl trace600Events) = true /\
  1700000001600 - 1700000001000 = 600 /\
  checkEvents trace600Events = (true, "") /\
  checkBehavior exampleStd trace600 = (true, "").
Proof. repeat split; vm_compute; reflexivity. Qed.

(** * Further properties of the engine *)

(** ** Score and reasons move together *)

Lemma penalty_id (lo : Z) : lo <= 0 -> penalty lo (fun a => a).
Proof.
  intros H. exists 0, []. split; [intros a; symmetry; apply penalize_id |].
  repeat split; (lia || auto).
Qed.

Lemma penalty_penalize (lo d : Z) (w : list string) :
  lo <= d < 0 -> w <> [] -> penalty lo (penalize d w).
Proof.
  intros H Hw. exists d, w. split; [reflexivity |].
  repeat split; (lia || auto).
Qed.

Lemma penalty_if (lo : Z) (b : bool) (f g : Acc -> Acc) :
  penalty lo f -> penalty lo g -> penalty lo (fun a => if b then f a else g a).
Proof. intros Hf Hg. destruct b; assumption. Qed.

Lemma penalty_compose (lo lo' : Z) (f g : Acc -> Acc) :
  penalty lo f -> penalty lo' g -> penalty (lo + lo') (fun a => g (f a)).
Proof.
  intros (d & w & Hf & Hd & Hz & Hn) (d' & w' & Hg & Hd' & Hz' & Hn').
  exists (d + d'), (w ++ w'). split.
  - intros a. rewrite Hf, Hg. apply penalize_penalize.
  - split; [lia |]. split.
    + intros H0. rewrite Hz, Hz' by lia. reflexivity.
    + intros Hlt E. apply app_eq_nil in E as [-> ->].
      destruct (Z.eq_dec d 0) as [E0 | E0].
      * apply Hn'; [lia | reflexivity].
      * apply Hn; [lia | reflexivity].
Qed.

Lemma penalty_at_zero (lo : Z) (f : Acc -> Acc) :
  penalty lo f ->
  lo <= fst (f (0, [])) <= 0 /\
  (fst (f (0, [])) = 0 -> snd (f (0, [])) = []) /\
  (fst (f (0, [])) < 0 -> snd (f (0, [])) <> []).
Proof.
  intros (d & w & Hf & Hd & Hz & Hn). rewrite Hf. unfold penalize. cbn [fst snd app].
  rewrite Z.add_0_l. auto.
Qed.

Lemma one_reason_not_nil (s : string) : [s] <> [].
Proof. discriminate. Qed.

Lemma checkRate_penalty (c : Captcha) (recent : list Z) : penalty (-3) (checkRate c recent).
Proof.
  unfold checkRate. apply penalty_if.
  - apply penalty_penalize; [lia | apply one_reason_not_nil].
  - apply penalty_id; lia.
Qed.

Lemma checkTimestamp_penalty (now : Z) (r : Request) : penalty (-3) (checkTimestamp now r).
Proof.
  unfold checkTimestamp.
  assert (Hp : forall w, penalty (-3) (penalize (-3) [w])).
  { intros w. apply penalty_penalize; [lia | apply one_reason_not_nil]. }
  destruct (negb (isEmpty (FormValue r "ts"))); [| apply Hp].
  destruct (strconv_ParseInt (FormValue r "ts")) as [ts |]; [| apply Hp].
  apply penalty_if; [apply Hp | apply penalty_id; lia].
Qed.

Lemma checkToken_penalty (r : Request) : penalty (-2) (checkToken r).
Proof.
  unfold checkToken. apply penalty_if.
  - apply penalty_penalize; [lia | apply one_reason_not_nil].
  - apply penalty_id; lia.
Qed.

Lemma checkBehaviorStep_penalty (G : GoStdlib) (r : Request) :
  penalty (-3) (checkBehaviorStep G r).
Proof.
  unfold checkBehaviorStep.
  destruct (checkBehavior G (FormValue r "behavior_data")) as [ok why].
  destruct ok; cbn [negb]; [apply penalty_id; lia |].
  apply penalty_if; apply penalty_penalize; (lia || apply one_reason_not_nil).
Qed.

Lemma checkUA_penalty (G : GoStdlib) (r : Request) : penalty (-2) (checkUA G r).
Proof.
  unfold checkUA. apply penalty_if.
  - apply penalty_penalize; [lia | apply one_reason_not_nil].
  - apply penalty_id; lia.
Qed.

Lemma checkReferer_penalty (r : Request) : penalty (-1) (checkReferer r).
Proof.
  unfold checkReferer.
  assert (Hp : forall w, penalty (-1) (penalize (-1) [w])).
  { intros w. apply penalty_penalize; [lia | apply one_reason_not_nil]. }
  apply (penalty_if _ _ _ _ (Hp _)).
  apply (penalty_if _ _ _ _ (Hp _)). apply penalty_id; lia.
Qed.

Lemma checkHeadless_penalty (r : Request) : penalty (-4) (checkHeadless r).
Proof.
  unfold checkHeadless. apply penalty_if.
  - apply penalty_penalize; [lia | apply one_reason_not_nil].
  - apply penalty_id; lia.
Qed.

Lemma checkHeaders_penalty (G : GoStdlib) (r : Request) : penalty (-2) (checkHeaders G r).
Proof.
  unfold checkHeaders.
  assert (Hp : forall w, penalty (-1) (penalize (-1) [w])).
  { intros w. apply penalty_penalize; [lia | apply one_reason_not_nil]. }
  apply (penalty_compose (-1) (-1)
           (fun a => if isEmpty (Header_Get r "Accept")
                        && isEmpty (Header_Get r "Accept-Language")
                     then penalize (-1) ["missing_accept_and_language"] a else a)
           (fun a => if strings_Contains
                          (strings_ToLower G (Header_Get r "User-Agent")) "chrome"
                        && isEmpty (Header_Get r "Sec-Fetch-Site")
                        && isEmpty (Header_Get r "Sec-Fetch-Mode")
                     then penalize (-1) ["missing_sec_fetch_headers"] a else a)).
  - apply (penalty_if _ _ _ _ (Hp _)). apply penalty_id; lia.
  - apply (penalty_if _ _ _ _ (Hp _)). apply penalty_id; lia.
Qed.

Lemma checkCookie_penalty (r : Request) : penalty (-3) (checkCookie r).
Proof.
  unfold checkCookie. destruct (Cookie (Cookies r) "js_captcha") as [v |].
  - apply penalty_if.
    + apply penalty_penalize; [lia | apply one_reason_not_nil].
    + apply penalty_id; lia.
  - apply penalty_penalize; [lia | apply one_reason_not_nil].
Qed.

Lemma contentLinks_penalty (links : list string) : penalty (-4) (contentLinks links).
Proof.
  unfold contentLinks. cbv zeta.
  destruct (Z.ltb_spec 0 (Z.of_nat (length links))) as [Hn | Hn].
  - apply penalty_penalize; [unfold linkPenalty; lia | apply one_reason_not_nil].
  - apply penalty_id; lia.
Qed.

Lemma contentKeywords_penalty (G : GoStdlib) (c : Captcha) (msg : string) :
  penalty (-3) (contentKeywords G c msg).
Proof.
  unfold contentKeywords.
  destruct (getSpamKeywords c) as [| kw kws]; [apply penalty_id; lia |].
  destruct (List.filter _ _) as [| p ps]; [apply penalty_id; lia |].
  apply penalty_if.
  - apply penalty_penalize; [lia | apply one_reason_not_nil].
  - apply penalty_id; lia.
Qed.

Lemma contentEmoji_penalty (G : GoStdlib) (msg : string) :
  penalty (-2) (contentEmoji G msg).
Proof.
  unfold contentEmoji. cbv zeta.
  destruct (Z.leb_spec 5 (emojiCount G msg)) as [H5 | H5];
    destruct (Z.leb_spec 12 (emojiCount G msg)) as [H12 | H12]; try lia.
  - exists (-2), ["emoji_overuse:" +:+ strconv_Itoa (emojiCount G msg)].
    split; [intros a; apply penalize_penalize |].
    repeat split; (lia || discriminate).
  - apply penalty_penalize; [lia | apply one_reason_not_nil].
  - apply penalty_id; lia.
Qed.

Lemma contentPunct_penalty (msg : string) : penalty (-1) (contentPunct msg).
Proof.
  unfold contentPunct. apply penalty_if.
  - apply penalty_penalize; [lia | apply one_reason_not_nil].
  - apply penalty_id; lia.
Qed.

Lemma contentName_penalty (name : string) : penalty (-2) (contentName name).
Proof.
  unfold contentName. apply penalty_if.
  - apply penalty_penalize; [lia | apply one_reason_not_nil].
  - apply penalty_id; lia.
Qed.

Lemma contentWebsite_penalty (website : string) : penalty (-1) (contentWebsite website).
Proof.
  unfold contentWebsite. apply penalty_if.
  - apply penalty_penalize; [lia | apply one_reason_not_nil].
  - apply penalty_id; lia.
Qed.

Lemma contentEmail_penalty (email : string) : penalty (-1) (contentEmail email).
Proof.
  unfold contentEmail. apply penalty_if.
  - apply penalty_penalize; [lia | apply one_reason_not_nil].
  - apply penalty_id; lia.
Qed.

Lemma contentShort_penalty (msg : string) (links : list string) :
  penalty (-1) (contentShort msg links).
Proof.
  unfold contentShort. apply penalty_if.
  - apply penalty_penalize; [lia | apply one_reason_not_nil].
  - apply penalty_id; lia.
Qed.

(** The eight checks of [analyzeFormContent], as one step. *)
Lemma contentChecks_penalty (G : GoStdlib) (c : Captcha)
      (msg name email website : string) (links : list string) :
  penalty (-15)
    (fun a => contentShort msg links
                (contentEmail email
                  (contentWebsite website
                    (contentName name
                      (contentPunct msg
                        (contentEmoji G msg
                          (contentKeywords G c msg
                            (contentLinks links a)))))))).
Proof.
  apply (penalty_compose (-14) (-1) _ (contentShort msg links));
    [| apply contentShort_penalty].
  apply (penalty_compose (-13) (-1) _ (contentEmail email));
    [| apply contentEmail_penalty].
  apply (penalty_compose (-12) (-1) _ (contentWebsite website));
    [| apply contentWebsite_penalty].
  apply (penalty_compose (-10) (-2) _ (contentName name));
    [| apply contentName_penalty].
  apply (penalty_compose (-9) (-1) _ (contentPunct msg));
    [| apply contentPunct_penalty].
  apply (penalty_compose (-7) (-2) _ (contentEmoji G msg));
    [| apply contentEmoji_penalty].
  apply (penalty_compose (-4) (-3) (contentLinks links) (contentKeywords G c msg));
    [apply contentLinks_penalty | apply contentKeywords_penalty].
Qed.






Lemma analyzeFormContent_bounds (G : GoStdlib) (c : Captcha) (r : Request) :
  -15 <= fst (analyzeFormContent G c r) <= 0 /\
  (fst (analyzeFormContent G c r) = 0 -> snd (analyzeFormContent G c r) = []) /\
  (fst (analyzeFormContent G c r) < 0 -> snd (analyzeFormContent G c r) <> []).
Proof.
  unfold analyzeFormContent. cbv zeta.
  apply (penalty_at_zero (-15) _ (contentChecks_penalty G c _ _ _ _ _)).
Qed.

Lemma checkContent_penalize (G : GoStdlib) (c : Captcha) (r : Request) (a : Acc) :
  checkContent G c r a =
  penalize (fst (analyzeFormContent G c r)) (snd (analyzeFormContent G c r)) a.
Proof.
  destruct (analyzeFormContent_bounds G c r) as (_ & Hz & _).
  unfold checkContent. destruct (analyzeFormContent G c r) as [delta extra].
  cbn [fst snd] in *. destruct (Z.eqb_spec delta 0) as [E | E]; cbn [negb].
  - rewrite E, (Hz E). symmetry. apply penalize_id.
  - reflexivity.
Qed.

Lemma checkContent_penalty (G : GoStdlib) (c : Captcha) (r : Request) :
  penalty (-15) (checkContent G c r).
Proof.
  destruct (analyzeFormContent_bounds G c r) as (Hb & Hz & Hn).
  exists (fst (analyzeFormContent G c r)), (snd (analyzeFormContent G c r)).
  split; [intros a; apply checkContent_penalize |]. auto.
Qed.

Lemma scoreSignals_penalty (G : GoStdlib) (c : Captcha) (now : Z) (r : Request) :
  penalty (-35) (scoreSignals G c now r).
Proof.
  unfold scoreSignals.
  apply (penalty_compose (-20) (-15) _ (checkContent G c r));
    [| apply checkContent_penalty].
  apply (penalty_compose (-17) (-3) _ (checkCookie r)); [| apply checkCookie_penalty].
  apply (penalty_compose (-15) (-2) _ (checkHeaders G r)); [| apply checkHeaders_penalty].
  apply (penalty_compose (-11) (-4) _ (checkHeadless r)); [| apply checkHeadless_penalty].
  apply (penalty_compose (-10) (-1) _ (checkReferer r)); [| apply checkReferer_penalty].
  apply (penalty_compose (-8) (-2) _ (checkUA G r)); [| apply checkUA_penalty].
  apply (penalty_compose (-5) (-3) _ (checkBehaviorStep G r));
    [| apply checkBehaviorStep_penalty].
  apply (penalty_compose (-3) (-2) (checkTimestamp now r) (checkToken r));
    [apply checkTimestamp_penalty | apply checkToken_penalty].
Qed.

(** Score and reasons after the rate limiter and the scoring steps. *)
Lemma scored_accumulator (G : GoStdlib) (c : Captcha) (now : Z) (r : Request)
      (recent : list Z) :
  let a := scoreSignals G c now r (checkRate c recent (0, [])) in
  -38 <= fst a <= 0 /\ (fst a = 0 -> snd a = []) /\ (fst a < 0 -> snd a <> []).
Proof.
  cbv zeta.
  apply (penalty_at_zero (-38) (fun a => scoreSignals G c now r (checkRate c recent a))).
  apply (penalty_compose (-3) (-35) (checkRate c recent) (scoreSignals G c now r));
    [apply checkRate_penalty | apply scoreSignals_penalty].
Qed.

Lemma rate_accumulator (c : Captcha) (recent : list Z) :
  -3 <= fst (checkRate c recent (0, [])) <= 0.
Proof. rewrite checkRate_cases. destruct (_ <? _); cbn [fst]; lia. Qed.

(** The three ways [scoreRequest] can end. *)
Lemma scoreRequest_cases (G : GoStdlib) (c : Captcha) (now : Z) (r : Request)
      (ip ua : string) :
  let a0 := checkRate c (rateTick c ip now) (0, []) in
  let a := scoreSignals G c now r a0 in
  (exists why,
     blocked (scoreRequest G c now r ip ua) = true /\
     audit (scoreRequest G c now r ip ua) =
       Some {| log_ip := ip; log_ua := ua; log_score := fst a0;
               log_reasons := snd a0 ++ [why] |}) \/
  (blocked (scoreRequest G c now r ip ua) = (fst a <=? threshold c) /\
   audit (scoreRequest G c now r ip ua) =
     Some {| log_ip := ip; log_ua := ua; log_score := fst a; log_reasons := snd a |}).
Proof.
  cbv zeta. unfold scoreRequest.
  destruct (negb (isEmpty _)); [left; eexists; split; reflexivity |].
  destruct (_ && _); [left; eexists; split; reflexivity |].
  right. split; reflexivity.
Qed.

(** The content analyzer never adds to the score, takes at most 15
    points, and returns no reason exactly when it takes nothing: the
    guard [delta != 0] of [CheckRequest] never drops a reason. *)
Theorem content_delta_and_reasons (G : GoStdlib) (c : Captcha) (r : Request) :
  -15 <= fst (analyzeFormContent G c r) <= 0 /\
  (fst (analyzeFormContent G c r) = 0 <-> snd (analyzeFormContent G c r) = []) /\
  (forall a, checkContent G c r a =
             (fst a + fst (analyzeFormContent G c r),
              snd a ++ snd (analyzeFormContent G c r))).
Proof.
  destruct (analyzeFormContent_bounds G c r) as (Hb & Hz & Hn).
  split; [exact Hb |]. split.
  - split; [exact Hz |]. intros E.
    destruct (Z.eq_dec (fst (analyzeFormContent G c r)) 0) as [E0 | E0]; [exact E0 |].
    exfalso. apply Hn; [lia | exact E].
  - intros a. apply checkContent_penalize.
Qed.

(** Whatever the request, the score handed to the log lies between -38
    and 0: the engine only ever subtracts, and the penalties are bounded. *)
Theorem logged_score_bounds (G : GoStdlib) (c : Captcha) (now : Z) (r : Request) :
  match audit (CheckRequest G c now r) with
  | Some call => -38 <= log_score call <= 0
  | None => ParseFormErr r = true
  end.
Proof.
  unfold CheckRequest. destruct (ParseFormErr r); [reflexivity |].
  destruct (shouldBypass G c r) as [[|] why]; cbn [audit log_score]; [lia |].
  destruct (scoreRequest_cases G c now r (clientIP G r) (Header_Get r "User-Agent"))
    as [(why' & _ & ->) | (_ & ->)]; cbn [log_score].
  - pose proof (rate_accumulator c (rateTick c (clientIP G r) now)). lia.
  - apply scored_accumulator.
Qed.

(** With a configured threshold above zero, every request that reaches
    the scoring steps is blocked, the clean ones included. *)
Theorem positive_threshold_blocks_every_scored_request
        (G : GoStdlib) (c : Captcha) (now : Z) (r : Request) :
  0 < BlockThreshold (cfg c) ->
  ParseFormErr r = false ->
  fst (shouldBypass G c r) = false ->
  blocked (CheckRequest G c now r) = true.
Proof.
  intros Hth Hp Hb. rewrite (CheckRequest_scored G c now r Hp Hb).
  destruct (scoreRequest_cases G c now r (clientIP G r) (Header_Get r "User-Agent"))
    as [(why & -> & _) | (-> & _)]; [reflexivity |].
  apply Z.leb_le. rewrite threshold_nonzero by lia.
  pose proof (scored_accumulator G c now r (rateTick c (clientIP G r) now)) as (H & _).
  lia.
Qed.

Lemma positive_threshold_blocks_every_scored_request_witness :
  noAdverseFindings exampleStd positiveThresholdCaptcha exampleNow cleanRequest = true /\
  blocked (CheckRequest exampleStd positiveThresholdCaptcha exampleNow cleanRequest) = true.
Proof.
  split; [vm_compute; reflexivity |].
  apply (positive_threshold_blocks_every_scored_request exampleStd positiveThresholdCaptcha
           exampleNow cleanRequest).
  - vm_compute. reflexivity.
  - reflexivity.
  - vm_compute. reflexivity.
Defined.

(** Under a configured threshold that is not positive, a request whose
    form data parses is never blocked without at least one reason in the
    log call. *)
Theorem blocked_request_has_a_reason
        (G : GoStdlib) (c : Captcha) (now : Z) (r : Request) :
  BlockThreshold (cfg c) <= 0 ->
  ParseFormErr r = false ->
  blocked (CheckRequest G c now r) = true ->
  exists call,
    audit (CheckRequest G c now r) = Some call /\ log_reasons call <> [].
Proof.
  intros Hth Hp. unfold CheckRequest. rewrite Hp.
  destruct (shouldBypass G c r) as [[|] why]; cbn [blocked]; [discriminate |].
  destruct (scoreRequest_cases G c now r (clientIP G r) (Header_Get r "User-Agent"))
    as [(why' & _ & ->) | (-> & ->)]; intros Hb.
  - eexists. split; [reflexivity |]. cbn [log_reasons].
    intros E. apply app_eq_nil in E as [_ E]. discriminate E.
  - eexists. split; [reflexivity |]. cbn [log_reasons].
    apply Z.leb_le in Hb.
    pose proof (scored_accumulator G c now r (rateTick c (clientIP G r) now))
      as (_ & _ & Hn).
    apply Hn. unfold threshold in Hb.
    destruct (Z.eqb_spec (BlockThreshold (cfg c)) 0); lia.
Qed.

Lemma blocked_request_has_a_reason_witness :
  exists call,
    audit (CheckRequest exampleStd exampleCaptcha exampleNow noUARequest) = Some call /\
    log_reasons call <> [].
Proof.
  apply (blocked_request_has_a_reason exampleStd exampleCaptcha exampleNow noUARequest).
  - vm_compute. discriminate.
  - reflexivity.
  - vm_compute. reflexivity.
Defined.

(** ** Repeated punctuation *)

Lemma hasPunctRun_short (rs : list Z) : (length rs < 5)%nat -> ~ hasPunctRun rs.
Proof.
  intros Hl (pre & p & post & E & _). apply (f_equal (@length Z)) in E.
  rewrite !length_app, repeat_length in E. lia.
Qed.

Lemma hasPunctRun_cons (x : Z) (l : list Z) :
  hasPunctRun (x :: l) <->
  (exists post, x :: l = repeat x 5 ++ post /\ isSpecialPunct x = true) \/ hasPunctRun l.
Proof.
  split.
  - intros (pre & p & post & E & Hp). destruct pre as [| y pre].
    + left. cbn in E. injection E as -> El. exists post. cbn. rewrite El. auto.
    + right. cbn in E. injection E as _ El. exists pre, p, post. auto.
  - intros [(post & E & Hp) | (pre & p & post & E & Hp)].
    + exists [], x, post. auto.
    + exists (x :: pre), p, post. rewrite E. auto.
Qed.

(** A run cannot start inside at most four copies of [p] followed by a
    rune that does not continue them. *)
Lemma hasPunctRun_skip (n : nat) (p r : Z) (t : list Z) :
  (n <= 4)%nat ->
  ~ (r = p /\ isSpecialPunct r = true) ->
  hasPunctRun (repeat p n ++ r :: t) <-> hasPunctRun (r :: t).
Proof.
  intros Hn Hr. induction n as [| n IH]; [reflexivity |].
  cbn [repeat app]. rewrite hasPunctRun_cons, IH by lia.
  split; [| auto]. intros [(post & E & Hp) | H]; [| exact H].
  exfalso. apply Hr.
  destruct n as [| [| [| [| n]]]]; cbn in E; try lia;
    injection E as E; subst; auto.
Qed.

Lemma hasRepeatedPunct_loop_run (rs : list Z) :
  forall (p : Z) (n : nat),
    (1 <= n <= 4)%nat ->
    hasRepeatedPunct_loop (Some p) (Z.of_nat n - 1) rs = true <->
    hasPunctRun (repeat p n ++ rs).
Proof.
  induction rs as [| r t IH]; intros p n Hn.
  - cbn [hasRepeatedPunct_loop]. split; [discriminate |].
    intros H. exfalso. revert H. apply hasPunctRun_short.
    rewrite length_app, repeat_length. cbn. lia.
  - cbn [hasRepeatedPunct_loop].
    destruct ((r =? p) && isSpecialPunct r) eqn:Ec.
    + apply andb_prop in Ec as [Er Hp]. apply Z.eqb_eq in Er. subst r.
      assert (Happ : repeat p n ++ p :: t = repeat p (S n) ++ t).
      { cbn [repeat]. rewrite repeat_cons, <- app_assoc. reflexivity. }
      rewrite Happ.
      destruct (Z.leb_spec 4 (Z.of_nat n - 1 + 1)) as [H4 | H4].
      * split; [| reflexivity]. intros _.
        assert (n = 4%nat) by lia. subst n. exists [], p, t. auto.
      * replace (Z.of_nat n - 1 + 1) with (Z.of_nat (S n) - 1) by lia.
        apply IH. lia.
    + rewrite (IH r 1%nat) by lia. cbn [repeat app]. symmetry.
      apply hasPunctRun_skip; [lia |].
      intros [-> Hp]. rewrite Z.eqb_refl, Hp in Ec. discriminate.
Qed.

(** [hasRepeatedPunct] answers true exactly when the string holds, in a
    row, five copies of one character of the set [!?*&_-] (read rune by
    rune). *)
Theorem hasRepeatedPunct_iff_run_of_five (s : string) :
  hasRepeatedPunct s = true <-> hasPunctRun (runes s).
Proof.
  unfold hasRepeatedPunct. destruct (runes s) as [| r t].
  - cbn. split; [discriminate |]. intros H. exfalso. revert H.
    apply hasPunctRun_short. cbn. lia.
  - cbn [hasRepeatedPunct_loop andb].
    apply (hasRepeatedPunct_loop_run t r 1%nat). lia.
Qed.

Example hasRepeatedPunct_examples :
  hasRepeatedPunct "Buy now!!!!!" = true /\
  hasRepeatedPunct "Buy now!!!!" = false /\
  hasRepeatedPunct "wait.....ok" = false /\
  hasRepeatedPunct "a--?--b" = false.
Proof. repeat split; vm_compute; reflexivity. Qed.

(** ** The behavior validator, branch by branch *)

Lemma checkEvents_outcome (events : list Event) :
  checkEvents events = (true, "") \/
  exists w, In w behaviorTags /\ checkEvents events = (false, w).
Proof.
  unfold checkEvents, behaviorTags. destruct events as [| e0 rest].
  - right. eexists. split; [| reflexivity]. cbn. tauto.
  - destruct (negb (monotonic (T e0) rest)).
    { right. eexists. split; [| reflexivity]. cbn. tauto. }
    destruct (_ <? 600).
    { right. eexists. split; [| reflexivity]. cbn. tauto. }
    destruct (movement e0 rest 0%float []) as [totalDist deltas].
    destruct (totalDist <? 40)%float.
    { right. eexists. split; [| reflexivity]. cbn. tauto. }
    destruct (fold_left _ deltas _) as [sum sumsq].
    destruct (0 <? _)%float; [| left; reflexivity].
    destruct (_ <? 10)%float; [| left; reflexivity].
    right. eexists. split; [| reflexivity]. cbn. tauto.
Qed.

Lemma checkBehavior_outcome (G : GoStdlib) (encoded : string) :
  checkBehavior G encoded = (true, "") \/
  exists w, In w behaviorTags /\ checkBehavior G encoded = (false, w).
Proof.
  unfold checkBehavior.
  destruct (isEmpty encoded).
  { right. eexists. split; [| reflexivity]. cbn. tauto. }
  destruct (base64_DecodeString G encoded) as [decoded |].
  2: { right. eexists. split; [| reflexivity]. cbn. tauto. }
  destruct (isEmpty decoded).
  { right. eexists. split; [| reflexivity]. cbn. tauto. }
  destruct (json_UnmarshalEvents G decoded) as [events |].
  2: { right. eexists. split; [| reflexivity]. cbn. tauto. }
  destruct (_ <? 5).
  { right. eexists. split; [| reflexivity]. cbn. tauto. }
  apply checkEvents_outcome.
Qed.

(** [checkBehavior] either accepts with an empty reason or rejects with
    one of seven fixed reasons, never with an empty one; so step 5 of
    [CheckRequest] either leaves score and reasons alone or takes 3
    points with the reason "behavior:" followed by that tag, and its
    fallback reason "behavior_invalid" is never recorded. *)
Theorem behavior_step_records_a_tag (G : GoStdlib) (r : Request) (a : Acc) :
  (checkBehavior G (FormValue r "behavior_data") = (true, "") /\
   checkBehaviorStep G r a = a) \/
  (exists w,
     In w behaviorTags /\ w <> "" /\
     checkBehavior G (FormValue r "behavior_data") = (false, w) /\
     checkBehaviorStep G r a = penalize (-3) ["behavior:" +:+ w] a).
Proof.
  unfold checkBehaviorStep.
  destruct (checkBehavior_outcome G (FormValue r "behavior_data"))
    as [-> | (w & Hin & ->)]; [left; auto |].
  right. exists w.
  assert (Hne : w <> "").
  { unfold behaviorTags in Hin. cbn in Hin.
    intuition (subst; discriminate). }
  split; [exact Hin |]. split; [exact Hne |]. split; [reflexivity |].
  cbn [negb]. apply isEmpty_false in Hne. rewrite Hne. reflexivity.
Qed.

Lemma monotonic_Sorted (evs : list Event) :
  forall prev, monotonic prev evs = true <-> Sorted Z.lt (prev :: map T evs).
Proof.
  induction evs as [| ev t IH]; intros prev; cbn [monotonic map].
  - split; [intros _; repeat constructor | reflexivity].
  - destruct (Z.leb_spec (T ev) prev) as [Hle | Hlt].
    + split; [discriminate |]. intros H. inversion H as [| ? ? _ Hhd]; subst.
      inversion Hhd; subst. lia.
    + rewrite IH. split.
      * intros H. constructor; [exact H | constructor; exact Hlt].
      * intros H. inversion H; assumption.
Qed.

(** What an accepted trace guarantees: it decodes to at least five
    events whose timestamps increase strictly, the 64-bit difference
    between the last and the first is at least 600, and the summed
    movement is not below 40. *)
Theorem accepted_trace_shape (G : GoStdlib) (encoded : string) :
  fst (checkBehavior G encoded) = true ->
  exists decoded e0 rest,
    encoded <> "" /\
    base64_DecodeString G encoded = Some decoded /\
    json_UnmarshalEvents G decoded = Some (e0 :: rest) /\
    (4 <= length rest)%nat /\
    Sorted Z.lt (map T (e0 :: rest)) /\
    600 <= wrap64 (T (List.last rest e0) - T e0) /\
    (fst (movement e0 rest 0%float []) <? 40)%float = false.
Proof.
  unfold checkBehavior.
  destruct (isEmpty encoded) eqn:Ee; [discriminate |].
  destruct (base64_DecodeString G encoded) as [decoded |] eqn:Eb; [| discriminate].
  destruct (isEmpty decoded); [discriminate |].
  destruct (json_UnmarshalEvents G decoded) as [events |] eqn:Ej; [| discriminate].
  destruct (Z.ltb_spec (Z.of_nat (length events)) 5) as [H5 | H5]; [discriminate |].
  destruct events as [| e0 rest]; [cbn in H5; lia |].
  unfold checkEvents.
  destruct (monotonic (T e0) rest) eqn:Em; cbn [negb]; [| discriminate].
  destruct (Z.ltb_spec (wrap64 (T (List.last rest e0) - T e0)) 600) as [Hd | Hd];
    [discriminate |].
  destruct (movement e0 rest 0%float []) as [totalDist deltas] eqn:Emv.
  destruct (totalDist <? 40)%float eqn:Et; [discriminate |].
  intros _. exists decoded, e0, rest.
  split; [apply isEmpty_false; exact Ee |].
  split; [reflexivity |]. split; [exact Ej |].
  split; [cbn [length] in H5; lia |].
  split; [apply (monotonic_Sorted rest (T e0)); exact Em |].
  split; [lia |]. rewrite Emv. exact Et.
Qed.

Lemma accepted_trace_shape_witness :
  exists decoded e0 rest,
    humanTrace <> "" /\
    base64_DecodeString exampleStd humanTrace = Some decoded /\
    json_UnmarshalEvents exampleStd decoded = Some (e0 :: rest) /\
    (4 <= length rest)%nat /\
    Sorted Z.lt (map T (e0 :: rest)) /\
    600 <= wrap64 (T (List.last rest e0) - T e0) /\
    (fst (movement e0 rest 0%float []) <? 40)%float = false.
Proof.
  apply (accepted_trace_shape exampleStd humanTrace). vm_compute. reflexivity.
Defined.

Lemma movement_still (rest : list Event) :
  forall (x y : Z) (prev : Event) (ds : list float),
    X prev = x -> Y prev = y ->
    Forall (fun e => X e = x /\ Y e = y) rest ->
    fst (movement prev rest 0%float ds) = 0%float.
Proof.
  induction rest as [| ev t IH]; intros x y prev ds Hx Hy Hall; [reflexivity |].
  inversion Hall as [| ? ? [Hex Hey] Ht]; subst.
  cbn [movement]. rewrite Hex, Hey, !Z.sub_diag.
  assert (E : (0 + math_Hypot (float64_of_int (wrap64 0)) (float64_of_int (wrap64 0)))%float
              = 0%float) by (vm_compute; reflexivity).
  rewrite E. apply (IH (X prev) (Y prev)); auto.
Qed.

(** A trace in which the position never changes is rejected for low
    movement once it passes the time checks; every key or click event
    reads as position (0,0), so this is the fate of a visitor who fills
    the form with the keyboard alone. *)
Theorem motionless_trace_is_rejected (e0 : Event) (rest : list Event) :
  Forall (fun e => X e = X e0 /\ Y e = Y e0) rest ->
  monotonic (T e0) rest = true ->
  600 <= wrap64 (T (List.last rest e0) - T e0) ->
  checkEvents (e0 :: rest) = (false, "behavior_low_movement").
Proof.
  intros Hall Hm Hd. unfold checkEvents. rewrite Hm. cbn [negb].
  destruct (Z.ltb_spec (wrap64 (T (List.last rest e0) - T e0)) 600) as [H | _]; [lia |].
  pose proof (movement_still rest (X e0) (Y e0) e0 [] eq_refl eq_refl Hall) as E.
  destruct (movement e0 rest 0%float []) as [totalDist deltas].
  cbn [fst] in E. subst totalDist. reflexivity.
Qed.

Lemma motionless_trace_is_rejected_witness :
  Forall (fun e => jsPosition e = None) keyboardOnlyEvents /\
  checkEvents (map eventOfJs keyboardOnlyEvents) = (false, "behavior_low_movement").
Proof.
  split; [repeat constructor |].
  apply (motionless_trace_is_rejected (eventOfJs (JsKey 1700000001000))
           (map eventOfJs (tl keyboardOnlyEvents))).
  - repeat constructor.
  - vm_compute. reflexivity.
  - vm_compute. discriminate.
Defined.

(** ** The rate limiter, over several requests *)

Lemma filter_all {A : Type} (f : A -> bool) (l : list A) :
  Forall (fun x => f x = true) l -> List.filter f l = l.
Proof.
  induction 1 as [| x l Hx _ IH]; [reflexivity |].
  cbn [List.filter]. rewrite Hx, IH. reflexivity.
Qed.

Lemma filter_none {A : Type} (f : A -> bool) (l : list A) :
  Forall (fun x => f x = false) l -> List.filter f l = [].
Proof.
  induction 1 as [| x l Hx _ IH]; [reflexivity |].
  cbn [List.filter]. rewrite Hx. exact IH.
Qed.

Lemma CheckRequest_rateMap (G : GoStdlib) (c : Captcha) (now : Z) (r : Request) :
  rateMapAfter (CheckRequest G c now r) = rateMap c \/
  (ParseFormErr r = false /\ fst (shouldBypass G c r) = false /\
   rateMapAfter (CheckRequest G c now r) =
     <[clientIP G r := rateTick c (clientIP G r) now]> (rateMap c)).
Proof.
  unfold CheckRequest. destruct (ParseFormErr r); [left; reflexivity |].
  destruct (shouldBypass G c r) as [[|] why]; [left; reflexivity |].
  right. rewrite scoreRequest_rateMap. auto.
Qed.

(** One call of [CheckRequest] changes the rate-limiter map at most at
    the request's own origin, and not at all when the form data is
    malformed or the request is bypassed. *)
Theorem rate_map_changes_only_at_origin
        (G : GoStdlib) (c : Captcha) (now : Z) (r : Request) :
  (ParseFormErr r = true \/ fst (shouldBypass G c r) = true ->
   rateMapAfter (CheckRequest G c now r) = rateMap c) /\
  (forall ip, ip <> clientIP G r ->
              rateMapAfter (CheckRequest G c now r) !! ip = rateMap c !! ip).
Proof.
  split.
  - destruct (CheckRequest_rateMap G c now r) as [E | (Hp & Hb & _)]; [auto |].
    intros [H | H]; congruence.
  - intros ip Hip.
    destruct (CheckRequest_rateMap G c now r) as [-> | (_ & _ & ->)]; [reflexivity |].
    apply lookup_insert_ne. congruence.
Qed.

(** When every timestamp stored for the origin is at least one window
    old, the tick discards them all: the origin's list is [now] alone,
    and with a maximum of at least 1 no rate penalty is taken. *)
Theorem aged_out_entries_reset_the_count
        (G : GoStdlib) (c : Captcha) (now : Z) (r : Request) :
  ParseFormErr r = false ->
  fst (shouldBypass G c r) = false ->
  RateLimitTTL (cfg c) <= maxDuration ->
  Forall (fun t => RateLimitTTL (cfg c) <= now - t)
         (default [] (rateMap c !! clientIP G r)) ->
  rateMapAfter (CheckRequest G c now r) !! clientIP G r = Some [now] /\
  (1 <= RateLimitMax (cfg c) ->
   checkRate c (rateTick c (clientIP G r) now) (0, []) = (0, [])).
Proof.
  intros Hp Hb Httl Hold.
  assert (E : rateTick c (clientIP G r) now = [now]).
  { rewrite rateTick_app, filter_none; [reflexivity |].
    eapply Forall_impl; [exact Hold |]. intros t Ht. cbv beta in *.
    apply Z.ltb_ge. unfold time_Sub, maxDuration, minDuration in *. lia. }
  rewrite (CheckRequest_scored G c now r Hp Hb), scoreRequest_rateMap.
  rewrite lookup_insert_eq, E. split; [reflexivity |].
  intros Hmax. rewrite checkRate_cases. cbn [length].
  destruct (Z.ltb_spec (RateLimitMax (cfg c)) (Z.of_nat 1)); [lia | reflexivity].
Qed.

Lemma aged_out_entries_reset_the_count_witness :
  rateMap idleCaptcha !! "203.0.113.7" = Some [exampleNow - 2 * Minute] /\
  rateMapAfter (CheckRequest exampleStd idleCaptcha exampleNow cleanRequest)
    !! clientIP exampleStd cleanRequest = Some [exampleNow] /\
  (1 <= RateLimitMax (cfg idleCaptcha) ->
   checkRate idleCaptcha (rateTick idleCaptcha (clientIP exampleStd cleanRequest) exampleNow)
             (0, []) = (0, [])).
Proof.
  split; [vm_compute; reflexivity |].
  apply (aged_out_entries_reset_the_count exampleStd idleCaptcha exampleNow cleanRequest).
  - reflexivity.
  - vm_compute. reflexivity.
  - vm_compute. discriminate.
  - assert (E : default [] (rateMap idleCaptcha !! clientIP exampleStd cleanRequest)
                = [exampleNow - 2 * Minute]) by (vm_compute; reflexivity).
    rewrite E. repeat constructor. vm_compute. discriminate.
Defined.

(** When every timestamp stored for the origin is inside the window and
    there are already as many as the maximum, the next request keeps them
    all, is counted with them, loses 3 points, and its reasons start
    with "rate_limit_exceeded". *)
Theorem request_over_the_limit_is_penalized
        (G : GoStdlib) (c : Captcha) (now : Z) (r : Request) :
  ParseFormErr r = false ->
  fst (shouldBypass G c r) = false ->
  minDuration < RateLimitTTL (cfg c) ->
  Forall (fun t => now - t < RateLimitTTL (cfg c))
         (default [] (rateMap c !! clientIP G r)) ->
  RateLimitMax (cfg c) <= Z.of_nat (length (default [] (rateMap c !! clientIP G r))) ->
  rateMapAfter (CheckRequest G c now r) !! clientIP G r =
    Some (default [] (rateMap c !! clientIP G r) ++ [now]) /\
  exists call rest,
    audit (CheckRequest G c now r) = Some call /\
    log_score call <= -3 /\
    log_reasons call = "rate_limit_exceeded" :: rest.
Proof.
  intros Hp Hb Httl Hin Hmax.
  assert (E : rateTick c (clientIP G r) now =
              default [] (rateMap c !! clientIP G r) ++ [now]).
  { rewrite rateTick_app, filter_all; [reflexivity |].
    eapply Forall_impl; [exact Hin |]. intros t Ht. cbv beta in *.
    apply Z.ltb_lt. unfold time_Sub, maxDuration, minDuration in *. lia. }
  rewrite (CheckRequest_scored G c now r Hp Hb), scoreRequest_rateMap.
  rewrite lookup_insert_eq. split; [rewrite E; reflexivity |].
  assert (Ea : checkRate c (rateTick c (clientIP G r) now) (0, [])
               = (-3, ["rate_limit_exceeded"])).
  { rewrite checkRate_cases, E, length_app. cbn [length].
    destruct (Z.ltb_spec (RateLimitMax (cfg c))
                (Z.of_nat (length (default [] (rateMap c !! clientIP G r)) + 1)));
      [reflexivity | lia]. }
  destruct (scoreRequest_cases G c now r (clientIP G r) (Header_Get r "User-Agent"))
    as [(why & _ & ->) | (_ & ->)]; rewrite Ea.
  - do 2 eexists. split; [reflexivity |]. cbn [log_score log_reasons fst snd app].
    split; [lia | reflexivity].
  - destruct (scoreSignals_penalty G c now r) as (d & w & Hf & Hd & _).
    rewrite Hf. unfold penalize. cbn [fst snd app].
    do 2 eexists. split; [reflexivity |]. cbn [log_score log_reasons].
    split; [lia | reflexivity].
Qed.

Lemma request_over_the_limit_is_penalized_witness :
  length (default [] (rateMap busyCaptcha !! "203.0.113.7")) = 5%nat /\
  rateMapAfter (CheckRequest exampleStd busyCaptcha exampleNow cleanRequest)
    !! clientIP exampleStd cleanRequest =
    Some (default [] (rateMap busyCaptcha !! clientIP exampleStd cleanRequest)
          ++ [exampleNow]) /\
  exists call rest,
    audit (CheckRequest exampleStd busyCaptcha exampleNow cleanRequest) = Some call /\
    log_score call <= -3 /\
    log_reasons call = "rate_limit_exceeded" :: rest.
Proof.
  split; [vm_compute; reflexivity |].
  apply (request_over_the_limit_is_penalized exampleStd busyCaptcha exampleNow cleanRequest).
  - reflexivity.
  - vm_compute. reflexivity.
  - vm_compute. reflexivity.
  - assert (E : default [] (rateMap busyCaptcha !! clientIP exampleStd cleanRequest)
                = [exampleNow - 5000000000; exampleNow - 4000000000;
                   exampleNow - 3000000000; exampleNow - 2000000000;
                   exampleNow - 1000000000]) by (vm_compute; reflexivity).
    rewrite E. repeat constructor; vm_compute; reflexivity.
  - vm_compute. discriminate.
Defined.

(** ** The bypass evaluator, rule by rule *)

Lemma oauthBypass_outcome (G : GoStdlib) (r : Request) :
  oauthBypass G r = (false, "") \/
  (Method r = "GET" /\
   (oauthBypass G r = (true, "bypass:oauth_flow") \/
    oauthBypass G r = (true, "bypass:oauth_referer"))).
Proof.
  unfold oauthBypass. destruct (String.eqb_spec (Method r) "GET") as [E | E]; [| auto].
  destruct (_ && _); [auto |]. destruct (_ && _); [auto |]. destruct (_ || _); auto.
Qed.

Lemma bypassRules_outcome (G : GoStdlib) (c : Captcha) (r : Request) :
  bypassRules G c r = (false, "") \/
  bypassRules G c r = (true, "bypass:skip_path") \/
  (Method r = "GET" /\
   (bypassRules G c r = (true, "bypass:oauth_flow") \/
    bypassRules G c r = (true, "bypass:oauth_referer"))).
Proof.
  unfold bypassRules. destruct (skipPathMatch _ _); [auto |].
  destruct (oauthBypass_outcome G r) as [-> | H]; auto.
Qed.

(** [shouldBypass] answers either "no" with an empty reason or "yes"
    with one of four reasons, and the two OAuth reasons come for GET
    requests only: any other method is bypassed by the custom predicate
    or a skip path, or not at all. *)
Theorem bypass_verdict_and_reason (G : GoStdlib) (c : Captcha) (r : Request) :
  shouldBypass G c r = (false, "") \/
  shouldBypass G c r = (true, "bypass:custom") \/
  shouldBypass G c r = (true, "bypass:skip_path") \/
  (Method r = "GET" /\
   (shouldBypass G c r = (true, "bypass:oauth_flow") \/
    shouldBypass G c r = (true, "bypass:oauth_referer"))).
Proof.
  unfold shouldBypass. destruct (SkipIf (cfg c)) as [f |].
  - destruct (f r) as [[|] |]; cbn [recovered]; [auto | | auto].
    destruct (bypassRules_outcome G c r) as [-> | [-> | H]]; auto.
  - destruct (bypassRules_outcome G c r) as [-> | [-> | H]]; auto.
Qed.

Lemma oauthBypass_code_and_state (G : GoStdlib) (r : Request) :
  Method r = "GET" ->
  strings_TrimSpace (Query_Get r "code") <> "" ->
  strings_TrimSpace (Query_Get r "state") <> "" ->
  oauthBypass G r = (true, "bypass:oauth_flow").
Proof.
  intros Hm Hc Hs. unfold oauthBypass. rewrite Hm.
  apply isEmpty_false in Hc. apply isEmpty_false in Hs. rewrite Hc, Hs. reflexivity.
Qed.

(** A GET request whose query carries non-blank [code] and [state]
    parameters is let through on any path, whatever else it holds (a
    filled decoy field included), as long as its form data parses and
    the custom predicate does not panic; it is logged with score 0 and
    never reaches the rate limiter. *)
Theorem get_with_code_and_state_is_bypassed
        (G : GoStdlib) (c : Captcha) (now : Z) (r : Request) :
  ParseFormErr r = false ->
  (forall f, SkipIf (cfg c) = Some f -> f r <> Panics) ->
  Method r = "GET" ->
  strings_TrimSpace (Query_Get r "code") <> "" ->
  strings_TrimSpace (Query_Get r "state") <> "" ->
  blocked (CheckRequest G c now r) = false /\
  rateMapAfter (CheckRequest G c now r) = rateMap c /\
  exists why,
    (why = "bypass:custom" \/ why = "bypass:skip_path" \/ why = "bypass:oauth_flow") /\
    audit (CheckRequest G c now r) =
    Some {| log_ip := clientIP G r; log_ua := Header_Get r "User-Agent";
            log_score := 0; log_reasons := [why] |}.
Proof.
  intros Hp Hnp Hm Hc Hs.
  assert (Hrules : exists why, (why = "bypass:skip_path" \/ why = "bypass:oauth_flow") /\
                               bypassRules G c r = (true, why)).
  { unfold bypassRules. destruct (skipPathMatch _ _); [eauto |].
    rewrite (oauthBypass_code_and_state G r Hm Hc Hs). eauto. }
  destruct Hrules as (why0 & Hwhy0 & Hrules).
  assert (Hb : exists why,
             (why = "bypass:custom" \/ why = "bypass:skip_path" \/ why = "bypass:oauth_flow")
             /\ shouldBypass G c r = (true, why)).
  { destruct (SkipIf (cfg c)) as [f |] eqn:Ef.
    - destruct (f r) as [[|] |] eqn:Er.
      + exists "bypass:custom". split; [auto |].
        apply (shouldBypass_predicate_true G c r f Ef Er).
      + exists why0. split; [tauto |].
        rewrite (shouldBypass_predicate_false G c r f Ef Er). exact Hrules.
      + exfalso. apply (Hnp f); [reflexivity | exact Er].
    - exists why0. split; [tauto |].
      rewrite (shouldBypass_no_predicate G c r Ef). exact Hrules. }
  destruct Hb as (why & Hwhy & Hs').
  rewrite (CheckRequest_bypassed G c now r why Hp Hs'). cbn [blocked rateMapAfter audit].
  split; [reflexivity |]. split; [reflexivity |].
  exists why. split; [exact Hwhy | reflexivity].
Qed.

Lemma get_with_code_and_state_is_bypassed_witness :
  FormValue oauthCallbackRequest (fieldName exampleCaptcha) = "x" /\
  blocked (CheckRequest exampleStd exampleCaptcha exampleNow oauthCallbackRequest) = false /\
  rateMapAfter (CheckRequest exampleStd exampleCaptcha exampleNow oauthCallbackRequest)
    = rateMap exampleCaptcha /\
  exists why,
    (why = "bypass:custom" \/ why = "bypass:skip_path" \/ why = "bypass:oauth_flow") /\
    audit (CheckRequest exampleStd exampleCaptcha exampleNow oauthCallbackRequest) =
    Some {| log_ip := clientIP exampleStd oauthCallbackRequest;
            log_ua := Header_Get oauthCallbackRequest "User-Agent";
            log_score := 0; log_reasons := [why] |}.
Proof.
  split; [reflexivity |].
  apply (get_with_code_and_state_is_bypassed exampleStd exampleCaptcha exampleNow
           oauthCallbackRequest).
  - reflexivity.
  - intros f Hf. discriminate Hf.
  - reflexivity.
  - vm_compute. discriminate.
  - vm_compute. discriminate.
Defined.

(** ** Construction and storage *)

(** [New] never leaves a zero in the window, the maximum or the
    threshold, so [threshold()] of a captcha it built is the stored
    [BlockThreshold]; building again from the stored configuration
    changes nothing: a configured 0 cannot be told from the default. *)
Theorem New_applies_defaults_once (suffix : string) (opened : option Store) (cfg0 : Config) :
  RateLimitTTL (cfg (New suffix opened cfg0)) <> 0 /\
  RateLimitMax (cfg (New suffix opened cfg0)) <> 0 /\
  BlockThreshold (cfg (New suffix opened cfg0)) <> 0 /\
  threshold (New suffix opened cfg0) = BlockThreshold (cfg (New suffix opened cfg0)) /\
  New suffix opened (cfg (New suffix opened cfg0)) = New suffix opened cfg0.
Proof.
  unfold threshold, New, Minute. cbn [cfg RateLimitTTL RateLimitMax BlockThreshold
    ShowBadge BadgeMessage EnableStorage DBPath SkipPaths SkipIf].
  destruct (Z.eqb_spec (RateLimitTTL cfg0) 0) as [E1 | E1];
    destruct (Z.eqb_spec (RateLimitMax cfg0) 0) as [E2 | E2];
    destruct (Z.eqb_spec (BlockThreshold cfg0) 0) as [E3 | E3];
    cbn;
    repeat match goal with
           | |- context [?x =? 0] =>
             destruct (Z.eqb_spec x 0); [contradiction |]
           end;
    repeat split; (lia || auto).
Qed.

(** Without storage, the engine built by [New] never enforces the
    Latin-only stop, matches the built-in keywords, and writes no log
    row, whatever database could have been opened. *)
Theorem without_storage_defaults_apply
        (suffix : string) (opened : option Store) (cfg0 : Config) :
  EnableStorage cfg0 = false ->
  (forall G key def, getConfigBool G (New suffix opened cfg0) key def = def) /\
  (forall G r, latinAccepted G (New suffix opened cfg0) r = true) /\
  getSpamKeywords (New suffix opened cfg0) = defaultKeywords /\
  (forall call, log (New suffix opened cfg0) call = []).
Proof.
  intros He.
  assert (Hdb : db (New suffix opened cfg0) = None).
  { unfold New. cbn [db]. rewrite He. reflexivity. }
  repeat split.
  - intros G key def. unfold getConfigBool. rewrite Hdb. reflexivity.
  - intros G r. unfold latinAccepted, getConfigBool. rewrite Hdb. reflexivity.
  - unfold getSpamKeywords. rewrite Hdb. reflexivity.
  - intros call. unfold log. rewrite Hdb, orb_true_r. reflexivity.
Qed.

Lemma without_storage_defaults_apply_witness :
  (forall G key def, getConfigBool G exampleCaptcha key def = def) /\
  (forall G r, latinAccepted G exampleCaptcha r = true) /\
  getSpamKeywords exampleCaptcha = defaultKeywords /\
  (forall call, log exampleCaptcha call = []).
Proof.
  apply (without_storage_defaults_apply "k3x9qa" None zeroConfig). reflexivity.
Defined.

(** ** The Latin-only stop *)

Lemma formIsLatinOnly_false (G : GoStdlib) (c : Captcha) (r : Request)
      (k v : string) (vs : list string) (rn : Z) :
  In (k, vs) (Form r) -> k <> fieldName c -> In v vs -> In rn (runes v) ->
  unicode_IsLetter G rn || unicode_IsMark G rn = true ->
  unicode_Latin G rn = false ->
  formIsLatinOnly G c r = false.
Proof.
  intros Hk Hne Hv Hrn Hl Hlat.
  destruct (formIsLatinOnly G c r) eqn:E; [| reflexivity]. exfalso.
  unfold formIsLatinOnly in E.
  pose proof (proj1 (forallb_forall _ _) E (k, vs) Hk) as E1. cbn [fst snd] in E1.
  destruct (String.eqb_spec k (fieldName c)) as [Ek | _]; [contradiction |].
  pose proof (proj1 (forallb_forall _ _) E1 v Hv) as E2.
  unfold isLatinOnlyText in E2.
  pose proof (proj1 (forallb_forall _ _) E2 rn Hrn) as E3. cbv beta in E3.
  rewrite Hl in E3. congruence.
Qed.

(** With Latin-only enforcement switched on in the configuration table,
    one letter or mark outside the Latin script in any value of any
    field other than the decoy blocks the request at once (when the form
    data parses, the request is not bypassed and the decoy is blank):
    the reason "non_latin_detected" follows what the rate limiter left,
    and none of the scoring steps contributes. *)
Theorem non_latin_letter_blocks
        (G : GoStdlib) (c : Captcha) (now : Z) (r : Request)
        (k v : string) (vs : list string) (rn : Z) :
  ParseFormErr r = false ->
  fst (shouldBypass G c r) = false ->
  decoyEmpty c r = true ->
  getConfigBool G c "latin_only" false = true ->
  In (k, vs) (Form r) -> k <> fieldName c -> In v vs -> In rn (runes v) ->
  unicode_IsLetter G rn || unicode_IsMark G rn = true ->
  unicode_Latin G rn = false ->
  blocked (CheckRequest G c now r) = true /\
  exists score reasons,
    audit (CheckRequest G c now r) =
    Some {| log_ip := clientIP G r; log_ua := Header_Get r "User-Agent";
            log_score := score; log_reasons := reasons ++ ["non_latin_detected"] |} /\
    (score, reasons) = checkRate c (rateTick c (clientIP G r) now) (0, []).
Proof.
  intros Hp Hb Hd Hcfg Hk Hne Hv Hrn Hl Hlat.
  pose proof (formIsLatinOnly_false G c r k v vs rn Hk Hne Hv Hrn Hl Hlat) as Hf.
  rewrite (CheckRequest_scored G c now r Hp Hb).
  unfold scoreRequest. unfold decoyEmpty in Hd. rewrite Hd, Hcfg, Hf.
  cbn [negb andb blocked audit]. split; [reflexivity |].
  do 2 eexists. split; [reflexivity |]. symmetry. apply surjective_pairing.
Qed.

Lemma non_latin_letter_blocks_witness :
  runes greekMessage = [0x3B3; 0x3B5; 0x3B9; 0x3B1] /\
  blocked (CheckRequest greekStd storageCaptcha exampleNow greekRequest) = true /\
  exists score reasons,
    audit (CheckRequest greekStd storageCaptcha exampleNow greekRequest) =
    Some {| log_ip := clientIP greekStd greekRequest;
            log_ua := Header_Get greekRequest "User-Agent";
            log_score := score; log_reasons := reasons ++ ["non_latin_detected"] |} /\
    (score, reasons) =
      checkRate storageCaptcha
                (rateTick storageCaptcha (clientIP greekStd greekRequest) exampleNow)
                (0, []).
Proof.
  split; [vm_compute; reflexivity |].
  apply (non_latin_letter_blocks greekStd storageCaptcha exampleNow greekRequest
           "message" greekMessage [greekMessage] 0x3B3).
  - reflexivity.
  - vm_compute. reflexivity.
  - vm_compute. reflexivity.
  - vm_compute. reflexivity.
  - cbn. tauto.
  - vm_compute. discriminate.
  - left. reflexivity.
  - vm_compute. tauto.
  - vm_compute. reflexivity.
  - vm_compute. reflexivity.
Defined.

(** ** The decoy field name *)

Lemma randSeq_letter (i : Z) :
  0 <= i < 36 ->
  exists b, utf8_EncodeRune (nth (Z.to_nat i) randSeq_letters 0) = [b] /\
            (between 97 122 b || between 48 57 b) = true.
Proof.
  intros Hi. assert (Hn : (Z.to_nat i < 36)%nat) by lia.
  revert Hn. generalize (Z.to_nat i). intros n Hn.
  do 36 (destruct n as [| n]; [eexists; split; vm_compute; reflexivity |]).
  lia.
Qed.

(** [randSeq] returns one byte per draw, each a lower-case letter or a
    digit, provided the draws are indices of its alphabet (which
    [rand.Intn] guarantees). *)
Theorem randSeq_length_and_alphabet (draws : list Z) :
  Forall (fun i => 0 <= i < 36) draws ->
  String.length (randSeq draws) = length draws /\
  forallb (fun b => between 97 122 b || between 48 57 b) (bytes (randSeq draws)) = true.
Proof.
  unfold randSeq. induction 1 as [| i draws Hi _ [IHl IHa]]; [split; reflexivity |].
  destruct (randSeq_letter i Hi) as (b & Eb & Hb).
  cbn [flat_map]. rewrite Eb. cbn [app ofBytes String.length length bytes forallb].
  rewrite IHl. split; [reflexivity |].
  assert (Hbyte : byteOf (asciiOf b) = b).
  { unfold between in Hb. unfold byteOf, asciiOf.
    rewrite N_ascii_embedding by lia. lia. }
  rewrite Hbyte, Hb, IHa. reflexivity.
Qed.

Lemma randSeq_length_and_alphabet_witness :
  randSeq [10; 29; 23; 35; 16; 0] = "k3x9qa" /\
  String.length (randSeq [10; 29; 23; 35; 16; 0]) = length [10; 29; 23; 35; 16; 0] /\
  forallb (fun b => between 97 122 b || between 48 57 b)
          (bytes (randSeq [10; 29; 23; 35; 16; 0])) = true.
Proof.
  split; [vm_compute; reflexivity |].
  apply (randSeq_length_and_alphabet [10; 29; 23; 35; 16; 0]).
  repeat constructor; lia.
Defined.

Lemma strings_ToLower_extra (G : GoStdlib) (suffix : string) :
  exists rest, strings_ToLower G ("extra_" +:+ suffix) = "extra_" +:+ rest.
Proof.
  unfold strings_ToLower.
  destruct (forallb _ _).
  - exists (ofBytes (map asciiLower (bytes suffix))). reflexivity.
  - exists (strings_Map (unicode_ToLower G) suffix). reflexivity.
Qed.

(** The name of the decoy field starts with "extra_": it is none of the
    fields the engine reads by name ([ts], [js_token], [behavior_data]),
    and the content analyzer never takes its value for a name, an email,
    a website or a message. *)
Theorem decoy_field_is_not_read_as_content
        (G : GoStdlib) (suffix : string) (opened : option Store) (cfg0 : Config)
        (r : Request) (fs : Fields) :
  HoneypotField (New suffix opened cfg0) = "extra_" +:+ suffix /\
  HoneypotField (New suffix opened cfg0) <> "ts" /\
  HoneypotField (New suffix opened cfg0) <> "js_token" /\
  HoneypotField (New suffix opened cfg0) <> "behavior_data" /\
  classifyField G r fs (HoneypotField (New suffix opened cfg0)) = fs.
Proof.
  unfold HoneypotField, New. cbn [fieldName].
  split; [reflexivity |].
  split; [discriminate |]. split; [discriminate |]. split; [discriminate |].
  unfold classifyField. cbv zeta.
  destruct (strings_ToLower_extra G suffix) as (rest & ->). reflexivity.
Qed.

(** ** The email pattern *)

Lemma removelast_In_split {A : Type} (x : A) (l : list A) :
  In x (removelast l) -> exists a b, l = a ++ x :: b /\ b <> [].
Proof.
  induction l as [| y l IH]; [intros [] |].
  destruct l as [| z l]; [intros [] |].
  intros [-> | Hin].
  - exists [], (z :: l). split; [reflexivity | discriminate].
  - destruct (IH Hin) as (a & b & E & Hb).
    exists (y :: a), b. rewrite E. split; [reflexivity | exact Hb].
Qed.

Lemma emailRe_domain_shape (rest : list Z) :
  emailRe_domain rest = true <->
  exists d t, rest = d ++ 46 :: t /\ d <> [] /\ t <> [] /\
              forallb emailClass d = true /\ forallb emailClass t = true.
Proof.
  unfold emailRe_domain. fold emailClass. split.
  - intros H. apply andb_prop in H as [Hall Hdot].
    destruct rest as [| x t']; [discriminate |].
    apply existsb_exists in Hdot as (y & Hin & Ey). apply Z.eqb_eq in Ey. subst y.
    apply removelast_In_split in Hin as (a & b & -> & Hb).
    exists (x :: a), b. split; [reflexivity |]. split; [discriminate |].
    split; [exact Hb |].
    change (x :: a ++ 46 :: b) with ((x :: a) ++ 46 :: b) in Hall.
    rewrite forallb_app in Hall. apply andb_prop in Hall as [Hd Ht].
    cbn [forallb] in Ht. apply andb_prop in Ht as [_ Ht]. auto.
  - intros (d & t & -> & Hd & Ht & Hcd & Hct).
    rewrite forallb_app, Hcd. cbn [forallb andb]. rewrite Hct.
    replace (emailClass 46) with true by reflexivity. cbn [andb].
    destruct d as [| x a]; [contradiction |]. cbn [app].
    rewrite removelast_app by discriminate.
    destruct t as [| y t]; [contradiction |].
    rewrite existsb_app. cbn. apply orb_true_r.
Qed.

Lemma emailRe_local_shape (bs : list Z) :
  forall seen,
    emailRe_local seen bs = true ->
    exists l rest, bs = l ++ 64 :: rest /\ forallb emailClass l = true /\
                   (seen = true \/ l <> []) /\ emailRe_domain rest = true.
Proof.
  induction bs as [| b t IH]; intros seen H; [discriminate |].
  cbn [emailRe_local] in H. destruct (Z.eqb_spec b 64) as [-> | Hb].
  - apply andb_prop in H as [Hs Hd]. exists [], t. auto.
  - destruct (isReSpace b) eqn:Esp; [discriminate |].
    destruct (IH true H) as (l & rest & -> & Hl & _ & Hd).
    exists (b :: l), rest. split; [reflexivity |]. split.
    + cbn [forallb]. rewrite Hl. unfold emailClass. rewrite Esp.
      destruct (Z.eqb_spec b 64); [contradiction | reflexivity].
    + split; [right; discriminate | exact Hd].
Qed.

Lemma emailRe_local_seen (l rest : list Z) :
  forallb emailClass l = true ->
  emailRe_local true (l ++ 64 :: rest) = emailRe_domain rest.
Proof.
  induction l as [| b l IH]; intros Hl; [reflexivity |].
  cbn [forallb] in Hl. apply andb_prop in Hl as [Hb Hl].
  unfold emailClass in Hb. apply negb_true_iff, orb_false_iff in Hb as [Hb Hsp].
  cbn [app emailRe_local]. rewrite Hb, Hsp. exact (IH Hl).
Qed.

(** The email check of the content analyzer accepts exactly the strings
    [local@domain.tld] whose three parts are non-empty and hold neither
    [@] nor white space (dots are allowed inside the parts). *)
Theorem emailRe_accepts_local_at_domain_dot_tld (s : string) :
  emailRe_MatchString s = true <-> emailShape (bytes s).
Proof.
  unfold emailRe_MatchString, emailShape. split.
  - intros H. apply emailRe_local_shape in H as (l & rest & E & Hl & [Hs | Hne] & Hd);
      [discriminate |].
    apply emailRe_domain_shape in Hd as (d & t & -> & Hd & Ht & Hcd & Hct).
    exists l, d, t. auto 10.
  - intros (l & d & t & -> & Hl & Hd & Ht & Hcl & Hcd & Hct).
    destruct l as [| b l]; [contradiction |].
    cbn [forallb] in Hcl. apply andb_prop in Hcl as [Hb Hcl].
    unfold emailClass in Hb. apply negb_true_iff, orb_false_iff in Hb as [Hb Hsp].
    cbn [app emailRe_local]. rewrite Hb, Hsp.
    rewrite (emailRe_local_seen l _ Hcl).
    apply emailRe_domain_shape. exists d, t. auto 10.
Qed.

(** ** The URL pattern *)

Lemma urlRe_scan_in_match (bs : list Z) :
  forall (m : list Z) (prevWord : bool), urlRe_scan (Some m) prevWord bs <> [].
Proof.
  induction bs as [| b t IH]; intros m prevWord; cbn [urlRe_scan]; [discriminate |].
  destruct (isReSpace b); [discriminate | apply IH].
Qed.

Lemma urlRe_scan_finds (bs : list Z) :
  forall prevWord,
    urlRe_scan None prevWord bs <> [] <->
    exists pre rest,
      bs = pre ++ rest /\ wordBefore prevWord pre = false /\ urlRe_startsAt rest = true.
Proof.
  induction bs as [| b t IH]; intros prevWord.
  - cbn [urlRe_scan]. split; [congruence |].
    intros (pre & rest & E & _ & Hs). symmetry in E.
    apply app_eq_nil in E as [_ ->]. discriminate Hs.
  - cbn [urlRe_scan].
    destruct (negb prevWord && urlRe_startsAt (b :: t)) eqn:Ec.
    + split; [| intros _; apply urlRe_scan_in_match].
      intros _. apply andb_prop in Ec as [Hw Hs]. apply negb_true_iff in Hw.
      exists [], (b :: t). auto.
    + rewrite IH. split.
      * intros (pre & rest & -> & Hw & Hs). exists (b :: pre), rest. auto.
      * intros (pre & rest & E & Hw & Hs). destruct pre as [| b' pre].
        -- cbn in E, Hw. subst rest prevWord. rewrite Hs in Ec. discriminate.
        -- cbn in E. injection E as -> ->. exists pre, rest. auto.
Qed.

Lemma isWordByte_wordChar (b : Z) : isWordByte b = true <-> wordChar b.
Proof.
  unfold isWordByte, wordChar, between.
  rewrite !orb_true_iff, !andb_true_iff, !Z.leb_le, Z.eqb_eq. tauto.
Qed.

Lemma isReSpace_whiteSpace (b : Z) : isReSpace b = true <-> whiteSpace b.
Proof.
  unfold isReSpace, whiteSpace. rewrite !orb_true_iff, !Z.eqb_eq. tauto.
Qed.

Lemma wordBefore_last (pre : list Z) (b : Z) :
  forall w, wordBefore w (pre ++ [b]) = isWordByte b.
Proof. induction pre as [| x pre IH]; intros w; [reflexivity | apply IH]. Qed.

(** [\b] before a prefix, which starts with a letter: the start of the
    string, or a byte that is no word character. *)
Lemma wordBefore_boundary (pre : list Z) :
  wordBefore false pre = false <->
  pre = [] \/ exists pre' b, pre = pre' ++ [b] /\ ~ wordChar b.
Proof.
  destruct pre as [| b pre' _] using rev_ind.
  - split; [left; reflexivity | reflexivity].
  - rewrite wordBefore_last. split.
    + intros Hw. right. exists pre', b. split; [reflexivity |].
      intros Hc. apply isWordByte_wordChar in Hc. congruence.
    + intros [E | (p & b' & E & Hn)].
      * destruct pre'; discriminate E.
      * apply app_inj_tail in E as [_ <-].
        destruct (isWordByte b) eqn:Ew; [| reflexivity].
        exfalso. apply Hn, isWordByte_wordChar, Ew.
Qed.

Lemma asciiLower_letter (b l : Z) :
  97 <= l <= 122 -> (asciiLower b = l <-> b = l \/ b = l - 32).
Proof.
  unfold asciiLower, between. intros Hl.
  destruct (Z.leb_spec 65 b), (Z.leb_spec b 90); cbn [andb]; lia.
Qed.

Lemma asciiLower_symbol (b l : Z) : l < 65 -> (asciiLower b = l <-> b = l).
Proof.
  unfold asciiLower, between. intros Hl.
  destruct (Z.leb_spec 65 b), (Z.leb_spec b 90); cbn [andb]; lia.
Qed.

Lemma matchFold_spec (lit : list Z) :
  forall bs r,
    matchFold lit bs = Some r <->
    exists p, bs = p ++ r /\ Forall2 (fun l b => asciiLower b = l) lit p.
Proof.
  induction lit as [| l lit IH]; intros bs r.
  - cbn [matchFold]. split.
    + intros [= ->]. exists []. split; [reflexivity | constructor].
    + intros (p & -> & Hp). inversion Hp. reflexivity.
  - destruct bs as [| b bs]; cbn [matchFold].
    + split; [discriminate |]. intros (p & E & Hp). inversion Hp; subst. discriminate E.
    + destruct (Z.eqb_spec (asciiLower b) l) as [El | El].
      * rewrite IH. split.
        -- intros (p & -> & Hp). exists (b :: p). split; [reflexivity |].
           constructor; assumption.
        -- intros (p & E & Hp). inversion Hp as [| ? b' ? p' Hb Hp']; subst.
           cbn [app] in E. injection E as -> ->. exists p'. split; [reflexivity | exact Hp'].
      * split; [discriminate |]. intros (p & E & Hp).
        inversion Hp as [| ? b' ? p' Hb Hp']; subst.
        cbn [app] in E. injection E as -> ->. contradiction.
Qed.

Lemma matchFoldS_spec (bs r : list Z) :
  matchFoldS bs = Some r <->
  exists s, (s = [115] \/ s = [83] \/ s = [0xC5; 0xBF]) /\ bs = s ++ r.
Proof.
  unfold matchFoldS. split.
  - destruct bs as [| b t]; [discriminate |].
    destruct (Z.eqb_spec b 115) as [-> | H1].
    { intros [= ->]. exists [115]. auto. }
    destruct (Z.eqb_spec b 83) as [-> | H2].
    { intros [= ->]. exists [83]. auto. }
    cbn [orb]. destruct t as [| b' t']; [discriminate |].
    destruct (Z.eqb_spec b 0xC5) as [-> | H3]; [| discriminate].
    destruct (Z.eqb_spec b' 0xBF) as [-> | H4]; [| discriminate].
    intros [= ->]. exists [0xC5; 0xBF]. auto.
  - intros (s & [-> | [-> | ->]] & ->); reflexivity.
Qed.

Ltac unfold_literals :=
  repeat match goal with
         | |- context [bytes ?s] =>
           let v := eval vm_compute in (bytes s) in change (bytes s) with v
         | H : context [bytes ?s] |- _ =>
           let v := eval vm_compute in (bytes s) in change (bytes s) with v in H
         end.

Ltac invert_Forall2 :=
  repeat match goal with
         | H : Forall2 _ (_ :: _) _ |- _ => inversion H; clear H; subst
         | H : Forall2 _ [] _ |- _ => inversion H; clear H; subst
         end.

(** What the matcher takes for [(?:https?://|www\.)] is one of the
    three prefixes, and every one of them is taken. *)
Lemma urlRe_prefix_spec (bs r : list Z) :
  urlRe_prefix bs = Some r <-> exists p, bs = p ++ r /\ urlPrefix p.
Proof.
  split.
  - unfold urlRe_prefix, urlPrefix, anyCase.
    assert (Hhttp : forall h, Forall2 (fun l b => asciiLower b = l) (bytes "http") h ->
                              Forall2 (fun l b => b = l \/ b = l - 32) (bytes "http") h).
    { intros h Hh. unfold_literals. invert_Forall2.
      repeat (constructor;
              [match goal with
               | |- ?b = ?l \/ _ =>
                 apply (proj1 (asciiLower_letter b l ltac:(lia))); assumption
               end |]).
      constructor. }
    assert (Hsep : forall t, matchFold (bytes "://") t = Some r -> t = bytes "://" ++ r).
    { intros t Ht. apply matchFold_spec in Ht as (p & -> & Hp).
      unfold_literals. invert_Forall2.
      repeat match goal with
             | H : asciiLower ?b = ?l |- _ =>
               apply (proj1 (asciiLower_symbol b l ltac:(lia))) in H; subst
             end.
      reflexivity. }
    destruct (matchFold (bytes "http") bs) as [r1 |] eqn:E1.
    + apply matchFold_spec in E1 as (h & -> & Hh). apply Hhttp in Hh.
      destruct (matchFoldS r1) as [r2 |] eqn:E2.
      * apply matchFoldS_spec in E2 as (s & Hs & ->).
        destruct (matchFold (bytes "://") r2) as [r3 |] eqn:E3.
        -- intros [= ->]. apply Hsep in E3 as ->.
           exists (h ++ s ++ bytes "://"). split; [rewrite <- !app_assoc; reflexivity |].
           right. left. exists h, s. auto.
        -- intros E4. apply Hsep in E4. rewrite E4.
           exists (h ++ bytes "://"). split; [rewrite <- app_assoc; reflexivity |].
           left. exists h. auto.
      * intros E4. apply Hsep in E4 as ->.
        exists (h ++ bytes "://"). split; [rewrite <- app_assoc; reflexivity |].
        left. exists h. auto.
    + intros E4. apply matchFold_spec in E4 as (p & -> & Hp).
      exists p. split; [reflexivity |]. right. right.
      unfold_literals. invert_Forall2.
      repeat match goal with
             | H : asciiLower ?b = 46 |- _ =>
               apply (proj1 (asciiLower_symbol b 46 ltac:(lia))) in H; subst
             | H : asciiLower ?b = ?l |- _ =>
               apply (proj1 (asciiLower_letter b l ltac:(lia))) in H
             end.
      eexists [_; _; _]. split; [| reflexivity]. repeat (constructor; [assumption |]). constructor.
  - intros (p & -> & [(h & Hh & ->) | [(h & s & Hh & Hs & ->) | (w & Hw & ->)]]).
    + unfold anyCase in Hh. unfold_literals. invert_Forall2.
      repeat match goal with H : _ \/ _ |- _ => destruct H; subst end;
        vm_compute; reflexivity.
    + unfold anyCase in Hh. unfold_literals. invert_Forall2.
      destruct Hs as [-> | [-> | ->]];
        repeat match goal with H : _ \/ _ |- _ => destruct H; subst end;
        vm_compute; reflexivity.
    + unfold anyCase in Hw. unfold_literals. invert_Forall2.
      repeat match goal with H : _ \/ _ |- _ => destruct H; subst end;
        vm_compute; reflexivity.
Qed.

Lemma urlRe_startsAt_spec (bs : list Z) :
  urlRe_startsAt bs = true <->
  exists p c t, bs = p ++ c :: t /\ urlPrefix p /\ ~ whiteSpace c.
Proof.
  unfold urlRe_startsAt. split.
  - destruct (urlRe_prefix bs) as [[| c t] |] eqn:E; try discriminate.
    apply urlRe_prefix_spec in E as (p & -> & Hp). intros Hn.
    exists p, c, t. split; [reflexivity |]. split; [exact Hp |].
    intros Hc. apply isReSpace_whiteSpace in Hc. rewrite Hc in Hn. discriminate Hn.
  - intros (p & c & t & -> & Hp & Hc).
    assert (E : urlRe_prefix (p ++ c :: t) = Some (c :: t))
      by (apply urlRe_prefix_spec; exists p; auto).
    rewrite E. destruct (isReSpace c) eqn:Es; [| reflexivity].
    exfalso. apply Hc, isReSpace_whiteSpace, Es.
Qed.

(** The URL pattern matches a string exactly when the string holds
    [http://], [https://] or [www.] (letters in either case, the [s]
    also as the long s), at the start or after a byte that is no word
    character, and followed by a byte that is not white space;
    [FindAllString] finds something on exactly those strings. *)
Theorem urlRe_matches_iff_occurrence (s : string) :
  (urlRe_MatchString s = true <-> urlOccursIn (bytes s)) /\
  ((0 < length (urlRe_FindAllString s))%nat <-> urlOccursIn (bytes s)).
Proof.
  assert (H : urlRe_scan None false (bytes s) <> [] <-> urlOccursIn (bytes s)).
  { rewrite urlRe_scan_finds. unfold urlOccursIn. split.
    - intros (pre & rest & E & Hw & Hs).
      apply wordBefore_boundary in Hw.
      apply urlRe_startsAt_spec in Hs as (p & c & t & -> & Hp & Hc).
      exists pre, p, c, t. auto.
    - intros (pre & p & c & t & E & Hb & Hp & Hc).
      exists pre, (p ++ c :: t). split; [exact E |].
      split; [apply wordBefore_boundary, Hb |].
      apply urlRe_startsAt_spec. exists p, c, t. auto. }
  unfold urlRe_MatchString, urlRe_FindAllString.
  destruct (urlRe_scan None false (bytes s)) as [| m ms].
  - split; (split; [cbn; (discriminate || lia) |]);
      intros Ho; apply H in Ho; contradiction.
  - split; (split; [intros _; apply H; discriminate |]); intros _;
      [reflexivity | cbn; lia].
Qed.

(** The pattern at work: case, the long s, the word boundary and the
    character after the prefix. *)
Example urlRe_examples :
  urlRe_FindAllString "see HTTPS://a.example, Www.b.example!" =
    ["HTTPS://a.example,"; "Www.b.example!"] /\
  urlRe_MatchString (ofBytes ([104; 116; 116; 112; 0xC5; 0xBF] ++ bytes "://a.example")) = true /\
  urlRe_MatchString "awww.b.example" = false /\
  urlRe_MatchString "_http://a.example" = false /\
  urlRe_MatchString "http:// a.example" = false /\
  urlRe_MatchString "ftp://a.example" = false.
Proof. repeat split; vm_compute; reflexivity. Qed.

(** ** The statistics helpers *)

Lemma hourlyFill_length (rows : list (option (Z * Z))) :
  forall counts out, hourlyFill counts rows = Some out -> length out = length counts.
Proof.
  induction rows as [| [[h cnt] |] t IH]; intros counts out H; cbn [hourlyFill] in H.
  - injection H as ->. reflexivity.
  - rewrite (IH _ _ H). destruct (_ && _); [apply length_insert | reflexivity].
  - discriminate.
Qed.

Lemma hourlyFill_values (rows : list (option (Z * Z))) :
  forall counts out,
    hourlyFill counts rows = Some out ->
    forall (h : nat) (v : Z),
      out !! h = Some v ->
      counts !! h = Some v \/ (In (Some (Z.of_nat h, v)) rows /\ (h < 24)%nat).
Proof.
  induction rows as [| [[h' cnt] |] t IH]; intros counts out H h v Hv;
    cbn [hourlyFill] in H.
  - injection H as ->. auto.
  - destruct (IH _ _ H h v Hv) as [Hc | [Hin Hh]]; [| right; split; [right |]; auto].
    destruct ((0 <=? h') && (h' <? 24)) eqn:Er; [| auto].
    apply andb_prop in Er as [H0 H24]. apply Z.leb_le in H0. apply Z.ltb_lt in H24.
    apply list_lookup_insert_Some in Hc as [(E & -> & _) | (_ & Hc)]; [| auto].
    right. subst h. rewrite Z2Nat.id by lia. split; [left; reflexivity | lia].
  - discriminate.
Qed.

(** [HourlyCounts] returns a nil slice only together with an error (no
    database, failed query, failed scan); otherwise the slice has
    exactly 24 entries, and an entry other than 0 is the count of a row
    read for that very hour: rows with an hour outside 0..23 are
    dropped. *)
Theorem HourlyCounts_has_24_hours
        (c : Captcha) (query : bool -> option (Rows (Z * Z))) (spamOnly : bool) :
  match HourlyCounts c query spamOnly with
  | (Some counts, _) =>
    length counts = 24%nat /\
    forall (h : nat) (v : Z),
      counts !! h = Some v ->
      v = 0 \/ exists rows, query spamOnly = Some rows /\
                            In (Some (Z.of_nat h, v)) (scanned rows) /\ (h < 24)%nat
  | (None, err) => err = true
  end.
Proof.
  unfold HourlyCounts. destruct (db c); [| reflexivity].
  destruct (query spamOnly) as [rows |]; [| reflexivity].
  destruct (hourlyFill _ _) as [counts |] eqn:E; [| reflexivity].
  split.
  - rewrite (hourlyFill_length _ _ _ E). apply length_replicate.
  - intros h v Hv.
    destruct (hourlyFill_values _ _ _ E h v Hv) as [Hr | [Hin Hh]].
    + left. apply lookup_replicate in Hr as [-> _]. reflexivity.
    + right. exists rows. auto.
Qed.

Example HourlyCounts_example :
  HourlyCounts storageCaptcha (fun _ => Some exampleHours) false =
  (Some [0; 0; 0; 0; 0; 0; 0; 0; 0; 4; 0; 0; 0; 0; 0; 0; 0; 0; 0; 0; 0; 0; 0; 1], false) /\
  HourlyCounts exampleCaptcha (fun _ => Some exampleHours) false = (None, true).
Proof. split; vm_compute; reflexivity. Qed.

Lemma statOrder_total : Total statOrder.
Proof.
  intros a b. unfold statOrder, statLess.
  rewrite (Z.eqb_sym (Count b) (Count a)).
  destruct (Z.eqb_spec (Count a) (Count b)) as [E | E].
  - unfold String.ltb. rewrite (String.compare_antisym (Reason a) (Reason b)).
    destruct (String.compare (Reason b) (Reason a)); cbn; auto.
  - destruct (Z.ltb_spec (Count a) (Count b)); [right | left; reflexivity].
    apply Z.ltb_ge. lia.
Qed.

Lemma Sorted_firstn {A : Type} (R : A -> A -> Prop) (l : list A) :
  Sorted R l -> forall n, Sorted R (firstn n l).
Proof.
  induction 1 as [| x l Hs IH Hhd]; intros n; destruct n as [| n]; cbn [firstn];
    try constructor.
  - apply IH.
  - destruct Hhd as [| y l Hxy]; destruct n; cbn [firstn]; constructor. exact Hxy.
Qed.

Lemma countReason_ok (freq : gmap string Z) (r : string) :
  countedOk freq -> countedOk (countReason freq r).
Proof.
  intros Hf. unfold countReason. cbv zeta.
  destruct (isEmpty (strings_TrimSpace r)) eqn:Ee; [exact Hf |].
  apply map_Forall_insert_2; [| exact Hf].
  split; [apply isEmpty_false; exact Ee |].
  destruct (freq !! strings_TrimSpace r) as [v |] eqn:El; simpl; [| lia].
  destruct (Hf _ _ El) as [_ Hv]. simpl in Hv. lia.
Qed.

Lemma reasonFreq_ok (json : string -> option (list string))
      (rows : list (option string)) :
  forall freq out, countedOk freq -> reasonFreq json freq rows = Some out -> countedOk out.
Proof.
  induction rows as [| [details |] t IH]; intros freq out Hf H; cbn [reasonFreq] in H.
  - injection H as <-. exact Hf.
  - destruct (json details) as [reasons |]; [| eauto].
    apply (IH _ _) in H; [exact H |].
    clear H. revert freq Hf. induction reasons as [| r rs IHr]; intros freq Hf;
      [exact Hf |].
    cbn [fold_left]. apply IHr, countReason_ok, Hf.
  - discriminate.
Qed.

Lemma map_is_fmap {A B : Type} (f : A -> B) (l : list A) : map f l = f <$> l.
Proof. induction l as [| x l IH]; [reflexivity |]. cbn. rewrite IH. reflexivity. Qed.

(** The sorted, untruncated list of [TopReasons]. *)
Lemma sorted_reasons_ok (freq : gmap string Z) :
  countedOk freq ->
  let arr := merge_sort statOrder
               (map (fun kv => {| Reason := fst kv; Count := snd kv |}) (map_to_list freq)) in
  Sorted statOrder arr /\
  NoDup (map Reason arr) /\
  Forall (fun e => Reason e <> "" /\ 1 <= Count e) arr.
Proof.
  intros Hf. cbv zeta.
  set (L := map (fun kv => {| Reason := fst kv; Count := snd kv |}) (map_to_list freq)).
  pose proof (merge_sort_Permutation statOrder L) as Hp.
  split; [apply (@Sorted_merge_sort _ statOrder _ statOrder_total) |].
  split.
  - rewrite (Permutation_map Reason Hp). unfold L. rewrite map_map. cbn [Reason].
    rewrite map_is_fmap. apply NoDup_fst_map_to_list.
  - rewrite Hp. unfold L. apply Forall_forall. intros e He.
    apply list_elem_of_In, in_map_iff in He as ([k v] & <- & Hin).
    cbn [Reason Count fst snd].
    apply list_elem_of_In, elem_of_map_to_list in Hin. exact (Hf k v Hin).
Qed.

(** [TopReasons] returns a nil slice only together with an error;
    otherwise it returns at most [limit] entries (10 when [limit] is not
    positive), each before its successor in the order "higher count
    first, then smaller reason", with no reason twice, no blank reason,
    and every count at least 1. *)
Theorem TopReasons_sorted_and_bounded
        (json : string -> option (list string)) (c : Captcha)
        (query : bool -> option (Rows string)) (limit : Z) (spamOnly : bool) :
  match TopReasons json c query limit spamOnly with
  | (Some arr, err) =>
    err = false /\
    Z.of_nat (length arr) <= (if limit <=? 0 then 10 else limit) /\
    Sorted statOrder arr /\
    NoDup (map Reason arr) /\
    Forall (fun e => Reason e <> "" /\ 1 <= Count e) arr
  | (None, err) => err = true
  end.
Proof.
  unfold TopReasons. destruct (db c); [| reflexivity]. cbv zeta.
  destruct (query spamOnly) as [rows |]; [| reflexivity].
  destruct (reasonFreq json ∅ (scanned rows)) as [freq |] eqn:Ef; [| reflexivity].
  destruct (iterErr rows); [reflexivity |].
  assert (Hok : countedOk freq).
  { apply (reasonFreq_ok json (scanned rows) ∅ freq); [| exact Ef].
    apply map_Forall_empty. }
  destruct (sorted_reasons_ok freq Hok) as (Hs & Hn & Ha).
  set (arr := merge_sort statOrder _) in *.
  assert (Hl : 0 < (if limit <=? 0 then 10 else limit)).
  { destruct (Z.leb_spec limit 0); lia. }
  split; [reflexivity |].
  destruct (Z.ltb_spec (if limit <=? 0 then 10 else limit) (Z.of_nat (length arr)))
    as [Hlt | Hge].
  - split; [rewrite length_take; lia |].
    split; [apply Sorted_firstn; exact Hs |].
    split; [| apply Forall_take; exact Ha].
    rewrite <- firstn_map. exact (sublist_NoDup _ _ Hn (sublist_take _ _)).
  - auto.
Qed.

Example TopReasons_example :
  TopReasons jsonStringsPlain storageCaptcha (fun _ => Some exampleDetails) 2 false =
  (Some [{| Reason := "ua_suspicious"; Count := 3 |};
         {| Reason := "missing_ts"; Count := 2 |}], false) /\
  TopReasons jsonStringsPlain storageCaptcha (fun _ => Some exampleDetails) 0 false =
  (Some [{| Reason := "ua_suspicious"; Count := 3 |};
         {| Reason := "missing_ts"; Count := 2 |};
         {| Reason := "bad_js_cookie"; Count := 1 |}], false).
Proof. split; vm_compute; reflexivity. Qed.

(** ** The rate limiter under a clock that never runs backwards *)

Lemma last_cons_default {A : Type} (l : list A) (a d : A) :
  List.last (a :: l) d = List.last l a.
Proof.
  revert a d. induction l as [| b l IH]; intros a d; [reflexivity |].
  change (List.last (a :: b :: l) d) with (List.last (b :: l) d).
  rewrite !IH. reflexivity.
Qed.

Lemma CheckRequest_storedUpTo (G : GoStdlib) (c : Captcha) (now t : Z) (r : Request) :
  storedUpTo c t -> t <= now ->
  storedUpTo (withRateMap c (rateMapAfter (CheckRequest G c now r))) now.
Proof.
  intros Hc Hle ip ts. cbn [withRateMap rateMap].
  assert (Hold : forall ts', rateMap c !! ip = Some ts' -> Forall (fun x => x <= now) ts').
  { intros ts' H. eapply Forall_impl; [exact (Hc ip ts' H) |]. intros x Hx. cbv beta in *. lia. }
  destruct (CheckRequest_rateMap G c now r) as [-> | (_ & _ & ->)]; [apply Hold |].
  destruct (decide (clientIP G r = ip)) as [<- | Hne].
  - rewrite lookup_insert_eq. intros E. injection E as <-.
    rewrite rateTick_app. apply Forall_app. split; [| repeat constructor; lia].
    apply Forall_forall. intros x Hx. apply list_elem_of_In, filter_In in Hx as [Hx _].
    destruct (rateMap c !! clientIP G r) as [hits |] eqn:Eh; [| destruct Hx].
    pose proof (Hold hits eq_refl) as Hh.
    apply (proj1 (Forall_forall _ _) Hh). apply list_elem_of_In. exact Hx.
  - rewrite lookup_insert_ne by exact Hne. apply Hold.
Qed.

(** When the clock readings of successive requests never decrease, no
    timestamp in the rate-limiter map is ever later than the latest
    reading: served in clock order, the entries of every origin stay at
    or below [now]. *)
Theorem stored_timestamps_follow_the_clock (G : GoStdlib) (reqs : list (Z * Request)) :
  forall (c : Captcha) (t0 : Z),
    storedUpTo c t0 ->
    Sorted Z.le (t0 :: map fst reqs) ->
    storedUpTo (serveAll G c reqs) (List.last (map fst reqs) t0).
Proof.
  induction reqs as [| [now r] reqs IH]; intros c t0 Hc Hs; [exact Hc |].
  cbn [map fst] in Hs. inversion Hs as [| ? ? Hs' Hhd]; subst.
  inversion Hhd as [| ? ? Hle]; subst.
  unfold serveAll. cbn [fold_left fst snd].
  change (List.last (map fst ((now, r) :: reqs)) t0)
    with (List.last (now :: map fst reqs) t0).
  rewrite last_cons_default.
  apply (IH _ now); [| exact Hs'].
  apply (CheckRequest_storedUpTo G c now t0 r Hc Hle).
Qed.

Lemma stored_timestamps_follow_the_clock_witness :
  rateMap (serveAll exampleStd exampleCaptcha
             [(exampleNow, cleanRequest); (exampleNow, noUARequest); (laterNow, cleanRequest)])
    !! "203.0.113.7" = Some [exampleNow; exampleNow; laterNow] /\
  storedUpTo (serveAll exampleStd exampleCaptcha
                [(exampleNow, cleanRequest); (exampleNow, noUARequest);
                 (laterNow, cleanRequest)])
             (List.last (map fst [(exampleNow, cleanRequest); (exampleNow, noUARequest);
                                  (laterNow, cleanRequest)]) 0).
Proof.
  split; [vm_compute; reflexivity |].
  apply (stored_timestamps_follow_the_clock exampleStd
           [(exampleNow, cleanRequest); (exampleNow, noUARequest); (laterNow, cleanRequest)]
           exampleCaptcha 0).
  - intros ip ts H. discriminate H.
  - repeat constructor; vm_compute; discriminate.
Defined.

(** After a tick the origin's list is never empty and is at most one
    longer than before, so a configured maximum below 1 puts the rate
    penalty on every request that reaches the scoring steps. *)
Theorem rate_count_is_at_least_one
        (G : GoStdlib) (c : Captcha) (now : Z) (r : Request) :
  (1 <= length (rateTick c (clientIP G r) now)
   <= length (default [] (rateMap c !! clientIP G r)) + 1)%nat /\
  (RateLimitMax (cfg c) < 1 ->
   checkRate c (rateTick c (clientIP G r) now) (0, []) = (-3, ["rate_limit_exceeded"])).
Proof.
  rewrite rateTick_app, length_app. cbn [length].
  pose proof (filter_length_le (fun t => time_Sub now t <? RateLimitTTL (cfg c))
                (default [] (rateMap c !! clientIP G r))) as Hl.
  split; [lia |]. intros Hmax. rewrite checkRate_cases, length_app. cbn [length].
  destruct (Z.ltb_spec (RateLimitMax (cfg c))
              (Z.of_nat (length (List.filter (fun t => time_Sub now t <? RateLimitTTL (cfg c))
                                   (default [] (rateMap c !! clientIP G r))) + 1)));
    [reflexivity | lia].
Qed.

(** ** The keyword table *)

(** The keyword list is never empty (an empty or unreadable table gives
    the built-in list); and when every keyword of the table is blank,
    the keyword check is skipped rather than replaced by the built-in
    list. *)
Theorem keyword_table_fallbacks (G : GoStdlib) (c : Captcha) (msg : string) (a : Acc) :
  getSpamKeywords c <> [] /\
  (Forall (fun kw => strings_TrimSpace kw = "") (getSpamKeywords c) ->
   contentKeywords G c msg a = a).
Proof.
  split.
  - unfold getSpamKeywords. destruct (db c) as [st |]; [| discriminate].
    destruct (keywordRows st) as [[| kw kws] |]; discriminate.
  - intros Hb. unfold contentKeywords.
    destruct (getSpamKeywords c) as [| kw kws]; [reflexivity |].
    rewrite filter_none; [reflexivity |].
    apply Forall_forall. intros x Hx. apply list_elem_of_In, in_map_iff in Hx as (y & <- & Hy).
    apply negb_false_iff, isEmpty_true.
    apply (proj1 (Forall_forall _ _) Hb). apply list_elem_of_In. exact Hy.
Qed.

Example blank_keywords_disable_the_check :
  getSpamKeywords blankKeywordCaptcha = [" "; ""] /\
  contentKeywords exampleStd blankKeywordCaptcha "cheap viagra casino" (0, []) = (0, []) /\
  contentKeywords exampleStd exampleCaptcha "cheap viagra casino" (0, [])
    = (-3, ["spam_keywords"]).
Proof. repeat split; vm_compute; reflexivity. Qed.
